(** * Farcaster unfollow script: a shallow embedding of [unfollow.js]

    The script asks Dune Analytics for a list of FIDs, shows it to the
    operator, and after a confirmation sends batched unfollow requests to
    the Neynar API.  Everything the script observes from outside (HTTP
    replies, the operator's answer, the order in which concurrent replies
    arrive) is collected in a [world] record; everything it does (console
    output, sleeps, HTTP calls) is recorded in a trace of [event]s. *)

From Equations Require Import Equations.
From Stdlib Require Import String Ascii List ZArith NArith Arith Bool Lia Permutation.
Import ListNotations.
Set Warnings "-register-all".
Open Scope string_scope.
Open Scope list_scope.
Open Scope nat_scope.

(** ** JavaScript values *)

(** The JSON payloads the script reads.  Numbers are the integer fragment
    (FIDs, counters, status codes); an object is the list of its own
    properties, looked up first match first. *)
Inductive jsval : Type :=
| JUndefined
| JNull
| JBool (b : bool)
| JNum (n : Z)
| JStr (s : string)
| JArr (elems : list jsval)
| JObj (props : list (string * jsval)).

(** ToBoolean, as used by [!x], [x && y] and [if (x)]. *)
Definition truthy (v : jsval) : bool :=
  match v with
  | JUndefined | JNull => false
  | JBool b => b
  | JNum n => negb (n =? 0)%Z
  | JStr s => negb (String.eqb s "")
  | JArr _ | JObj _ => true
  end.

(** [v === 'lit'] for a string literal. *)
Definition strict_eq_str (v : jsval) (lit : string) : bool :=
  match v with
  | JStr s => String.eqb s lit
  | _ => false
  end.

Fixpoint lookup (k : string) (props : list (string * jsval)) : jsval :=
  match props with
  | [] => JUndefined
  | (k', v) :: rest => if String.eqb k' k then v else lookup k rest
  end.

(** The property [k] of a JSON value, when it is an object that has it. *)
Definition field (k : string) (v : jsval) : jsval :=
  match v with
  | JObj props => lookup k props
  | _ => JUndefined
  end.

Definition nullish (v : jsval) : bool :=
  match v with
  | JUndefined | JNull => true
  | _ => false
  end.

(** [k] is an own property of the object. *)
Fixpoint has_own (k : string) (props : list (string * jsval)) : bool :=
  match props with
  | [] => false
  | (k', _) :: rest => String.eqb k' k || has_own k rest
  end.

(** ToString(v) raises a TypeError.  The values are JSON data, in which no
    property is callable.  An object with an own [toString] is left without
    a conversion method that yields a primitive ([Object.prototype.valueOf]
    returns the object itself), whereas any other object prints as
    [[object Object]].  An array prints as the [join] of its elements, which
    converts each of them (and gives the empty string for [null] and
    [undefined]). *)
Fixpoint unprintable (v : jsval) : bool :=
  match v with
  | JObj props => has_own "toString" props
  | JArr elems => existsb unprintable elems
  | _ => false
  end.

(** The result of [Number(s)]: the real number [(-1)^neg * mantissa *
    10^exp10] named by the literal (which the engine then rounds to the
    nearest double), an infinity, or NaN. *)
Inductive jsnum : Type :=
| NaN
| Infinity (neg : bool)
| Finite (neg : bool) (mantissa : N) (exp10 : Z).

(** ** Template literals and console output *)

(** A template literal is kept as the list of its pieces, so that no
    number formatting or [JSON.stringify] has to be spelled out. *)
Inductive frag : Type :=
| Lit (s : string)                       (* literal text *)
| Sub (v : jsval)                        (* a substitution of a value *)
| Json (v : jsval)                       (* JSON.stringify(v) *)
| Join (elems : list jsval) (sep : string).  (* elems.join(sep) *)

Definition msg := list frag.

Definition num (n : nat) : frag := Sub (JNum (Z.of_nat n)).

Definition env (v : option string) : jsval :=
  match v with
  | Some s => JStr s
  | None => JUndefined
  end.

(** ** HTTP *)

Record http_response : Type := { status : Z; data : jsval }.

(** What a [catch] clause receives: an axios error (with the server's
    response when there was one), or an [Error]/[TypeError] raised by the
    script itself. *)
Record js_error : Type := { message : msg; response : option http_response }.

Inductive http_result : Type :=
| Resolved (r : http_response)
| Rejected (e : js_error).

Inductive request : Type :=
| DuneExecute (query_id : Z) (fid_t90e29 : jsnum) (api_key : option string)
| DuneStatus (executionId : jsval) (api_key : option string)
| DuneResults (executionId : jsval) (api_key : option string)
| NeynarUnfollow (api_key signer_uuid : option string) (target_fids : list jsval).

(** ** Events *)

Inductive level : Type := Info | Warn | Error | Success.

Inductive event : Type :=
| ConsoleLog (m : msg)                           (* console.log *)
| Log (l : level) (m : msg)                      (* log.info, log.warn, ... *)
| Sleep (ms : Z)                                 (* await sleep(ms) *)
| Http (r : request) (o : http_result)           (* an awaited axios call *)
| DeleteSent (index : nat) (r : request)         (* axios.delete called *)
| DeleteSettled (index : nat) (o : http_result)  (* its promise settled *)
| Question (prompt : msg) (answer : string).     (* readlineSync.question *)

Definition trace := list event.

(** ** The world *)

(** The Dune status endpoint is a finite script of replies: when the script
    is exhausted and the loop still polls, the run is [Pending].  In the same
    way [settle_order] lists, for each reply that arrives, which of the
    requests in flight it answers (a position in the in-flight list, taken
    modulo its length); when it is exhausted the remaining requests never
    settle.  [tty] says whether the process has a terminal to read from, and
    [typed] is the line that the operator types on it. *)
Record world : Type := {
  execute_reply : http_result;
  status_replies : list http_result;
  results_reply : http_result;
  tty : bool;
  typed : string;
  unfollow_reply : nat -> http_result;
  settle_order : list nat
}.

(** ** Configuration *)

Record config : Type := {
  DUNE_API_KEY : option string;
  NEYNAR_API_KEY : option string;
  FARCASTER_SIGNER_UUID : option string;
  TARGET_FID : option string
}.

Definition DUNE_QUERY_ID : Z := 3533118.

Definition DUNE_API_URL : string := "https://api.dune.com/api/v1".

(** ** Batching *)

Definition batchSize : nat := 100.

(** [l.slice(i, j)] for [0 <= i <= j]. *)
Definition slice {A} (l : list A) (i j : nat) : list A :=
  firstn (j - i) (skipn i l).

Section Batches.
Context {A : Type}.
Variable fids : list A.

(** [for (let i = 0; i < fids.length; i += batchSize)
      batches.push(fids.slice(i, i + batchSize));] *)
Equations? batch_loop (i : nat) (batches : list (list A)) : list (list A)
  by wf (length fids - i) lt :=
  batch_loop i batches with lt_dec i (length fids) => {
    | left _ := batch_loop (i + batchSize) (batches ++ [slice fids i (i + batchSize)]);
    | right _ := batches }.
Proof. unfold batchSize. lia. Qed.

End Batches.

Definition make_batches {A} (fids : list A) : list (list A) :=
  batch_loop fids 0 [].

(** The least [q] with [n <= q * d]. *)
Definition ceil_div (n d : nat) : nat := (n + d - 1) / d.

(** The chunk the loop pushes on its [k]-th iteration when started at [i]. *)
Definition chunk {A} (fids : list A) (i k : nat) : list A :=
  slice fids (i + k * batchSize) (i + k * batchSize + batchSize).

(** ** Built-ins: [toLowerCase] and [Number] *)

(** Strings that come from outside (the environment, the terminal) are the
    UTF-8 bytes of the JavaScript string. *)
Definition code (c : ascii) : N := N_of_ascii c.

(** [toLowerCase] on the ASCII letters.  Bytes above 127 are left alone:
    the lower-casing of a non-ASCII character always contains a character
    other than [y], [e] and [s], so the comparison with ['yes'] in [main] is
    decided as the engine decides it. *)
Definition lower (c : ascii) : ascii :=
  if ((65 <=? code c) && (code c <=? 90))%N
  then ascii_of_N (code c + 32)
  else c.

Fixpoint toLowerCase (s : string) : string :=
  match s with
  | EmptyString => EmptyString
  | String c r => String (lower c) (toLowerCase r)
  end.

(** StrWhiteSpaceChar: the ASCII ones and the UTF-8 encodings of U+00A0,
    U+1680, U+2000..U+200A, U+2028, U+2029, U+202F, U+205F, U+3000, U+FEFF. *)
Definition is_ws1 (c : ascii) : bool :=
  (((9 <=? code c) && (code c <=? 13)) || (code c =? 32))%N.

Definition is_ws2 (c1 c2 : ascii) : bool :=
  ((code c1 =? 194) && (code c2 =? 160))%N.

Definition is_ws3 (c1 c2 c3 : ascii) : bool :=
  (((code c1 =? 225) && (code c2 =? 154) && (code c3 =? 128))
   || ((code c1 =? 226) && (code c2 =? 128)
       && (((128 <=? code c3) && (code c3 <=? 138))
           || (code c3 =? 168) || (code c3 =? 169) || (code c3 =? 175)))
   || ((code c1 =? 226) && (code c2 =? 129) && (code c3 =? 159))
   || ((code c1 =? 227) && (code c2 =? 128) && (code c3 =? 128))
   || ((code c1 =? 239) && (code c2 =? 187) && (code c3 =? 191)))%N.

Fixpoint skip_ws (s : string) : string :=
  match s with
  | EmptyString => s
  | String c1 r1 =>
    if is_ws1 c1 then skip_ws r1 else
    match r1 with
    | EmptyString => s
    | String c2 r2 =>
      if is_ws2 c1 c2 then skip_ws r2 else
      match r2 with
      | EmptyString => s
      | String c3 r3 => if is_ws3 c1 c2 c3 then skip_ws r3 else s
      end
    end
  end.

Definition digit_of (base : N) (c : ascii) : option N :=
  let n := code c in
  let v := (if (48 <=? n) && (n <=? 57) then Some (n - 48)
            else if (97 <=? n) && (n <=? 102) then Some (n - 87)
            else if (65 <=? n) && (n <=? 70) then Some (n - 55)
            else None)%N in
  match v with
  | Some d => if (d <? base)%N then Some d else None
  | None => None
  end.

(** The longest run of digits at the head of [s]: its value (continuing
    [acc]), its length, and what follows it. *)
Fixpoint digits (base : N) (s : string) (acc : N) (count : nat)
  : N * nat * string :=
  match s with
  | EmptyString => (acc, count, s)
  | String c r =>
    match digit_of base c with
    | Some d => digits base r (acc * base + d)%N (S count)
    | None => (acc, count, s)
    end
  end.

Fixpoint strip_prefix (p s : string) : option string :=
  match p, s with
  | EmptyString, _ => Some s
  | String a p', String b s' => if Ascii.eqb a b then strip_prefix p' s' else None
  | String _ _, EmptyString => None
  end.

(** [s.trim()]: the white space of [StrWhiteSpaceChar] is removed at both
    ends.  At the end, what is dropped is the longest suffix made of white
    space only. *)
Fixpoint trim_end (s : string) : string :=
  match s with
  | EmptyString => EmptyString
  | String c r => if String.eqb (skip_ws s) "" then "" else String c (trim_end r)
  end.

Definition trim (s : string) : string := trim_end (skip_ws s).

(** What [readlineSync.question] returns: the line typed, trimmed. *)
Definition answer (w : world) : string := trim (typed w).

(** Only white space may follow the literal. *)
Definition end_of_literal (rest : string) (v : jsnum) : jsnum :=
  if String.eqb (skip_ws rest) "" then v else NaN.

Definition non_decimal (base : N) (s : string) : jsnum :=
  let '(v, n, rest) := digits base s 0%N 0 in
  if (n =? 0)%nat then NaN else end_of_literal rest (Finite false v 0).

Definition sign (s : string) : bool * string :=
  match s with
  | String c r =>
    if Ascii.eqb c "+" then (false, r)
    else if Ascii.eqb c "-" then (true, r)
    else (false, s)
  | EmptyString => (false, s)
  end.

(** ExponentPart, optional: [None] when an [e] is not followed by digits. *)
Definition exponent (s : string) : option (Z * string) :=
  match s with
  | String c r =>
    if Ascii.eqb (lower c) "e" then
      let (neg, r') := sign r in
      let '(v, n, rest) := digits 10 r' 0%N 0 in
      if (n =? 0)%nat then None
      else Some (if neg then (- Z.of_N v)%Z else Z.of_N v, rest)
    else Some (0%Z, s)
  | EmptyString => Some (0%Z, s)
  end.

(** StrUnsignedDecimalLiteral *)
Definition unsigned_decimal (neg : bool) (s : string) : jsnum :=
  match strip_prefix "Infinity" s with
  | Some rest => end_of_literal rest (Infinity neg)
  | None =>
    let '(ip, n1, r1) := digits 10 s 0%N 0 in
    let '(m, n2, r2) :=
      match r1 with
      | String c r => if Ascii.eqb c "." then digits 10 r ip 0 else (ip, 0, r1)
      | EmptyString => (ip, 0, r1)
      end in
    if (n1 + n2 =? 0)%nat then NaN
    else match exponent r2 with
         | Some (e, r3) => end_of_literal r3 (Finite neg m (e - Z.of_nat n2))
         | None => NaN
         end
  end.

(** The prefix of a NonDecimalIntegerLiteral: its base and what follows. *)
Definition radix_prefix (t : string) : option (N * string) :=
  match t with
  | String z (String c r) =>
    if Ascii.eqb z "0" then
      if Ascii.eqb (lower c) "x" then Some (16%N, r)
      else if Ascii.eqb (lower c) "o" then Some (8%N, r)
      else if Ascii.eqb (lower c) "b" then Some (2%N, r)
      else None
    else None
  | _ => None
  end.

(** StringToNumber: white space is trimmed, the empty string is [+0], a
    string that is not a StrNumericLiteral is NaN. *)
Definition StringToNumber (s : string) : jsnum :=
  match skip_ws s with
  | EmptyString => Finite false 0 0
  | t =>
    match radix_prefix t with
    | Some (base, r) => non_decimal base r
    | None => let (neg, r) := sign t in unsigned_decimal neg r
    end
  end.

(** [Number(process.env.X)]: the variable is a string or [undefined]. *)
Definition Number (v : option string) : jsnum :=
  match v with
  | Some s => StringToNumber s
  | None => NaN
  end.

(** The grammar of StringNumericLiteral (ECMAScript, StringToNumber), by
    which a string "is numeric". *)

(** StrWhiteSpace *)
Inductive White : string -> Prop :=
| White_nil : White ""
| White_1 c r : is_ws1 c = true -> White r -> White (String c r)
| White_2 c1 c2 r :
    is_ws2 c1 c2 = true -> White r -> White (String c1 (String c2 r))
| White_3 c1 c2 c3 r :
    is_ws3 c1 c2 c3 = true -> White r ->
    White (String c1 (String c2 (String c3 r))).

(** A non-empty sequence of digits in [base]. *)
Inductive Digits (base : N) : string -> Prop :=
| Digits_one c : digit_of base c <> None -> Digits base (String c "")
| Digits_more c d :
    digit_of base c <> None -> Digits base d -> Digits base (String c d).







(** A byte with which white space begins. *)
Definition ws_start (c : ascii) : bool :=
  is_ws1 c
  || (code c =? 194)%N || (code c =? 225)%N || (code c =? 226)%N
  || (code c =? 227)%N || (code c =? 239)%N.

(** No character of the string begins white space. *)
Fixpoint solid (s : string) : Prop :=
  match s with
  | EmptyString => True
  | String c r => ws_start c = false /\ solid r
  end.

(** The mathematical value (MV) of the literals of the grammar: the number
    that a StringNumericLiteral names. *)

(** The value of a digit: [0]..[9], [A]..[F], [a]..[f]. *)
Definition digit_value (c : ascii) : N :=
  if (code c <=? 57)%N then (code c - 48)%N
  else if (code c <=? 70)%N then (code c - 55)%N
  else (code c - 87)%N.

(** The number that a string of digits denotes in [base]. *)
Fixpoint denotes (base : N) (s : string) : N :=
  match s with
  | EmptyString => 0
  | String c r => digit_value c * base ^ N.of_nat (String.length r) + denotes base r
  end.






(** ** Effects: a trace, exceptions, and promises that never settle *)

Inductive completion (A : Type) : Type :=
| Normal (a : A)
| Throw (e : js_error)
| Pending.
Arguments Normal {A} a.
Arguments Throw {A} e.
Arguments Pending {A}.

Definition M (A : Type) : Type := completion A * trace.

Definition ret {A} (a : A) : M A := (Normal a, []).

Definition bind {A B} (m : M A) (f : A -> M B) : M B :=
  match m with
  | (Normal a, t) => let (r, t') := f a in (r, t ++ t')
  | (Throw e, t) => (Throw e, t)
  | (Pending, t) => (Pending, t)
  end.

Notation "x <- m ;; k" := (bind m (fun x => k))
  (at level 61, m at next level, right associativity).
Notation "m ;; k" := (bind m (fun _ => k))
  (at level 61, right associativity).

Definition emit (e : event) : M unit := (Normal tt, [e]).
Definition throw {A} (e : js_error) : M A := (Throw e, []).
Definition pending {A} : M A := (Pending, []).

(** [try { m } catch (error) { h error }] *)
Definition try_catch {A} (m : M A) (h : js_error -> M A) : M A :=
  match m with
  | (Throw e, t) => let (r, t') := h e in (r, t ++ t')
  | _ => m
  end.

(** [await axios.post/get(...)] answered by [o]. *)
Definition await (r : request) (o : http_result) : M http_response :=
  match o with
  | Resolved resp => (Normal resp, [Http r o])
  | Rejected e => (Throw e, [Http r o])
  end.

(** [new Error(m)] and the engine's TypeErrors carry no [response]. *)
Definition Error_ (m : msg) : js_error := {| message := m; response := None |}.

(** The TypeError of a failed ToString. *)
Definition TypeError_primitive : js_error :=
  Error_ [Lit "Cannot convert object to primitive value"].

(** The piece of a template literal can be turned into text. *)
Definition converts (f : frag) : bool :=
  match f with
  | Lit _ | Json _ => true
  | Sub v => negb (unprintable v)
  | Join elems _ => negb (existsb unprintable elems)
  end.

(** The evaluation of a template literal (or of [elems.join(sep)]) that
    substitutes JSON data: its text when every substitution converts to a
    string, the TypeError otherwise.  The templates of the script that
    substitute only numbers, strings or [undefined] always have a text and
    are written without it. *)
Definition template (m : msg) : M msg :=
  if forallb converts m then ret m else throw TypeError_primitive.

(** [v.k] for the property names the script reads (none of them is a
    built-in property of strings, numbers, booleans or arrays). *)
Definition get (v : jsval) (k : string) : M jsval :=
  match v with
  | JUndefined | JNull =>
    throw (Error_ [Lit "Cannot read properties of "; Sub v;
                   Lit " (reading '"; Lit k; Lit "')"])
  | JObj props => ret (lookup k props)
  | _ => ret JUndefined
  end.

Fixpoint map_m {A B} (f : A -> M B) (l : list A) : M (list B) :=
  match l with
  | [] => ret []
  | x :: xs => y <- f x ;; ys <- map_m f xs ;; ret (y :: ys)
  end.

Module console.
Definition log (m : msg) : M unit := emit (ConsoleLog m).
End console.

Module log.
Definition info (m : msg) : M unit := emit (Log Info m).
Definition warn (m : msg) : M unit := emit (Log Warn m).
Definition error (m : msg) : M unit := emit (Log Error m).
Definition success (m : msg) : M unit := emit (Log Success m).
End log.

Definition sleep (ms : Z) : M unit := emit (Sleep ms).

(** ** The Query Runner *)

Section QueryRunner.
Variable cfg : config.

(** The [do ... while] loop, one iteration per reply of the script.  The
    request records the execution id that the URL of line 82 substitutes. *)
Fixpoint poll (executionId : jsval) (replies : list http_result) : M unit :=
  sleep 3000 ;;
  template [Lit DUNE_API_URL; Lit "/execution/"; Sub executionId; Lit "/status"] ;;
  match replies with
  | [] => pending
  | reply :: later =>
    statusResponse <- await (DuneStatus executionId (DUNE_API_KEY cfg)) reply ;;
    let st := data statusResponse in
    state <- get st "state" ;;
    (if strict_eq_str state "QUERY_STATE_FAILED"
     then err <- get st "error" ;;
          m <- template [Lit "Dune query failed: "; Sub err] ;;
          throw (Error_ m)
     else ret tt) ;;
    state <- get st "state" ;;
    m <- template [Lit "Query state: "; Sub state; Lit "..."] ;;
    log.info m ;;
    state <- get st "state" ;;
    if negb (strict_eq_str state "QUERY_STATE_COMPLETED")
    then poll executionId later
    else ret tt
  end.

(** [rows.map(row => row.profile_id)] *)
Definition project_rows (rows : jsval) : M (list jsval) :=
  match rows with
  | JArr elems => map_m (fun row => get row "profile_id") elems
  | JUndefined | JNull =>
    throw (Error_ [Lit "Cannot read properties of "; Sub rows;
                   Lit " (reading 'map')"])
  | _ => throw (Error_ [Lit "resultsResponse.data.result.rows.map is not a function"])
  end.

Definition report (error : js_error) : M unit :=
  match response error with
  | Some r => log.error [Lit "Status: "; Sub (JNum (status r)); Lit " - "; Json (data r)]
  | None => log.error (message error)
  end.

Definition fetchFidsToUnfollow (w : world) : M (list jsval) :=
  log.info [Lit "Executing Dune query (ID: "; Sub (JNum DUNE_QUERY_ID);
            Lit ") for target FID: "; Sub (env (TARGET_FID cfg)); Lit "..."] ;;
  try_catch
    (executeResponse <-
       await (DuneExecute DUNE_QUERY_ID (Number (TARGET_FID cfg)) (DUNE_API_KEY cfg))
             (execute_reply w) ;;
     executionId <- get (data executeResponse) "execution_id" ;;
     (if negb (truthy executionId)
      then throw (Error_ [Lit "Failed to get execution ID from Dune."])
      else ret tt) ;;
     m <- template [Lit "Dune execution started with ID: "; Sub executionId;
                    Lit ". Waiting for results..."] ;;
     log.info m ;;
     poll executionId (status_replies w) ;;
     template [Lit DUNE_API_URL; Lit "/execution/"; Sub executionId; Lit "/results"] ;;
     resultsResponse <-
       await (DuneResults executionId (DUNE_API_KEY cfg)) (results_reply w) ;;
     result <- get (data resultsResponse) "result" ;;
     rows <- get result "rows" ;;
     fids <- project_rows rows ;;
     log.success [Lit "Found "; num (length fids); Lit " FIDs to unfollow."] ;;
     ret fids)
    (fun error =>
       log.error [Lit "Error fetching data from Dune API."] ;;
       report error ;;
       ret []).

End QueryRunner.

(** ** The Batch Actuator *)

(** One element of [batches] with its position: the arguments of the
    callback of [batches.map]. *)
Record task : Type := { index : nat; batch : list jsval }.

Fixpoint tasks_from (index : nat) (batches : list (list jsval)) : list task :=
  match batches with
  | [] => []
  | batch :: rest => {| index := index; batch := batch |} :: tasks_from (S index) rest
  end.

(** Modelled from the spec: the state of the limiter of the [p-limit]
    package, which the script imports and which is not among its sources
    ("at most 5 requests in flight simultaneously; remaining chunks queue
    until a slot frees").  The limiter counts in [activeCount] the tasks it
    has started and not yet seen finish, and keeps the others in a FIFO
    [queue].  [in_flight] is not the limiter's: it lists the started tasks
    whose request has not been answered yet. *)
Record pool : Type := {
  activeCount : nat;
  queue : list task;
  in_flight : list task
}.

(** [const limit = pLimit(5);] *)
Definition concurrency : nat := 5.

Fixpoint remove_nth {A} (i : nat) (l : list A) : list A :=
  match i, l with
  | _, [] => []
  | 0, _ :: xs => xs
  | S i', x :: xs => x :: remove_nth i' xs
  end.

Fixpoint iterate {St} (n : nat) (f : St -> M St) (s : St) : M St :=
  match n with
  | 0 => ret s
  | S n' => s' <- f s ;; iterate n' f s'
  end.

Section BatchActuator.
Variable cfg : config.
Variable w : world.
Variable total : nat.   (* batches.length *)

(** The callback given to [limit], from its start to [await axios.delete]. *)
Definition begin (t : task) : M unit :=
  log.info [Lit "Processing batch "; num (index t + 1); Lit "/"; num total;
            Lit " with "; num (length (batch t)); Lit " FIDs..."] ;;
  emit (DeleteSent (index t)
          (NeynarUnfollow (NEYNAR_API_KEY cfg) (FARCASTER_SIGNER_UUID cfg) (batch t))).

(** The same callback from the moment its request is answered by [o]: the
    rest of the [try] block, and the [catch] block. *)
Definition resume (t : task) (o : http_result) : M unit :=
  emit (DeleteSettled (index t) o) ;;
  try_catch
    (resp <- match o with
             | Resolved r => ret r
             | Rejected e => throw e
             end ;;
     success <- get (data resp) "success" ;;
     if truthy success
     then log.success [Lit "Batch "; num (index t + 1); Lit " processed successfully."]
     else log.warn [Lit "Batch "; num (index t + 1); Lit " processed with issues."])
    (fun error =>
       log.error [Lit "Failed to process batch "; num (index t + 1); Lit "."] ;;
       report error).

(** Modelled from the spec: what [p-limit] does to start a task.  The
    limiter takes the head of its queue, counts it as active and runs it (up
    to its first [await]). *)
Definition dequeue (p : pool) : M pool :=
  match queue p with
  | [] => ret p
  | t :: q =>
    begin t ;;
    ret {| activeCount := S (activeCount p); queue := q;
           in_flight := in_flight p ++ [t] |}
  end.

(** Modelled from the spec: the microtask that [p-limit] schedules at each
    call of [limit(fn)], after it has put [fn] in the queue: a task is
    started if fewer than [concurrency] are active. *)
Definition try_start (p : pool) : M pool :=
  if (activeCount p <? concurrency) && (0 <? length (queue p))
  then dequeue p
  else ret p.

(** Modelled from the spec: what [p-limit] does when one of its tasks has
    finished: the slot is freed and the next waiting task, if any, takes it. *)
Definition next (p : pool) : M pool :=
  dequeue {| activeCount := activeCount p - 1; queue := queue p;
             in_flight := in_flight p |}.

(** The reply to the request at position [k] (modulo the number of requests
    in flight) arrives; its task runs to its end and frees its slot. *)
Definition settle (p : pool) (k : nat) : M pool :=
  let i := k mod length (in_flight p) in
  match nth_error (in_flight p) i with
  | None => ret p
  | Some t =>
    resume t (unfollow_reply w (index t)) ;;
    next {| activeCount := activeCount p; queue := queue p;
            in_flight := remove_nth i (in_flight p) |}
  end.

(** [await Promise.all(unfollowPromises)]: replies are handled as they
    arrive until no task is left. *)
Fixpoint drain (order : list nat) (p : pool) {struct order} : M unit :=
  match in_flight p, queue p with
  | [], [] => ret tt
  | _, _ =>
    match order with
    | [] => pending
    | k :: later => p' <- settle p k ;; drain later p'
    end
  end.

End BatchActuator.

Definition unfollowFids (cfg : config) (w : world) (fids : list jsval) : M unit :=
  if length fids =? 0 then
    log.warn [Lit "No FIDs to unfollow. Exiting."]
  else
    log.info [Lit "Preparing to unfollow "; num (length fids); Lit " users."] ;;
    let batches := make_batches fids in
    log.info [Lit "Splitting into "; num (length batches); Lit " batch(es)."] ;;
    let total := length batches in
    p <- iterate total (try_start cfg total)
           {| activeCount := 0; queue := tasks_from 0 batches; in_flight := [] |} ;;
    drain cfg w total (settle_order w) p ;;
    log.success [Lit "All unfollow operations completed."].

(** ** The workflow *)

(** The characters that the escapes [\n] and [\x1b] of the script stand
    for. *)
Definition LF : ascii := "010"%char.
Definition ESC : ascii := "027"%char.

(** What [readlineSync.question] throws when it cannot read. *)
Definition no_terminal : js_error :=
  Error_ [Lit "The current environment doesn't support interactive reading from TTY."].

Module readlineSync.
(** Modelled from the spec: [question] of the [readline-sync] package, which
    the script imports and which is not among its sources ("presents the
    full identifier list and its count to a human operator synchronously;
    blocks until textual input is received").  The call shows the prompt on
    the terminal of the process and returns the line read there, which the
    package hands over trimmed of the white space around it: [answer w].  A
    process without a terminal cannot be asked: the call then raises an
    [Error] and nothing is shown. *)
Definition question (prompt : msg) (w : world) : M string :=
  if tty w
  then emit (Question prompt (answer w)) ;; ret (answer w)
  else throw no_terminal.
End readlineSync.

Definition main (cfg : config) (w : world) : M unit :=
  console.log [Lit "--- Farcaster Follower Audit & Unfollow Script ---"] ;;
  if negb (truthy (env (DUNE_API_KEY cfg)))
     || negb (truthy (env (NEYNAR_API_KEY cfg)))
     || negb (truthy (env (FARCASTER_SIGNER_UUID cfg)))
     || negb (truthy (env (TARGET_FID cfg)))
  then
    log.error [Lit "One or more required environment variables are missing."] ;;
    log.error [Lit "Please check your .env file."]
  else
    fids <- fetchFidsToUnfollow cfg w ;;
    if 0 <? length fids then
      console.log [Lit (String LF "--- FIDs to Unfollow ---")] ;;
      joined <- template [Join fids ", "] ;;
      console.log joined ;;
      console.log [Lit "---"] ;;
      answer <- readlineSync.question
                  [Lit (String LF (String ESC
                          "[33m[CONFIRMATION] Do you want to unfollow these "));
                   num (length fids);
                   Lit (" users? (yes/no): " ++ String ESC "[0m")%string] w ;;
      if String.eqb (toLowerCase answer) "yes"
      then unfollowFids cfg w fids
      else log.info [Lit "Unfollow action cancelled by user."]
    else
      log.info [Lit "No FIDs flagged for unfollowing based on the Dune query."].

(** ** Vocabulary of the statements *)

(** A computation that never throws. *)
Definition no_throw {A} (m : M A) : Prop := forall e, fst m <> Throw e.

(** A computation that makes no awaited HTTP call. *)
Definition no_http {A} (m : M A) : Prop := forall r o, ~ In (Http r o) (snd m).

(** A computation whose awaited HTTP calls never fail silently: a rejected
    call is what the computation throws. *)
Definition rejects_thrown {A} (m : M A) : Prop :=
  forall r e, In (Http r (Rejected e)) (snd m) -> fst m = Throw e.

(** What [report] prints for an error: the status and body of the response
    when the error carries one, the error's message otherwise. *)
Definition report_line (e : js_error) : event :=
  match response e with
  | Some r => Log Error [Lit "Status: "; Sub (JNum (status r)); Lit " - "; Json (data r)]
  | None => Log Error (message e)
  end.

Definition is_status_request (ev : event) : bool :=
  match ev with
  | Http (DuneStatus _ _) _ => true
  | _ => false
  end.

Definition is_results_request (ev : event) : bool :=
  match ev with
  | Http (DuneResults _ _) _ => true
  | _ => false
  end.

(** The unfollow requests issued, and the replies received, in the order of
    the trace. *)
Definition sent (tr : trace) : list (nat * request) :=
  flat_map (fun ev => match ev with DeleteSent i r => [(i, r)] | _ => [] end) tr.

Definition settled (tr : trace) : list (nat * http_result) :=
  flat_map (fun ev => match ev with DeleteSettled i o => [(i, o)] | _ => [] end) tr.

(** At every instant of the run -- after every prefix of its trace -- at
    most [limit] requests have been issued and not answered yet. *)
Definition in_flight_bounded (limit : nat) (tr : trace) : Prop :=
  forall pre suf, tr = pre ++ suf ->
    length (sent pre) <= length (settled pre) + limit.

(** [l] occurs in [tr] as a block of consecutive events. *)
Definition adjacent (l tr : trace) : Prop :=
  exists pre post, tr = pre ++ l ++ post.

(** What the task of batch [index] logs once its request was answered. *)
Definition outcome_lines (index : nat) (o : http_result) : trace :=
  match o with
  | Resolved r =>
    if nullish (data r) then
      [Log Error [Lit "Failed to process batch "; num (index + 1); Lit "."];
       Log Error [Lit "Cannot read properties of "; Sub (data r);
                  Lit " (reading '"; Lit "success"; Lit "')"]]
    else if truthy (field "success" (data r)) then
      [Log Success [Lit "Batch "; num (index + 1); Lit " processed successfully."]]
    else
      [Log Warn [Lit "Batch "; num (index + 1); Lit " processed with issues."]]
  | Rejected e =>
    [Log Error [Lit "Failed to process batch "; num (index + 1); Lit "."];
     report_line e]
  end.

Section ActuatorInvariant.
Variable cfg : config.
Variable w : world.
Variable all : list task.   (* one task per batch, in the order of [batches] *)

(** The request the task [t] sends. *)
Definition request_of (t : task) : nat * request :=
  (index t,
   NeynarUnfollow (NEYNAR_API_KEY cfg) (FARCASTER_SIGNER_UUID cfg) (batch t)).

(** What holds of the limiter and of the trace between two steps of the
    actuator. *)
Record Inv (p : pool) (tr : trace) : Prop := {
  inv_active : activeCount p = length (in_flight p);
  inv_limit : activeCount p <= concurrency;
  inv_sent : sent tr ++ map request_of (queue p) = map request_of all;
  inv_perm : Permutation (map index (in_flight p) ++ map fst (settled tr))
                         (map fst (sent tr));
  inv_reply : forall i o, In (i, o) (settled tr) -> o = unfollow_reply w i;
  inv_bound : in_flight_bounded concurrency tr;
  inv_logged : forall i o, In (i, o) (settled tr) ->
                 adjacent (DeleteSettled i o :: outcome_lines i o) tr
}.

End ActuatorInvariant.

(** No task is waiting while a slot is free. *)
Definition saturated (p : pool) : Prop :=
  queue p <> [] -> activeCount p = concurrency.

(** Every event of the computation satisfies [P]. *)
Definition emits_only {A} (P : event -> Prop) (m : M A) : Prop := Forall P (snd m).

(** An event that is not part of an unfollow request. *)
Definition not_delete (ev : event) : Prop :=
  match ev with
  | DeleteSent _ _ | DeleteSettled _ _ => False
  | _ => True
  end.

(** The spellings of the answer that [main] accepts. *)
Definition yes_variants : list string :=
  ["yes"; "yeS"; "yEs"; "yES"; "Yes"; "YeS"; "YEs"; "YES"].

(** All four variables are set and not empty. *)
Definition env_ok (cfg : config) : bool :=
  truthy (env (DUNE_API_KEY cfg)) && truthy (env (NEYNAR_API_KEY cfg))
  && truthy (env (FARCASTER_SIGNER_UUID cfg)) && truthy (env (TARGET_FID cfg)).

Definition banner : event :=
  ConsoleLog [Lit "--- Farcaster Follower Audit & Unfollow Script ---"].


(** What [main] prints before it asks. *)
Definition listing (fids : list jsval) : trace :=
  [ConsoleLog [Lit (String LF "--- FIDs to Unfollow ---")];
   ConsoleLog [Join fids ", "];
   ConsoleLog [Lit "---"]].

(** What [main] shows between the query and the operator's answer [a]. *)
Definition confirmation (fids : list jsval) (a : string) : trace :=
  [ConsoleLog [Lit (String LF "--- FIDs to Unfollow ---")];
   ConsoleLog [Join fids ", "];
   ConsoleLog [Lit "---"];
   Question [Lit (String LF (String ESC
                    "[33m[CONFIRMATION] Do you want to unfollow these "));
             num (length fids);
             Lit (" users? (yes/no): " ++ String ESC "[0m")%string] a].


(** ** Sample runs *)

Definition cfg0 : config :=
  {| DUNE_API_KEY := Some "dune-key";
     NEYNAR_API_KEY := Some "neynar-key";
     FARCASTER_SIGNER_UUID := Some "signer-uuid";
     TARGET_FID := Some "3" |}.

Definition ok (d : jsval) : http_result := Resolved {| status := 200; data := d |}.

Definition http_error (code : Z) (body : jsval) : js_error :=
  {| message := [Lit "Request failed with status code "; Sub (JNum code)];
     response := Some {| status := code; data := body |} |}.

Definition network_error : js_error :=
  {| message := [Lit "Network Error"]; response := None |}.

Definition started : http_result :=
  ok (JObj [("execution_id", JStr "01HXYZ"); ("state", JStr "QUERY_STATE_PENDING")]).

Definition state_reply (state : string) : http_result :=
  ok (JObj [("execution_id", JStr "01HXYZ"); ("state", JStr state)]).

Definition failed_reply : http_result :=
  ok (JObj [("state", JStr "QUERY_STATE_FAILED"); ("error", JStr "syntax error")]).

Definition row (fid : Z) : jsval := JObj [("profile_id", JNum fid)].

Definition rows_reply (rows : list jsval) : http_result :=
  ok (JObj [("result", JObj [("rows", JArr rows)])]).

Definition unfollowed : http_result := ok (JObj [("success", JBool true)]).

(** A run in which everything succeeds and the operator types [yes]. *)
Definition world0 : world :=
  {| execute_reply := started;
     status_replies := [state_reply "QUERY_STATE_EXECUTING";
                        state_reply "QUERY_STATE_COMPLETED"];
     results_reply := rows_reply [row 11; row 12];
     tty := true;
     typed := "yes";
     unfollow_reply := fun _ => unfollowed;
     settle_order := [0; 0; 0] |}.

Definition with_execute (o : http_result) (w : world) : world :=
  {| execute_reply := o; status_replies := status_replies w;
     results_reply := results_reply w; tty := tty w; typed := typed w;
     unfollow_reply := unfollow_reply w; settle_order := settle_order w |}.

Definition with_status (l : list http_result) (w : world) : world :=
  {| execute_reply := execute_reply w; status_replies := l;
     results_reply := results_reply w; tty := tty w; typed := typed w;
     unfollow_reply := unfollow_reply w; settle_order := settle_order w |}.

Definition with_results (o : http_result) (w : world) : world :=
  {| execute_reply := execute_reply w; status_replies := status_replies w;
     results_reply := o; tty := tty w; typed := typed w;
     unfollow_reply := unfollow_reply w; settle_order := settle_order w |}.

Definition with_answer (a : string) (w : world) : world :=
  {| execute_reply := execute_reply w; status_replies := status_replies w;
     results_reply := results_reply w; tty := tty w; typed := a;
     unfollow_reply := unfollow_reply w; settle_order := settle_order w |}.

Definition with_unfollow (f : nat -> http_result) (order : list nat) (w : world) : world :=
  {| execute_reply := execute_reply w; status_replies := status_replies w;
     results_reply := results_reply w; tty := tty w; typed := typed w;
     unfollow_reply := f; settle_order := order |}.

(** 250 identifiers, three batches; the request of the second batch fails
    with a network error, and the replies arrive in the order 3, 1, 2. *)
Definition fids250 : list jsval := map (fun n => JNum (Z.of_nat n)) (seq 1 250).

Definition world_partial : world :=
  with_unfollow (fun i => if i =? 1 then Rejected network_error else unfollowed)
                [2; 0; 0] world0.

(** 700 identifiers, seven batches, all replies arriving in order. *)
Definition fids700 : list jsval := map (fun n => JNum (Z.of_nat n)) (seq 1 700).

Definition world_seven : world :=
  with_unfollow (fun _ => unfollowed) [0; 0; 0; 0; 0; 0; 0] world0.

(** The operator types [yEs]. *)
Definition world_mixed_case : world := with_answer "yEs" world0.




(** A run without a terminal. *)
Definition world_no_tty : world :=
  {| execute_reply := execute_reply world0; status_replies := status_replies world0;
     results_reply := results_reply world0; tty := false; typed := "";
     unfollow_reply := unfollow_reply world0; settle_order := settle_order world0 |}.


(** ** Further vocabulary *)

(** The state a status reply reports. *)
Definition state_of (o : http_result) : jsval :=
  match o with
  | Resolved r => field "state" (data r)
  | Rejected _ => JUndefined
  end.

(** A status reply after which the loop polls again: it has a body, its
    state is neither [QUERY_STATE_FAILED] nor [QUERY_STATE_COMPLETED], and
    the state can be printed in the log line of the turn. *)
Definition running (o : http_result) : bool :=
  match o with
  | Resolved r =>
    negb (nullish (data r))
    && negb (strict_eq_str (field "state" (data r)) "QUERY_STATE_FAILED")
    && negb (unprintable (field "state" (data r)))
    && negb (strict_eq_str (field "state" (data r)) "QUERY_STATE_COMPLETED")
  | Rejected _ => false
  end.

(** The body of a status reply. *)
Definition body_of (o : http_result) : jsval :=
  match o with
  | Resolved r => data r
  | Rejected _ => JUndefined
  end.

Definition completed (o : http_result) : bool :=
  strict_eq_str (state_of o) "QUERY_STATE_COMPLETED".

Definition failed (o : http_result) : bool :=
  strict_eq_str (state_of o) "QUERY_STATE_FAILED".

(** What one turn of the polling loop leaves in the trace when the reply [o]
    does not make it throw. *)
Definition poll_lines (cfg : config) (executionId : jsval) (o : http_result) : trace :=
  [Sleep 3000;
   Http (DuneStatus executionId (DUNE_API_KEY cfg)) o;
   Log Info [Lit "Query state: "; Sub (state_of o); Lit "..."]].

(** The beginning of a run of the Query Runner whose submission was answered
    by [resp]. *)
Definition submitted (cfg : config) (resp : http_response) : trace :=
  [Log Info [Lit "Executing Dune query (ID: "; Sub (JNum DUNE_QUERY_ID);
             Lit ") for target FID: "; Sub (env (TARGET_FID cfg)); Lit "..."];
   Http (DuneExecute DUNE_QUERY_ID (Number (TARGET_FID cfg)) (DUNE_API_KEY cfg))
        (Resolved resp);
   Log Info [Lit "Dune execution started with ID: ";
             Sub (field "execution_id" (data resp));
             Lit ". Waiting for results..."]].

Definition fetch_failed : event :=
  Log Error [Lit "Error fetching data from Dune API."].

(** [body.result.rows.map(row => row.profile_id)] *)
Definition extract (body : jsval) : M (list jsval) :=
  result <- get body "result" ;;
  rows <- get result "rows" ;;
  project_rows rows.

(** The body of a results reply has an array [result.rows] without [null]
    rows. *)
Definition rows_ok (body : jsval) : bool :=
  match field "rows" (field "result" body) with
  | JArr rows => forallb (fun row => negb (nullish row)) rows
  | _ => false
  end.

Definition rows_of (body : jsval) : list jsval :=
  match field "rows" (field "result" body) with
  | JArr rows => rows
  | _ => []
  end.


(** An event that is neither part of an unfollow request nor the question to
    the operator. *)
Definition query_event (ev : event) : Prop :=
  match ev with
  | DeleteSent _ _ | DeleteSettled _ _ | Question _ _ | ConsoleLog _ => False
  | _ => True
  end.

(** Every status request comes right after a sleep of three seconds. *)
Definition paced (tr : trace) : Prop :=
  forall pre ev post,
    tr = pre ++ ev :: post -> is_status_request ev = true ->
    exists pre', pre = pre' ++ [Sleep 3000].

Definition is_execute_request (ev : event) : bool :=
  match ev with
  | Http (DuneExecute _ _ _) _ => true
  | _ => false
  end.

(** The requests the Query Runner may make in the world [w]: the submission
    of the query for the configured target, and status and results requests
    for the execution id that the submission returned, all with the Dune
    key. *)
Definition dune_request (cfg : config) (w : world) (r : request) : Prop :=
  r = DuneExecute DUNE_QUERY_ID (Number (TARGET_FID cfg)) (DUNE_API_KEY cfg) \/
  exists resp,
    execute_reply w = Resolved resp /\
    truthy (field "execution_id" (data resp)) = true /\
    (r = DuneStatus (field "execution_id" (data resp)) (DUNE_API_KEY cfg) \/
     r = DuneResults (field "execution_id" (data resp)) (DUNE_API_KEY cfg)).

Definition is_log (ev : event) : bool :=
  match ev with
  | Log _ _ => true
  | _ => false
  end.

(** An event of the polling loop for [executionId]. *)
Definition poll_event (cfg : config) (executionId : jsval) (ev : event) : Prop :=
  is_log ev = true \/ ev = Sleep 3000 \/
  exists o, ev = Http (DuneStatus executionId (DUNE_API_KEY cfg)) o.

(** The identifiers submitted for unfollowing, in the order of the trace. *)
Definition target_fids_of (r : request) : list jsval :=
  match r with
  | NeynarUnfollow _ _ target_fids => target_fids
  | _ => []
  end.

Definition sent_fids (tr : trace) : list jsval :=
  flat_map (fun ir => target_fids_of (snd ir)) (sent tr).

(** The last statement of the script:
    [main().catch(error => { log.error('An unexpected error occurred:');
    log.error(error); })].  [describe] is the text the engine gives an error
    object inside a template literal. *)
Definition script (describe : js_error -> msg) (cfg : config) (w : world) : M unit :=
  try_catch (main cfg w)
    (fun error =>
       log.error [Lit "An unexpected error occurred:"] ;;
       log.error (describe error)).

Definition is_question (ev : event) : bool :=
  match ev with
  | Question _ _ => true
  | _ => false
  end.

(** A configuration that lacks the signer. *)
Definition cfg_no_signer : config :=
  {| DUNE_API_KEY := Some "dune-key";
     NEYNAR_API_KEY := Some "neynar-key";
     FARCASTER_SIGNER_UUID := None;
     TARGET_FID := Some "3" |}.

(** An event of the Batch Actuator: a log line, a request sent, a reply
    handled. *)
Definition actuator_event (ev : event) : Prop :=
  match ev with
  | Log _ _ | DeleteSent _ _ | DeleteSettled _ _ => True
  | _ => False
  end.

(** * Properties *)

(** ** Batching *)

Example make_batches_250 :
  map (@length nat) (make_batches (seq 1 250)) = [100; 100; 50].
Proof. reflexivity. Qed.

Lemma batch_loop_lt {A} (fids : list A) i acc :
  i < length fids ->
  batch_loop fids i acc =
  batch_loop fids (i + batchSize) (acc ++ [slice fids i (i + batchSize)]).
Proof.
  intros H. rewrite batch_loop_equation_1. simpl.
  destruct (lt_dec i (length fids)); simpl; [reflexivity | lia].
Qed.

Lemma batch_loop_ge {A} (fids : list A) i acc :
  length fids <= i -> batch_loop fids i acc = acc.
Proof.
  intros H. rewrite batch_loop_equation_1. simpl.
  destruct (lt_dec i (length fids)); simpl; [lia | reflexivity].
Qed.

Lemma ceil_div_least n d :
  0 < d -> n <= ceil_div n d * d /\ forall q, n <= q * d -> ceil_div n d <= q.
Proof.
  intros Hd. unfold ceil_div.
  pose proof (Nat.div_mod_eq (n + d - 1) d) as E.
  pose proof (Nat.mod_upper_bound (n + d - 1) d ltac:(lia)) as U.
  split; [nia|].
  intros q Hq.
  enough ((n + d - 1) / d < S q) by lia.
  apply Nat.Div0.div_lt_upper_bound. nia.
Qed.

Lemma ceil_div_step n :
  0 < n -> ceil_div n batchSize = S (ceil_div (n - batchSize) batchSize).
Proof.
  intros Hn. unfold ceil_div, batchSize.
  destruct (le_lt_dec 100 n) as [H | H].
  - replace (n + 100 - 1) with (n - 100 + 100 - 1 + 1 * 100) by lia.
    rewrite Nat.div_add by lia. lia.
  - replace (n - 100) with 0 by lia.
    rewrite (Nat.div_small (0 + 100 - 1)) by lia.
    symmetry. apply Nat.div_unique with (r := n - 1). all: lia.
Qed.

Lemma batch_loop_closed {A} (fids : list A) n :
  forall i acc, length fids - i = n ->
  batch_loop fids i acc =
  acc ++ map (chunk fids i) (seq 0 (ceil_div n batchSize)).
Proof.
  induction n as [n IH] using lt_wf_ind. intros i acc Hn.
  destruct (lt_dec i (length fids)) as [Hlt | Hge].
  - rewrite batch_loop_lt by assumption.
    rewrite (IH (n - batchSize)); [| unfold batchSize; lia | unfold batchSize; lia].
    rewrite (ceil_div_step n) by lia.
    rewrite <- app_assoc. f_equal. simpl. f_equal.
    + unfold chunk. f_equal; lia.
    + rewrite <- seq_shift, map_map. apply map_ext. intros k.
      unfold chunk, batchSize. f_equal; lia.
  - rewrite batch_loop_ge by lia.
    replace n with 0 by lia. simpl. now rewrite app_nil_r.
Qed.

Lemma make_batches_closed {A} (fids : list A) :
  make_batches fids =
  map (chunk fids 0) (seq 0 (ceil_div (length fids) batchSize)).
Proof.
  unfold make_batches. rewrite batch_loop_closed with (n := length fids) by lia.
  reflexivity.
Qed.

Lemma slice_length {A} (l : list A) i j :
  length (slice l i j) = Nat.min (j - i) (length l - i).
Proof. unfold slice. now rewrite length_firstn, length_skipn. Qed.

Lemma concat_chunks {A} (fids : list A) m :
  forall i, concat (map (chunk fids i) (seq 0 m)) = slice fids i (i + m * batchSize).
Proof.
  induction m as [| m IH]; intros i.
  - simpl. unfold slice. now replace (i + 0 - i) with 0 by lia.
  - cbn [seq map concat]. rewrite <- seq_shift, map_map.
    rewrite (map_ext _ (chunk fids (i + batchSize))).
    2:{ intros k. unfold chunk, batchSize. f_equal; lia. }
    rewrite IH. unfold chunk, slice.
    replace (i + 0 * batchSize + batchSize - (i + 0 * batchSize)) with batchSize by lia.
    replace (i + batchSize + m * batchSize - (i + batchSize)) with (m * batchSize) by lia.
    replace (i + S m * batchSize - i) with (batchSize + m * batchSize) by (simpl; lia).
    replace (i + 0 * batchSize) with i by lia.
    replace (i + batchSize) with (batchSize + i) by lia.
    rewrite <- skipn_skipn.
    set (r := skipn i fids).
    rewrite <- (firstn_skipn batchSize r) at 3.
    rewrite firstn_app, firstn_firstn, length_firstn.
    destruct (le_lt_dec batchSize (length r)) as [H | H].
    + rewrite (Nat.min_r (batchSize + m * batchSize)) by lia.
      rewrite (Nat.min_l batchSize) by lia.
      now replace (batchSize + m * batchSize - batchSize) with (m * batchSize) by lia.
    + rewrite (Nat.min_r (batchSize + m * batchSize)) by lia.
      rewrite (skipn_all2 r) by lia.
      now rewrite !firstn_nil.
Qed.

(** C1. For every non-empty identifier list of length [n], the batches the
    actuator builds are exactly [ceil(n/100)] chunks, each of at most 100
    elements and every one but the last of exactly 100, and their
    concatenation is the input list (order and duplicates included). *)
Theorem make_batches_partition {A} (fids : list A) :
  fids <> [] ->
  let batches := make_batches fids in
  length batches = ceil_div (length fids) batchSize /\
  Forall (fun b => length b <= batchSize) batches /\
  (forall k, S k < length batches -> length (nth k batches []) = batchSize) /\
  concat batches = fids.
Proof.
  intros _ batches. subst batches. rewrite make_batches_closed.
  set (m := ceil_div (length fids) batchSize).
  destruct (ceil_div_least (length fids) batchSize) as [Hup Hleast];
    [unfold batchSize; lia |]. fold m in Hup, Hleast.
  repeat split.
  - now rewrite length_map, length_seq.
  - apply Forall_forall. intros b Hb. apply in_map_iff in Hb as [k [<- _]].
    unfold chunk. rewrite slice_length. lia.
  - intros k Hk. rewrite length_map, length_seq in Hk.
    rewrite (nth_indep _ [] (chunk fids 0 0)) by (rewrite length_map, length_seq; lia).
    rewrite (map_nth (chunk fids 0)), seq_nth by lia.
    unfold chunk. rewrite slice_length.
    assert (~ length fids <= S k * batchSize) as Hn.
    { intros Hq. apply Hleast in Hq. lia. }
    unfold batchSize in *. lia.
  - rewrite concat_chunks. unfold slice. cbn [skipn].
    apply firstn_all2. lia.
Qed.

Lemma make_batches_partition_witness :
  let fids := seq 1 250 in
  fids <> [] /\
  length (make_batches fids) = 3 /\
  map (@length nat) (make_batches fids) = [100; 100; 50] /\
  concat (make_batches fids) = fids.
Proof.
  intros fids.
  assert (fids <> []) as Hne by discriminate.
  destruct (make_batches_partition fids Hne) as (Hlen & _ & _ & Hcat).
  split; [exact Hne | split; [exact Hlen | split; [reflexivity | exact Hcat]]].
Defined.

(** ** [Number]: what the conversion accepts is a StringNumericLiteral *)

Example StringToNumber_samples :
  map StringToNumber ["3"; " 42 "; "-.5e-2"; "0x1f"; "1e3"; "Infinity"; "  "]
  = [Finite false 3 0; Finite false 42 0; Finite true 5 (-3); Finite false 31 0;
     Finite false 1 3; Infinity false; Finite false 0 0] /\
  map StringToNumber ["abc"; "12px"; "1 2"; "0x"; "-0x10"; "1e"; "."; "infinity"; "1_000"]
  = [NaN; NaN; NaN; NaN; NaN; NaN; NaN; NaN; NaN].
Proof. split; reflexivity. Qed.


Lemma skip_ws_spec s : exists w, White w /\ s = (w ++ skip_ws s)%string.
Proof.
  remember (String.length s) as n eqn:Hn.
  revert s Hn. induction n as [n IH] using lt_wf_ind. intros s Hn.
  destruct s as [| c1 r1]; [exists ""; split; [constructor | reflexivity] |].
  cbn [skip_ws]. destruct (is_ws1 c1) eqn:E1.
  { destruct (IH (String.length r1)) with (s := r1) as (w & Hw & Hs);
      [subst; simpl; lia | reflexivity |].
    exists (String c1 w). split; [now constructor |]. simpl. now rewrite <- Hs. }
  destruct r1 as [| c2 r2]; [exists ""; split; [constructor | reflexivity] |].
  destruct (is_ws2 c1 c2) eqn:E2.
  { destruct (IH (String.length r2)) with (s := r2) as (w & Hw & Hs);
      [subst; simpl; lia | reflexivity |].
    exists (String c1 (String c2 w)). split; [now constructor |]. simpl. now rewrite <- Hs. }
  destruct r2 as [| c3 r3]; [exists ""; split; [constructor | reflexivity] |].
  destruct (is_ws3 c1 c2 c3) eqn:E3.
  { destruct (IH (String.length r3)) with (s := r3) as (w & Hw & Hs);
      [subst; simpl; lia | reflexivity |].
    exists (String c1 (String c2 (String c3 w))). split; [now constructor |].
    simpl. now rewrite <- Hs. }
  exists "". split; [constructor | reflexivity].
Qed.

Lemma append_nil_r s : (s ++ "")%string = s.
Proof. induction s as [| c s IH]; simpl; [| rewrite IH]; reflexivity. Qed.

















(** ** [Number]: every StringNumericLiteral is converted to a number *)

Lemma lower_e c : lower c = "e"%char -> c = "e"%char \/ c = "E"%char.
Proof.
  destruct c as [[] [] [] [] [] [] [] []]; vm_compute; intros H;
    try discriminate; auto.
Qed.





(** A string that does not begin with white space is left as it is. *)
Lemma skip_ws_stay c r : ws_start c = false -> skip_ws (String c r) = String c r.
Proof.
  unfold ws_start. intros H.
  apply orb_false_iff in H as [H H239]. apply orb_false_iff in H as [H H227].
  apply orb_false_iff in H as [H H226]. apply orb_false_iff in H as [H H225].
  apply orb_false_iff in H as [H H194].
  cbn [skip_ws]. rewrite H.
  destruct r as [| c2 r2]; [reflexivity |].
  assert (is_ws2 c c2 = false) as ->.
  { unfold is_ws2. now rewrite H194. }
  destruct r2 as [| c3 r3]; [reflexivity |].
  assert (is_ws3 c c2 c3 = false) as ->; [| reflexivity].
  unfold is_ws3. now rewrite H225, H226, H227, H239.
Qed.

Lemma is_ws2_start c1 c2 : is_ws2 c1 c2 = true -> is_ws1 c1 = false.
Proof.
  unfold is_ws2, is_ws1. intros H. apply andb_true_iff in H as [H _].
  apply N.eqb_eq in H. now rewrite H.
Qed.

Lemma is_ws3_start c1 c2 c3 :
  is_ws3 c1 c2 c3 = true -> is_ws1 c1 = false /\ forall c, is_ws2 c1 c = false.
Proof.
  unfold is_ws3, is_ws2, is_ws1. intros H.
  repeat (apply orb_true_iff in H as [H | H]);
    repeat (apply andb_true_iff in H as [H ?]);
    apply N.eqb_eq in H; rewrite H; split; reflexivity.
Qed.

(** Leading white space is skipped. *)
Lemma skip_ws_app w t : White w -> skip_ws (w ++ t)%string = skip_ws t.
Proof.
  induction 1 as [| c r H1 _ IH | c1 c2 r H2 _ IH | c1 c2 c3 r H3 _ IH].
  - reflexivity.
  - cbn [append skip_ws]. now rewrite H1.
  - cbn [append skip_ws]. now rewrite (is_ws2_start _ _ H2), H2.
  - cbn [append skip_ws]. destruct (is_ws3_start _ _ _ H3) as [-> ->]. now rewrite H3.
Qed.

Lemma skip_ws_white w : White w -> skip_ws w = "".
Proof.
  intros H. rewrite <- (append_nil_r w) at 1. now rewrite skip_ws_app.
Qed.


(** [rest] does not begin with a digit in [base]. *)
Lemma digits_stop base rest acc cnt :
  (forall c r, rest = String c r -> digit_of base c = None) ->
  digits base rest acc cnt = (acc, cnt, rest).
Proof.
  intros H. destruct rest as [| c r]; [reflexivity |].
  cbn [digits]. now rewrite (H c r eq_refl).
Qed.

Lemma digit_of_value base c dv : digit_of base c = Some dv -> dv = digit_value c.
Proof.
  unfold digit_of, digit_value. intros H.
  assert (forall d, (if (d <? base)%N then Some d else None) = Some dv -> dv = d) as Hd.
  { intros d E. destruct (d <? base)%N; [now inversion E | discriminate]. }
  destruct (N.leb_spec 48 (code c)) as [L1 | L1], (N.leb_spec (code c) 57) as [L2 | L2];
    cbn [andb] in H; try (now apply Hd in H);
    destruct (N.leb_spec 97 (code c)) as [L3 | L3], (N.leb_spec (code c) 102) as [L4 | L4];
    cbn [andb] in H;
    destruct (N.leb_spec 65 (code c)) as [L5 | L5], (N.leb_spec (code c) 70) as [L6 | L6];
    cbn [andb] in H; try discriminate; try lia; now apply Hd in H.
Qed.

(** The parser reads a run of digits to its end, and computes the number
    they denote. *)
Lemma digits_app base d rest :
  Digits base d ->
  (forall c r, rest = String c r -> digit_of base c = None) ->
  forall acc cnt,
    digits base (d ++ rest) acc cnt =
    ((acc * base ^ N.of_nat (String.length d) + denotes base d)%N,
     cnt + String.length d, rest).
Proof.
  intros Hd Hrest. induction Hd as [c Hc | c d Hc _ IH]; intros acc cnt;
    cbn [append digits String.length denotes];
    destruct (digit_of base c) as [dv |] eqn:E; try congruence;
    apply digit_of_value in E; subst dv.
  - rewrite (digits_stop _ _ _ _ Hrest).
    match goal with
    | |- (?a, ?b, ?c) = (?a', ?b', ?c) =>
      replace a' with a; [replace b' with b by lia; reflexivity |]
    end.
    change (N.of_nat 1) with 1%N. change (N.of_nat 0) with 0%N.
    rewrite N.pow_1_r, N.pow_0_r. ring.
  - rewrite IH.
    match goal with
    | |- (?a, ?b, ?c) = (?a', ?b', ?c) =>
      replace a' with a; [replace b' with b by lia; reflexivity |]
    end.
    rewrite Nat2N.inj_succ, N.pow_succ_r'. ring.
Qed.

Lemma digits_whole base d acc cnt :
  Digits base d ->
  digits base d acc cnt =
  ((acc * base ^ N.of_nat (String.length d) + denotes base d)%N, cnt + String.length d, "").
Proof.
  intros Hd. rewrite <- (append_nil_r d) at 1. apply digits_app; [exact Hd | discriminate].
Qed.

























(** ** The effect monad *)

Lemma bind_ret_l {A B} (a : A) (f : A -> M B) : bind (ret a) f = f a.
Proof. unfold bind, ret. destruct (f a). reflexivity. Qed.

Lemma bind_emit {B} (e : event) (f : unit -> M B) :
  bind (emit e) f = (fst (f tt), e :: snd (f tt)).
Proof. unfold bind, emit. destruct (f tt). reflexivity. Qed.

Lemma bind_throw {A B} (e : js_error) (f : A -> M B) : bind (throw e) f = throw e.
Proof. reflexivity. Qed.

Lemma bind_normal {A B} (a : A) (t : trace) (f : A -> M B) :
  bind (Normal a, t) f = (fst (f a), t ++ snd (f a)).
Proof. unfold bind. destruct (f a). reflexivity. Qed.

Lemma bind_assoc {A B C} (m : M A) (f : A -> M B) (g : B -> M C) :
  bind (bind m f) g = bind m (fun a => bind (f a) g).
Proof.
  destruct m as [[a | e |] t]; try reflexivity.
  unfold bind at 2 3. destruct (f a) as [[b | e |] t1]; try reflexivity.
  unfold bind. destruct (g b) as [r t2]. now rewrite app_assoc.
Qed.

Lemma no_throw_bind {A B} (m : M A) (f : A -> M B) :
  no_throw m -> (forall a, no_throw (f a)) -> no_throw (bind m f).
Proof.
  intros Hm Hf e. destruct m as [[a | e' |] t]; simpl.
  - specialize (Hf a e). destruct (f a). exact Hf.
  - intros _. now apply (Hm e').
  - discriminate.
Qed.

Lemma no_http_bind {A B} (m : M A) (f : A -> M B) :
  no_http m -> (forall a, no_http (f a)) -> no_http (bind m f).
Proof.
  intros Hm Hf r o. destruct m as [[a | e' |] t]; simpl; try exact (Hm r o).
  specialize (Hf a r o). destruct (f a) as [r' t']. simpl in *.
  rewrite in_app_iff. intros [H | H]; [exact (Hm r o H) | exact (Hf H)].
Qed.

Lemma no_http_rejects {A} (m : M A) : no_http m -> rejects_thrown m.
Proof. intros H r e Hin. destruct (H _ _ Hin). Qed.

Lemma rejects_thrown_bind {A B} (m : M A) (f : A -> M B) :
  rejects_thrown m -> (forall a, rejects_thrown (f a)) -> rejects_thrown (bind m f).
Proof.
  intros Hm Hf r e. specialize (Hm r e).
  destruct m as [[a | e' |] t]; simpl in *.
  - specialize (Hf a r e). destruct (f a) as [r' t']. simpl in *.
    rewrite in_app_iff. intros [H | H]; [specialize (Hm H); discriminate | exact (Hf H)].
  - intros H. specialize (Hm H). now inversion Hm.
  - intros H. specialize (Hm H). discriminate.
Qed.

Lemma no_http_emit e : (forall r o, e <> Http r o) -> no_http (emit e).
Proof. intros H r o [Hin | []]. exact (H _ _ Hin). Qed.

Lemma no_http_ret {A} (a : A) : no_http (ret a).
Proof. intros r o []. Qed.

Lemma no_http_throw {A} e : no_http (@throw A e).
Proof. intros r o []. Qed.

Lemma no_http_get v k : no_http (get v k).
Proof. destruct v; intros r o []. Qed.

Lemma no_http_report e : no_http (report e).
Proof. unfold report. destruct (response e); apply no_http_emit; discriminate. Qed.

Lemma no_throw_report e : no_throw (report e).
Proof. unfold report. destruct (response e); intros e'; discriminate. Qed.

Lemma no_http_map_m {A B} (f : A -> M B) (l : list A) :
  (forall a, no_http (f a)) -> no_http (map_m f l).
Proof.
  intros Hf. induction l as [| x xs IH]; simpl.
  - apply no_http_ret.
  - apply no_http_bind; [apply Hf |]. intros y.
    apply no_http_bind; [exact IH |]. intros ys. apply no_http_ret.
Qed.

Lemma rejects_thrown_await r o : rejects_thrown (await r o).
Proof.
  destruct o as [resp | e]; intros r' e' [H | []]; inversion H. reflexivity.
Qed.

(** ** Template literals *)

Lemma template_cases m :
  template m = if forallb converts m then (Normal m, []) else (Throw TypeError_primitive, []).
Proof. reflexivity. Qed.

Lemma template_sub a v b :
  template [Lit a; Sub v; Lit b] =
  if unprintable v then throw TypeError_primitive else ret [Lit a; Sub v; Lit b].
Proof. unfold template. cbn [forallb converts]. now destruct (unprintable v). Qed.

Lemma template_sub_end a v :
  template [Lit a; Sub v] =
  if unprintable v then throw TypeError_primitive else ret [Lit a; Sub v].
Proof. unfold template. cbn [forallb converts]. now destruct (unprintable v). Qed.

Lemma template_url a b v c :
  template [Lit a; Lit b; Sub v; Lit c] =
  if unprintable v then throw TypeError_primitive else ret [Lit a; Lit b; Sub v; Lit c].
Proof. unfold template. cbn [forallb converts]. now destruct (unprintable v). Qed.

Lemma template_join elems sep :
  template [Join elems sep] =
  if existsb unprintable elems then throw TypeError_primitive else ret [Join elems sep].
Proof. unfold template. cbn [forallb converts]. now destruct (existsb unprintable elems). Qed.

Lemma snd_template m : snd (template m) = [].
Proof. rewrite template_cases. now destruct (forallb converts m). Qed.

Lemma no_http_template m : no_http (template m).
Proof. intros r o. rewrite snd_template. intros []. Qed.

(** What can and what cannot be substituted. *)
Example template_samples :
  map (fun v => fst (template [Lit "ID: "; Sub v]))
      [JStr "01HXYZ"; JNum 7; JNull; JObj [("id", JNum 7)]; JArr [JNull; JNum 7];
       JObj [("toString", JNum 1)]; JArr [JNum 7; JObj [("toString", JNull)]]]
  = [Normal [Lit "ID: "; Sub (JStr "01HXYZ")]; Normal [Lit "ID: "; Sub (JNum 7)];
     Normal [Lit "ID: "; Sub JNull]; Normal [Lit "ID: "; Sub (JObj [("id", JNum 7)])];
     Normal [Lit "ID: "; Sub (JArr [JNull; JNum 7])];
     Throw TypeError_primitive; Throw TypeError_primitive].
Proof. reflexivity. Qed.

(** ** The Query Runner *)

Lemma report_eq e : report e = emit (report_line e).
Proof. unfold report, report_line. now destruct (response e). Qed.

Lemma poll_nil cfg executionId :
  poll cfg executionId [] =
  if unprintable executionId
  then (Throw TypeError_primitive, [Sleep 3000])
  else (Pending, [Sleep 3000]).
Proof. cbn [poll]. rewrite template_url. now destruct (unprintable executionId). Qed.

Lemma poll_cons cfg executionId reply later :
  poll cfg executionId (reply :: later) =
  (sleep 3000 ;;
   template [Lit DUNE_API_URL; Lit "/execution/"; Sub executionId; Lit "/status"] ;;
   statusResponse <- await (DuneStatus executionId (DUNE_API_KEY cfg)) reply ;;
   let st := data statusResponse in
   state <- get st "state" ;;
   (if strict_eq_str state "QUERY_STATE_FAILED"
    then err <- get st "error" ;;
         m <- template [Lit "Dune query failed: "; Sub err] ;;
         throw (Error_ m)
    else ret tt) ;;
   state <- get st "state" ;;
   m <- template [Lit "Query state: "; Sub state; Lit "..."] ;;
   log.info m ;;
   state <- get st "state" ;;
   if negb (strict_eq_str state "QUERY_STATE_COMPLETED")
   then poll cfg executionId later
   else ret tt).
Proof. reflexivity. Qed.

Lemma rejects_thrown_poll cfg executionId replies :
  rejects_thrown (poll cfg executionId replies).
Proof.
  induction replies as [| reply later IH].
  - rewrite poll_nil. destruct (unprintable executionId); intros r e [H | []]; discriminate.
  - rewrite poll_cons. apply rejects_thrown_bind.
    { apply no_http_rejects, no_http_emit. discriminate. }
    intros _. apply rejects_thrown_bind; [apply no_http_rejects, no_http_template |].
    intros _. apply rejects_thrown_bind; [apply rejects_thrown_await |].
    intros statusResponse.
    apply rejects_thrown_bind; [apply no_http_rejects, no_http_get |]. intros state.
    apply rejects_thrown_bind.
    { apply no_http_rejects. destruct (strict_eq_str state "QUERY_STATE_FAILED").
      - apply no_http_bind; [apply no_http_get |]. intros err.
        apply no_http_bind; [apply no_http_template | intros; apply no_http_throw].
      - apply no_http_ret. }
    intros _.
    apply rejects_thrown_bind; [apply no_http_rejects, no_http_get |]. intros state'.
    apply rejects_thrown_bind; [apply no_http_rejects, no_http_template |]. intros m.
    apply rejects_thrown_bind.
    { apply no_http_rejects, no_http_emit. discriminate. }
    intros _.
    apply rejects_thrown_bind; [apply no_http_rejects, no_http_get |]. intros state''.
    destruct (negb (strict_eq_str state'' "QUERY_STATE_COMPLETED")).
    + exact IH.
    + apply no_http_rejects, no_http_ret.
Qed.

Lemma no_http_project_rows rows : no_http (project_rows rows).
Proof.
  destruct rows; simpl; try apply no_http_throw.
  apply no_http_map_m. intros row. apply no_http_get.
Qed.

(** The handler of the [catch] clause of [fetchFidsToUnfollow]. *)
Lemma fetch_handler error :
  (log.error [Lit "Error fetching data from Dune API."] ;;
   report error ;; @ret (list jsval) [])
  = (Normal [], [Log Error [Lit "Error fetching data from Dune API."]; report_line error]).
Proof. rewrite report_eq. reflexivity. Qed.

(** C3. Whenever one of the HTTP calls of the Query Runner (submission, a
    status poll, the fetch of the results) is rejected, the error is caught
    inside the function: it returns the empty list normally, and the last
    two things it did were to log that the fetch failed and to log the
    status code and body of the error's response, or the error's message
    when there is no response. *)
Theorem fetch_http_failure_downgraded cfg w r e :
  In (Http r (Rejected e)) (snd (fetchFidsToUnfollow cfg w)) ->
  exists pre,
    fetchFidsToUnfollow cfg w =
    (Normal [],
     pre ++ [Log Error [Lit "Error fetching data from Dune API."]; report_line e]).
Proof.
  unfold fetchFidsToUnfollow. unfold log.info at 1. rewrite bind_emit.
  match goal with |- context [try_catch ?b ?h] => set (body := b); set (handler := h) end.
  assert (rejects_thrown body) as Hbody.
  { subst body.
    apply rejects_thrown_bind; [apply rejects_thrown_await |]. intros executeResponse.
    apply rejects_thrown_bind; [apply no_http_rejects, no_http_get |]. intros executionId.
    apply rejects_thrown_bind.
    { apply no_http_rejects. destruct (negb (truthy executionId));
        [apply no_http_throw | apply no_http_ret]. }
    intros _. apply rejects_thrown_bind; [apply no_http_rejects, no_http_template |].
    intros m. apply rejects_thrown_bind.
    { apply no_http_rejects, no_http_emit. discriminate. }
    intros _. apply rejects_thrown_bind; [apply rejects_thrown_poll |].
    intros _. apply rejects_thrown_bind; [apply no_http_rejects, no_http_template |].
    intros _. apply rejects_thrown_bind; [apply rejects_thrown_await |].
    intros resultsResponse.
    apply rejects_thrown_bind; [apply no_http_rejects, no_http_get |]. intros result.
    apply rejects_thrown_bind; [apply no_http_rejects, no_http_get |]. intros rows.
    apply rejects_thrown_bind; [apply no_http_rejects, no_http_project_rows |].
    intros fids. apply no_http_rejects, no_http_bind.
    - apply no_http_emit. discriminate.
    - intros _. apply no_http_ret. }
  specialize (Hbody r e).
  assert (forall error, handler error =
            (Normal [], [Log Error [Lit "Error fetching data from Dune API."];
                         report_line error])) as Hh.
  { intros error. subst handler. apply fetch_handler. }
  destruct body as [[fids | e' |] t]; simpl in *.
  - intros [H | H]; [discriminate |]. specialize (Hbody H). discriminate.
  - rewrite Hh. simpl. intros [H | H]; [discriminate |].
    apply in_app_iff in H as [H | H].
    + specialize (Hbody H). inversion Hbody; subst.
      exists (Log Info [Lit "Executing Dune query (ID: "; Sub (JNum DUNE_QUERY_ID);
                        Lit ") for target FID: "; Sub (env (TARGET_FID cfg)); Lit "..."] :: t).
      reflexivity.
    + destruct H as [H | [H | []]]; [discriminate |].
      unfold report_line in H. destruct (response e'); discriminate.
  - intros [H | H]; [discriminate |]. specialize (Hbody H). discriminate.
Qed.

Lemma get_object v k :
  nullish v = false -> get v k = ret (field k v).
Proof. destruct v; simpl; intros H; try reflexivity; discriminate. Qed.

Lemma truthy_field_object k v :
  truthy (field k v) = true -> nullish v = false.
Proof. destruct v; simpl; intros H; try reflexivity; discriminate. Qed.

Lemma strict_eq_field_object k v lit :
  strict_eq_str (field k v) lit = true -> nullish v = false.
Proof. destruct v; simpl; intros H; try reflexivity; discriminate. Qed.

(** C5. When the reply to the submission carries no execution id, the Query
    Runner raises an error (['Failed to get execution ID from Dune.'] when
    the reply has a body, the engine's TypeError when the body itself is
    missing), catches it, logs it, and returns the empty list; no status or
    result request is made. *)
Theorem submission_without_handle cfg w resp :
  execute_reply w = Resolved resp ->
  truthy (field "execution_id" (data resp)) = false ->
  fetchFidsToUnfollow cfg w =
  (Normal [],
   [Log Info [Lit "Executing Dune query (ID: "; Sub (JNum DUNE_QUERY_ID);
              Lit ") for target FID: "; Sub (env (TARGET_FID cfg)); Lit "..."];
    Http (DuneExecute DUNE_QUERY_ID (Number (TARGET_FID cfg)) (DUNE_API_KEY cfg))
         (Resolved resp);
    Log Error [Lit "Error fetching data from Dune API."];
    Log Error (if nullish (data resp)
               then [Lit "Cannot read properties of "; Sub (data resp);
                     Lit " (reading '"; Lit "execution_id"; Lit "')"]
               else [Lit "Failed to get execution ID from Dune."])]).
Proof.
  intros Hreply Hid. unfold fetchFidsToUnfollow. rewrite Hreply.
  cbn [await]. rewrite bind_normal. cbn beta.
  destruct (nullish (data resp)) eqn:Hnull.
  - destruct (data resp); try discriminate; reflexivity.
  - rewrite (get_object _ _ Hnull), bind_ret_l.
    rewrite Hid. reflexivity.
Qed.

(** C4. When the first status poll reports [QUERY_STATE_FAILED], the loop
    stops there: the Query Runner returns the empty list, its run holds no
    results request and no second status request.  The run consists of the
    submission, one sleep, that single status request, and the two error
    lines of the [catch] clause, the second of which carries the error of
    the reply (or is the engine's TypeError when that error is a value that
    cannot be printed).  Only an execution id that cannot be printed keeps
    the loop from being entered at all; the result is the empty list then
    too. *)
Theorem failed_on_first_poll cfg w resp sresp later :
  execute_reply w = Resolved resp ->
  truthy (field "execution_id" (data resp)) = true ->
  status_replies w = Resolved sresp :: later ->
  strict_eq_str (field "state" (data sresp)) "QUERY_STATE_FAILED" = true ->
  let executionId := field "execution_id" (data resp) in
  let err := field "error" (data sresp) in
  let tr :=
    [Log Info [Lit "Executing Dune query (ID: "; Sub (JNum DUNE_QUERY_ID);
               Lit ") for target FID: "; Sub (env (TARGET_FID cfg)); Lit "..."];
     Http (DuneExecute DUNE_QUERY_ID (Number (TARGET_FID cfg)) (DUNE_API_KEY cfg))
          (Resolved resp);
     Log Info [Lit "Dune execution started with ID: "; Sub executionId;
               Lit ". Waiting for results..."];
     Sleep 3000;
     Http (DuneStatus executionId (DUNE_API_KEY cfg)) (Resolved sresp);
     Log Error [Lit "Error fetching data from Dune API."];
     Log Error (if unprintable err
                then [Lit "Cannot convert object to primitive value"]
                else [Lit "Dune query failed: "; Sub err])] in
  fst (fetchFidsToUnfollow cfg w) = Normal [] /\
  length (filter is_status_request (snd (fetchFidsToUnfollow cfg w))) <= 1 /\
  filter is_results_request (snd (fetchFidsToUnfollow cfg w)) = [] /\
  (unprintable executionId = false ->
   snd (fetchFidsToUnfollow cfg w) = tr /\
   length (filter is_status_request tr) = 1).
Proof.
  intros Hreply Hid Hpolls Hfailed executionId err tr.
  pose proof (truthy_field_object _ _ Hid) as Hobj.
  pose proof (strict_eq_field_object _ _ _ Hfailed) as Hsobj.
  assert (fetchFidsToUnfollow cfg w =
          if unprintable executionId
          then (Normal [],
                [Log Info [Lit "Executing Dune query (ID: "; Sub (JNum DUNE_QUERY_ID);
                           Lit ") for target FID: "; Sub (env (TARGET_FID cfg)); Lit "..."];
                 Http (DuneExecute DUNE_QUERY_ID (Number (TARGET_FID cfg)) (DUNE_API_KEY cfg))
                      (Resolved resp);
                 Log Error [Lit "Error fetching data from Dune API."];
                 Log Error [Lit "Cannot convert object to primitive value"]])
          else (Normal [], tr)) as Hrun.
  { subst tr err executionId.
    unfold fetchFidsToUnfollow. rewrite Hreply, Hpolls.
    cbn [await]. rewrite bind_normal. cbn beta.
    rewrite (get_object _ _ Hobj), bind_ret_l.
    rewrite Hid. cbn [negb].
    rewrite bind_ret_l, template_sub.
    destruct (unprintable (field "execution_id" (data resp))) eqn:Hp; [reflexivity |].
    rewrite bind_ret_l. unfold log.info at 2. rewrite bind_emit.
    rewrite poll_cons. unfold sleep. rewrite bind_emit.
    rewrite template_url, Hp, bind_ret_l.
    cbn [await]. rewrite bind_normal. cbn beta zeta.
    rewrite !(get_object _ _ Hsobj), !bind_ret_l. rewrite Hfailed.
    rewrite template_sub_end.
    destruct (unprintable (field "error" (data sresp))); reflexivity. }
  rewrite Hrun. destruct (unprintable executionId).
  - split; [reflexivity |]. split; [cbn; lia |]. split; [reflexivity | discriminate].
  - split; [reflexivity |]. split; [apply Nat.eq_le_incl; reflexivity |].
    split; [reflexivity |]. intros _. split; reflexivity.
Qed.

Lemma fetch_http_failure_downgraded_witness :
  exists pre,
    fetchFidsToUnfollow cfg0 (with_execute (Rejected (http_error 401 (JStr "invalid API Key"))) world0) =
    (Normal [],
     pre ++ [Log Error [Lit "Error fetching data from Dune API."];
             Log Error [Lit "Status: "; Sub (JNum 401); Lit " - ";
                        Json (JStr "invalid API Key")]]).
Proof.
  apply (fetch_http_failure_downgraded cfg0
           (with_execute (Rejected (http_error 401 (JStr "invalid API Key"))) world0)
           (DuneExecute DUNE_QUERY_ID (Finite false 3 0) (Some "dune-key"))
           (http_error 401 (JStr "invalid API Key"))).
  simpl. right. left. reflexivity.
Defined.

(** A status poll that is rejected without a response (a network error),
    after one poll that reported the query as still running. *)
Example fetch_poll_rejected :
  fetchFidsToUnfollow cfg0
    (with_status [state_reply "QUERY_STATE_EXECUTING"; Rejected network_error] world0)
  = (Normal [],
     [Log Info [Lit "Executing Dune query (ID: "; Sub (JNum 3533118);
                Lit ") for target FID: "; Sub (JStr "3"); Lit "..."];
      Http (DuneExecute 3533118 (Finite false 3 0) (Some "dune-key")) started;
      Log Info [Lit "Dune execution started with ID: "; Sub (JStr "01HXYZ");
                Lit ". Waiting for results..."];
      Sleep 3000;
      Http (DuneStatus (JStr "01HXYZ") (Some "dune-key")) (state_reply "QUERY_STATE_EXECUTING");
      Log Info [Lit "Query state: "; Sub (JStr "QUERY_STATE_EXECUTING"); Lit "..."];
      Sleep 3000;
      Http (DuneStatus (JStr "01HXYZ") (Some "dune-key")) (Rejected network_error);
      Log Error [Lit "Error fetching data from Dune API."];
      Log Error [Lit "Network Error"]]).
Proof. reflexivity. Qed.

(** The fetch of the results is rejected with a 500. *)
Example fetch_results_rejected :
  fetchFidsToUnfollow cfg0 (with_results (Rejected (http_error 500 JNull)) world0)
  = (Normal [],
     [Log Info [Lit "Executing Dune query (ID: "; Sub (JNum 3533118);
                Lit ") for target FID: "; Sub (JStr "3"); Lit "..."];
      Http (DuneExecute 3533118 (Finite false 3 0) (Some "dune-key")) started;
      Log Info [Lit "Dune execution started with ID: "; Sub (JStr "01HXYZ");
                Lit ". Waiting for results..."];
      Sleep 3000;
      Http (DuneStatus (JStr "01HXYZ") (Some "dune-key")) (state_reply "QUERY_STATE_EXECUTING");
      Log Info [Lit "Query state: "; Sub (JStr "QUERY_STATE_EXECUTING"); Lit "..."];
      Sleep 3000;
      Http (DuneStatus (JStr "01HXYZ") (Some "dune-key")) (state_reply "QUERY_STATE_COMPLETED");
      Log Info [Lit "Query state: "; Sub (JStr "QUERY_STATE_COMPLETED"); Lit "..."];
      Http (DuneResults (JStr "01HXYZ") (Some "dune-key")) (Rejected (http_error 500 JNull));
      Log Error [Lit "Error fetching data from Dune API."];
      Log Error [Lit "Status: "; Sub (JNum 500); Lit " - "; Json JNull]]).
Proof. reflexivity. Qed.

(** The successful run of [world0]. *)
Example fetch_world0 :
  fst (fetchFidsToUnfollow cfg0 world0) = Normal [JNum 11; JNum 12].
Proof. reflexivity. Qed.

(** The submission returns an execution id that cannot be printed: the log
    line of line 75 throws, and no status request is made. *)
Example fetch_unprintable_id :
  fetchFidsToUnfollow cfg0
    (with_execute (ok (JObj [("execution_id", JObj [("toString", JNum 1)])])) world0)
  = (Normal [],
     [Log Info [Lit "Executing Dune query (ID: "; Sub (JNum 3533118);
                Lit ") for target FID: "; Sub (JStr "3"); Lit "..."];
      Http (DuneExecute 3533118 (Finite false 3 0) (Some "dune-key"))
           (ok (JObj [("execution_id", JObj [("toString", JNum 1)])]));
      Log Error [Lit "Error fetching data from Dune API."];
      Log Error [Lit "Cannot convert object to primitive value"]]).
Proof. reflexivity. Qed.

(** A status reply whose state cannot be printed: the log line of line 91
    throws, the reply that says the query is completed is never asked for,
    and the result is the empty list. *)
Example fetch_unprintable_state :
  fetchFidsToUnfollow cfg0
    (with_status [ok (JObj [("state", JObj [("toString", JNum 1)])]);
                  state_reply "QUERY_STATE_COMPLETED"] world0)
  = (Normal [],
     [Log Info [Lit "Executing Dune query (ID: "; Sub (JNum 3533118);
                Lit ") for target FID: "; Sub (JStr "3"); Lit "..."];
      Http (DuneExecute 3533118 (Finite false 3 0) (Some "dune-key")) started;
      Log Info [Lit "Dune execution started with ID: "; Sub (JStr "01HXYZ");
                Lit ". Waiting for results..."];
      Sleep 3000;
      Http (DuneStatus (JStr "01HXYZ") (Some "dune-key"))
           (ok (JObj [("state", JObj [("toString", JNum 1)])]));
      Log Error [Lit "Error fetching data from Dune API."];
      Log Error [Lit "Cannot convert object to primitive value"]]).
Proof. reflexivity. Qed.

Lemma submission_without_handle_witness :
  fetchFidsToUnfollow cfg0 (with_execute (ok (JObj [("error", JStr "Query not found")])) world0) =
  (Normal [],
   [Log Info [Lit "Executing Dune query (ID: "; Sub (JNum 3533118);
              Lit ") for target FID: "; Sub (JStr "3"); Lit "..."];
    Http (DuneExecute 3533118 (Finite false 3 0) (Some "dune-key"))
         (ok (JObj [("error", JStr "Query not found")]));
    Log Error [Lit "Error fetching data from Dune API."];
    Log Error [Lit "Failed to get execution ID from Dune."]]).
Proof.
  exact (submission_without_handle cfg0
           (with_execute (ok (JObj [("error", JStr "Query not found")])) world0)
           {| status := 200; data := JObj [("error", JStr "Query not found")] |}
           eq_refl eq_refl).
Defined.

Lemma failed_on_first_poll_witness :
  fetchFidsToUnfollow cfg0 (with_status [failed_reply; state_reply "QUERY_STATE_COMPLETED"] world0) =
  (Normal [],
   [Log Info [Lit "Executing Dune query (ID: "; Sub (JNum 3533118);
              Lit ") for target FID: "; Sub (JStr "3"); Lit "..."];
    Http (DuneExecute 3533118 (Finite false 3 0) (Some "dune-key")) started;
    Log Info [Lit "Dune execution started with ID: "; Sub (JStr "01HXYZ");
              Lit ". Waiting for results..."];
    Sleep 3000;
    Http (DuneStatus (JStr "01HXYZ") (Some "dune-key")) failed_reply;
    Log Error [Lit "Error fetching data from Dune API."];
    Log Error [Lit "Dune query failed: "; Sub (JStr "syntax error")]]).
Proof.
  destruct (failed_on_first_poll cfg0
              (with_status [failed_reply; state_reply "QUERY_STATE_COMPLETED"] world0)
              {| status := 200;
                 data := JObj [("execution_id", JStr "01HXYZ");
                               ("state", JStr "QUERY_STATE_PENDING")] |}
              {| status := 200;
                 data := JObj [("state", JStr "QUERY_STATE_FAILED");
                               ("error", JStr "syntax error")] |}
              [state_reply "QUERY_STATE_COMPLETED"]
              eq_refl eq_refl eq_refl eq_refl) as (Hfst & _ & _ & Htr).
  destruct (Htr eq_refl) as [Hsnd _].
  rewrite (surjective_pairing (fetchFidsToUnfollow cfg0 _)), Hfst, Hsnd.
  reflexivity.
Defined.

(** ** The Batch Actuator *)

(** C6. Called with the empty list, the actuator logs a warning and returns:
    its trace holds no request at all. *)
Theorem unfollowFids_empty cfg w :
  unfollowFids cfg w [] = (Normal tt, [Log Warn [Lit "No FIDs to unfollow. Exiting."]]) /\
  sent (snd (unfollowFids cfg w [])) = [] /\
  no_http (unfollowFids cfg w []).
Proof.
  split; [reflexivity | split; [reflexivity |]].
  intros r o [H | []]. discriminate.
Qed.

Lemma sent_app t1 t2 : sent (t1 ++ t2) = sent t1 ++ sent t2.
Proof. apply flat_map_app. Qed.

Lemma settled_app t1 t2 : settled (t1 ++ t2) = settled t1 ++ settled t2.
Proof. apply flat_map_app. Qed.

Lemma in_flight_bounded_nil limit : in_flight_bounded limit [].
Proof.
  intros pre suf H. symmetry in H. apply app_eq_nil in H as [-> _]. simpl. lia.
Qed.

(** Extending a bounded trace: it is enough to check the prefixes that end
    inside the extension. *)
Lemma in_flight_bounded_app limit tr t' :
  in_flight_bounded limit tr ->
  (forall q r, t' = q ++ r ->
     length (sent (tr ++ q)) <= length (settled (tr ++ q)) + limit) ->
  in_flight_bounded limit (tr ++ t').
Proof.
  intros Htr Hext pre suf E.
  apply app_eq_app in E as [l [[E1 E2] | [E1 E2]]].
  - apply (Htr pre l E1).
  - subst pre. apply (Hext l suf E2).
Qed.

Lemma sent_prefix_length q r : length (sent q) <= length (sent (q ++ r)).
Proof. rewrite sent_app, length_app. lia. Qed.

Lemma adjacent_app_r l tr t' : adjacent l tr -> adjacent l (tr ++ t').
Proof.
  intros (pre & post & ->). exists pre, (post ++ t'). now rewrite <- !app_assoc.
Qed.

Lemma adjacent_app_l l tr t' : adjacent l t' -> adjacent l (tr ++ t').
Proof.
  intros (pre & post & ->). exists (tr ++ pre), post. now rewrite <- !app_assoc.
Qed.

Lemma nth_error_remove_nth {A} (l : list A) i x :
  nth_error l i = Some x -> Permutation l (x :: remove_nth i l).
Proof.
  revert i. induction l as [| y ys IH]; intros [| i] H; simpl in *; try discriminate.
  - inversion H. reflexivity.
  - rewrite (IH i H) at 1. apply perm_swap.
Qed.

Lemma remove_nth_length {A} (l : list A) i x :
  nth_error l i = Some x -> S (length (remove_nth i l)) = length l.
Proof.
  intros H. apply nth_error_remove_nth in H. apply Permutation_length in H.
  simpl in H. lia.
Qed.

Lemma sent_outcome_lines i o : sent (outcome_lines i o) = [].
Proof.
  destruct o as [r | e]; simpl.
  - destruct (nullish (data r)); [reflexivity |].
    now destruct (truthy (field "success" (data r))).
  - unfold report_line. now destruct (response e).
Qed.

Lemma settled_outcome_lines i o : settled (outcome_lines i o) = [].
Proof.
  destruct o as [r | e]; simpl.
  - destruct (nullish (data r)); [reflexivity |].
    now destruct (truthy (field "success" (data r))).
  - unfold report_line. now destruct (response e).
Qed.

(** A task never rejects: whatever the reply, its [catch] clause turns it
    into log lines. *)
Lemma resume_eq t o :
  resume t o = (Normal tt, DeleteSettled (index t) o :: outcome_lines (index t) o).
Proof.
  unfold resume, outcome_lines. destruct o as [r | e].
  - rewrite bind_emit, bind_ret_l.
    destruct (nullish (data r)) eqn:Hnull.
    + destruct (data r); try discriminate; reflexivity.
    + rewrite (get_object _ _ Hnull), bind_ret_l.
      now destruct (truthy (field "success" (data r))).
  - rewrite bind_emit, bind_throw. cbn [try_catch throw].
    rewrite report_eq. reflexivity.
Qed.

Section ActuatorSteps.
Variable cfg : config.
Variable w : world.
Variable total : nat.
Variable all : list task.

Local Abbreviation I := (Inv cfg w all).

Lemma Inv_counts p tr :
  I p tr -> length (sent tr) = length (settled tr) + activeCount p.
Proof.
  intros H. pose proof (Permutation_length (inv_perm _ _ _ _ _ H)) as E.
  rewrite length_app, !length_map in E. rewrite (inv_active _ _ _ _ _ H). lia.
Qed.

Lemma dequeue_nil p : queue p = [] -> dequeue cfg total p = (Normal p, []).
Proof. unfold dequeue. now intros ->. Qed.

Lemma dequeue_cons p t q :
  queue p = t :: q ->
  dequeue cfg total p =
  (Normal {| activeCount := S (activeCount p); queue := q;
             in_flight := in_flight p ++ [t] |},
   [Log Info [Lit "Processing batch "; num (index t + 1); Lit "/"; num total;
              Lit " with "; num (length (batch t)); Lit " FIDs..."];
    DeleteSent (index t)
      (NeynarUnfollow (NEYNAR_API_KEY cfg) (FARCASTER_SIGNER_UUID cfg) (batch t))]).
Proof. unfold dequeue. now intros ->. Qed.

(** Starting the head of the queue while a slot is free. *)
Lemma Inv_dequeue p tr :
  I p tr -> activeCount p < concurrency ->
  exists p' t',
    dequeue cfg total p = (Normal p', t') /\ I p' (tr ++ t') /\
    settled t' = [] /\
    length (queue p') + length (in_flight p') = length (queue p) + length (in_flight p) /\
    (queue p = [] -> p' = p) /\
    (queue p <> [] -> S (length (queue p')) = length (queue p) /\
                      activeCount p' = S (activeCount p)).
Proof.
  intros H Hfree. destruct (queue p) as [| t q] eqn:Hq.
  - exists p, []. rewrite (dequeue_nil _ Hq), app_nil_r, Hq.
    split; [reflexivity |]. split; [exact H |]. split; [reflexivity |].
    split; [reflexivity |]. split; [reflexivity |]. intros Hne. now destruct Hne.
  - eexists _, _. rewrite (dequeue_cons _ _ _ Hq). split; [reflexivity |].
    pose proof (Inv_counts _ _ H) as Hcount.
    destruct H as [Ha Hl Hs Hp Hr Hb Hlog].
    split; [constructor; cbn [activeCount queue in_flight] | ].
    + rewrite length_app. simpl. lia.
    + lia.
    + rewrite sent_app. cbn [sent flat_map app]. rewrite Hq in Hs. simpl in Hs.
      rewrite <- app_assoc. exact Hs.
    + rewrite sent_app, settled_app. cbn [sent settled flat_map app].
      rewrite !map_app, app_nil_r. cbn [map fst index].
      eapply Permutation_trans; [| apply Permutation_app_tail; exact Hp].
      rewrite <- !app_assoc.
      apply Permutation_app_head. apply Permutation_app_comm.
    + intros i o. rewrite settled_app. cbn [settled flat_map app].
      rewrite app_nil_r. apply Hr.
    + apply in_flight_bounded_app; [exact Hb |]. intros q' r' E.
      rewrite settled_app, length_app.
      pose proof (sent_prefix_length q' r') as Hq'. rewrite <- E in Hq'.
      rewrite sent_app, length_app. simpl in Hq'. lia.
    + intros i o. rewrite settled_app. cbn [settled flat_map app].
      rewrite app_nil_r. intros Hin. apply adjacent_app_r. now apply Hlog.
    + cbn [activeCount queue in_flight]. rewrite length_app. simpl.
      repeat split; try lia; discriminate.
Qed.

(** The reply to a request in flight arrives; its task runs to its end. *)
Lemma Inv_reply_arrives p tr i t :
  I p tr -> nth_error (in_flight p) i = Some t ->
  I {| activeCount := activeCount p - 1; queue := queue p;
       in_flight := remove_nth i (in_flight p) |}
    (tr ++ DeleteSettled (index t) (unfollow_reply w (index t))
        :: outcome_lines (index t) (unfollow_reply w (index t))).
Proof.
  intros H Hnth. pose proof (Inv_counts _ _ H) as Hcount.
  pose proof (remove_nth_length _ _ _ Hnth) as Hlen.
  pose proof (nth_error_remove_nth _ _ _ Hnth) as Hperm.
  destruct H as [Ha Hl Hs Hp Hr Hb Hlog].
  set (o := unfollow_reply w (index t)).
  assert (sent (DeleteSettled (index t) o :: outcome_lines (index t) o) = []) as Hsent.
  { cbn [sent flat_map app]. apply sent_outcome_lines. }
  assert (settled (DeleteSettled (index t) o :: outcome_lines (index t) o)
          = [(index t, o)]) as Hsettled.
  { cbn [settled flat_map app]. f_equal. apply settled_outcome_lines. }
  constructor; cbn [activeCount queue in_flight].
  - lia.
  - lia.
  - rewrite sent_app, Hsent, app_nil_r. exact Hs.
  - rewrite sent_app, settled_app, Hsent, Hsettled, app_nil_r, map_app.
    cbn [map fst]. eapply Permutation_trans; [| exact Hp]. symmetry.
    eapply Permutation_trans;
      [apply Permutation_app_tail; apply (Permutation_map index Hperm) |].
    cbn [map app]. rewrite app_assoc. apply Permutation_cons_append.
  - intros j o'. rewrite settled_app, Hsettled, in_app_iff.
    intros [Hin | [Hin | []]]; [now apply Hr |]. now inversion Hin.
  - apply in_flight_bounded_app; [exact Hb |]. intros q' r' E.
    pose proof (sent_prefix_length q' r') as Hq'. rewrite <- E, Hsent in Hq'.
    rewrite sent_app, settled_app, !length_app. simpl in Hq'. lia.
  - intros j o'. rewrite settled_app, Hsettled, in_app_iff.
    intros [Hin | [Hin | []]].
    + apply adjacent_app_r. now apply Hlog.
    + inversion Hin; subst. apply adjacent_app_l. exists [], []. now rewrite app_nil_r.
Qed.

(** One reply: the task it answers finishes, and the limiter starts the
    next waiting task in the slot that became free. *)
Lemma settle_spec p tr k :
  I p tr -> saturated p -> in_flight p <> [] ->
  exists p' t',
    settle cfg w total p k = (Normal p', t') /\ I p' (tr ++ t') /\ saturated p' /\
    length (settled (tr ++ t')) = S (length (settled tr)) /\
    S (length (queue p') + length (in_flight p')) =
    length (queue p) + length (in_flight p).
Proof.
  intros H Hsat Hne. unfold settle.
  assert (0 < length (in_flight p)) as Hpos by (destruct (in_flight p); simpl; [contradiction | lia]).
  pose proof (Nat.mod_upper_bound k (length (in_flight p)) ltac:(lia)) as Hi.
  set (i := k mod length (in_flight p)) in *.
  destruct (nth_error (in_flight p) i) as [t |] eqn:Hnth;
    [| apply nth_error_None in Hnth; lia].
  pose proof (Inv_reply_arrives _ _ _ _ H Hnth) as H1.
  pose proof (remove_nth_length _ _ _ Hnth) as Hlen.
  pose proof (inv_active _ _ _ _ _ H) as Ha.
  pose proof (inv_limit _ _ _ _ _ H) as Hl.
  match type of H1 with I ?a ?b => set (p1 := a) in *; set (tr1 := b) in * end.
  destruct (Inv_dequeue p1 tr1 H1) as (p' & t' & Hd & H' & Hset & Hsum & Hnil & Hcons).
  { subst p1. cbn [activeCount]. lia. }
  exists p', (DeleteSettled (index t) (unfollow_reply w (index t))
              :: outcome_lines (index t) (unfollow_reply w (index t)) ++ t').
  rewrite resume_eq, bind_normal. unfold next. cbn [activeCount queue in_flight].
  fold p1. rewrite Hd. cbn [fst snd app].
  split; [reflexivity |].
  assert (tr ++ DeleteSettled (index t) (unfollow_reply w (index t))
             :: outcome_lines (index t) (unfollow_reply w (index t)) ++ t'
          = tr1 ++ t') as E.
  { subst tr1. now rewrite <- app_assoc. }
  rewrite E. split; [exact H' |]. split; [| split].
  - intros Hq'. assert (queue p1 = queue p) as Eq by reflexivity.
    assert (activeCount p1 = activeCount p - 1) as Eact by reflexivity.
    destruct (queue p1) as [| t2 q] eqn:Hq1.
    + rewrite (Hnil eq_refl) in Hq'. now rewrite Hq1 in Hq'.
    + destruct Hcons as [_ Hact]; [discriminate |]. rewrite Hact, Eact.
      assert (activeCount p = concurrency) by (apply Hsat; rewrite <- Eq; discriminate).
      unfold concurrency in *. lia.
  - rewrite settled_app, Hset, app_nil_r. subst tr1.
    rewrite settled_app, length_app. cbn [settled flat_map app length].
    rewrite settled_outcome_lines. simpl. lia.
  - subst p1. cbn [queue in_flight] in Hsum. lia.
Qed.

Lemma iterate_idle m p :
  (activeCount p <? concurrency) && (0 <? length (queue p)) = false ->
  iterate m (try_start cfg total) p = (Normal p, []).
Proof.
  intros Hidle. induction m as [| m IH]; [reflexivity |].
  cbn [iterate]. unfold try_start at 1. rewrite Hidle, bind_ret_l. exact IH.
Qed.

(** The microtasks scheduled by the [m] calls of [limit]: tasks are started
    until the limit is reached or the queue is empty. *)
Lemma iterate_try_start_spec m :
  forall p tr, I p tr ->
  exists p' t',
    iterate m (try_start cfg total) p = (Normal p', t') /\ I p' (tr ++ t') /\
    settled t' = [] /\
    length (queue p') + length (in_flight p') = length (queue p) + length (in_flight p) /\
    (activeCount p' = concurrency \/ length (queue p') + m <= length (queue p)
     \/ queue p' = []).
Proof.
  induction m as [| m IH]; intros p tr H.
  - exists p, []. rewrite app_nil_r. cbn [iterate ret].
    split; [reflexivity |]. split; [exact H |]. split; [reflexivity |].
    split; [reflexivity |]. right. left. lia.
  - destruct ((activeCount p <? concurrency) && (0 <? length (queue p))) eqn:Hgo.
    + apply andb_true_iff in Hgo as [Hfree Hq].
      apply Nat.ltb_lt in Hfree. apply Nat.ltb_lt in Hq.
      destruct (Inv_dequeue p tr H Hfree) as (p1 & t1 & Hd & H1 & Hset1 & Hsum1 & _ & Hcons).
      assert (queue p <> []) as Hne by (destruct (queue p); simpl in Hq; [lia | discriminate]).
      destruct (Hcons Hne) as [Hlen1 _].
      destruct (IH p1 (tr ++ t1) H1) as (p' & t' & Hit & H' & Hset & Hsum & Hend).
      exists p', (t1 ++ t'). cbn [iterate]. unfold try_start at 1.
      assert ((activeCount p <? concurrency) && (0 <? length (queue p)) = true) as ->.
      { apply andb_true_iff. split; now apply Nat.ltb_lt. }
      rewrite Hd, bind_normal, Hit. cbn [fst snd]. rewrite app_assoc.
      split; [reflexivity |]. split; [exact H' |].
      split; [now rewrite settled_app, Hset1, Hset |].
      split; [lia |]. destruct Hend as [He | [He | He]]; auto. right. left. lia.
    + exists p, []. rewrite (iterate_idle _ _ Hgo), app_nil_r.
      split; [reflexivity |]. split; [exact H |]. split; [reflexivity |].
      split; [reflexivity |].
      apply andb_false_iff in Hgo as [Hfull | Hempty].
      * left. apply Nat.ltb_ge in Hfull. pose proof (inv_limit _ _ _ _ _ H). lia.
      * right. right. apply Nat.ltb_ge in Hempty. destruct (queue p); simpl in *; [reflexivity | lia].
Qed.

(** [await Promise.all]: every reply of the script settles one request, until
    no task is left or the script ends. *)
Lemma drain_spec order :
  forall p tr, I p tr -> saturated p ->
  exists r t' p',
    drain cfg w total order p = (r, t') /\ I p' (tr ++ t') /\ saturated p' /\
    r = (if length (queue p) + length (in_flight p) <=? length order
         then Normal tt else Pending) /\
    length (settled (tr ++ t')) =
    length (settled tr) + Nat.min (length (queue p) + length (in_flight p)) (length order) /\
    (r = Normal tt -> queue p' = [] /\ in_flight p' = []).
Proof.
  assert (forall p tr, I p tr -> saturated p -> in_flight p = [] -> queue p = []) as Hdone.
  { intros p tr H Hsat Hfl. destruct (queue p) eqn:Hq; [reflexivity |].
    assert (activeCount p = concurrency) as E by (apply Hsat; rewrite Hq; discriminate).
    rewrite (inv_active _ _ _ _ _ H), Hfl in E. discriminate. }
  induction order as [| k later IH]; intros p tr H Hsat.
  - destruct (in_flight p) as [| t fl] eqn:Hfl.
    + pose proof (Hdone _ _ H Hsat Hfl) as Hq.
      exists (Normal tt), [], p. cbn [drain]. rewrite Hfl, Hq, app_nil_r.
      cbn [length Nat.add Nat.leb Nat.min].
      split; [reflexivity |]. split; [exact H |]. split; [exact Hsat |].
      split; [reflexivity |]. split; [lia |]. intros _. now split.
    + exists Pending, [], p. cbn [drain]. rewrite Hfl, app_nil_r.
      split; [reflexivity |]. split; [exact H |]. split; [exact Hsat |].
      split; [| split].
      * destruct (_ <=? _) eqn:E; [| reflexivity]. apply Nat.leb_le in E. simpl in E. lia.
      * simpl. lia.
      * discriminate.
  - destruct (in_flight p) as [| t fl] eqn:Hfl.
    + pose proof (Hdone _ _ H Hsat Hfl) as Hq.
      exists (Normal tt), [], p. cbn [drain]. rewrite Hfl, Hq, app_nil_r.
      cbn [length Nat.add Nat.leb Nat.min].
      split; [reflexivity |]. split; [exact H |]. split; [exact Hsat |].
      split; [reflexivity |]. split; [lia |]. intros _. now split.
    + destruct (settle_spec p tr k H Hsat) as (p1 & t1 & Hs & H1 & Hsat1 & Hcount1 & Hsum1).
      { rewrite Hfl. discriminate. }
      destruct (IH p1 (tr ++ t1) H1 Hsat1) as (r & t2 & p' & Hd & H' & Hsat' & Hr & Hcount & Hfin).
      exists r, (t1 ++ t2), p'. cbn [drain]. rewrite Hfl.
      rewrite Hs, bind_normal, Hd. cbn [fst snd].
      rewrite app_assoc. split; [reflexivity |]. split; [exact H' |].
      split; [exact Hsat' |]. rewrite Hfl in Hsum1. cbn [length] in *.
      split; [| split; [| exact Hfin]].
      * rewrite Hr. destruct (_ <=? length later) eqn:E1; destruct (_ <=? S (length later)) eqn:E2;
          try reflexivity.
        -- apply Nat.leb_le in E1. apply Nat.leb_gt in E2. lia.
        -- apply Nat.leb_gt in E1. apply Nat.leb_le in E2. lia.
      * rewrite Hcount, Hcount1. lia.
Qed.

End ActuatorSteps.

Lemma tasks_from_length i batches : length (tasks_from i batches) = length batches.
Proof. revert i. induction batches as [| b bs IH]; intros i; simpl; [| rewrite IH]; reflexivity. Qed.

Lemma tasks_from_index i batches :
  map index (tasks_from i batches) = seq i (length batches).
Proof. revert i. induction batches as [| b bs IH]; intros i; simpl; [| rewrite IH]; reflexivity. Qed.

Lemma tasks_from_batch i batches : map batch (tasks_from i batches) = batches.
Proof. revert i. induction batches as [| b bs IH]; intros i; simpl; [| rewrite IH]; reflexivity. Qed.

Lemma Inv_app_quiet cfg w all p tr t :
  Inv cfg w all p tr -> sent t = [] -> settled t = [] -> Inv cfg w all p (tr ++ t).
Proof.
  intros H Hs Hr. pose proof (Inv_counts _ _ _ _ _ H) as Hcount.
  destruct H as [Ha Hl Hsent Hp Hreply Hb Hlog].
  constructor; rewrite ?sent_app, ?settled_app, ?Hs, ?Hr, ?app_nil_r; trivial.
  - apply in_flight_bounded_app; [exact Hb |]. intros q r E.
    pose proof (sent_prefix_length q r) as Hq. rewrite <- E, Hs in Hq.
    rewrite sent_app, settled_app, !length_app. simpl in Hq. lia.
  - intros i o Hin. apply adjacent_app_r. now apply Hlog.
Qed.

Lemma make_batches_nonempty {A} (fids : list A) :
  fids <> [] -> make_batches fids <> [].
Proof.
  intros Hne E. apply (f_equal (@concat A)) in E.
  rewrite make_batches_closed, concat_chunks in E. unfold slice in E.
  cbn [skipn concat] in E.
  pose proof (ceil_div_least (length fids) batchSize ltac:(unfold batchSize; lia)) as [Hup _].
  rewrite firstn_all2 in E by lia. contradiction.
Qed.

(** The run of the actuator on a non-empty list: how it ends, and what holds
    of its trace. *)
Lemma unfollowFids_run cfg w fids :
  fids <> [] ->
  let batches := make_batches fids in
  let n := length batches in
  exists p tr,
    unfollowFids cfg w fids =
    ((if n <=? length (settle_order w) then Normal tt else Pending), tr) /\
    Inv cfg w (tasks_from 0 batches) p tr /\ saturated p /\
    length (settled tr) = Nat.min n (length (settle_order w)) /\
    (n <= length (settle_order w) ->
     queue p = [] /\ in_flight p = [] /\
     exists pre, tr = pre ++ [Log Success [Lit "All unfollow operations completed."]]).
Proof.
  intros Hne batches n. unfold unfollowFids.
  destruct fids as [| fid fids']; [contradiction |].
  cbn [length Nat.eqb]. fold batches. fold n.
  set (l1 := [Lit "Preparing to unfollow "; num (S (length fids')); Lit " users."]).
  set (l2 := [Lit "Splitting into "; num n; Lit " batch(es)."]).
  set (p0 := {| activeCount := 0; queue := tasks_from 0 batches; in_flight := [] |}).
  assert (Inv cfg w (tasks_from 0 batches) p0 [Log Info l1; Log Info l2]) as H0.
  { constructor; subst p0; cbn [activeCount queue in_flight sent settled flat_map app length map].
    - reflexivity.
    - unfold concurrency. lia.
    - reflexivity.
    - reflexivity.
    - intros i o [].
    - intros pre suf E. destruct pre as [| e1 [| e2 [| e3 pre]]]; inversion E; simpl; lia.
    - intros i o []. }
  destruct (iterate_try_start_spec cfg w n _ n p0 _ H0)
    as (p1 & t1 & Hit & H1 & Hset1 & Hsum1 & Hend).
  assert (saturated p1) as Hsat1.
  { intros Hq. destruct Hend as [He | [He | He]]; [exact He | | contradiction].
    subst p0. cbn [queue] in He. rewrite tasks_from_length in He. fold n in He.
    destruct (queue p1); [contradiction | simpl in He; lia]. }
  destruct (drain_spec cfg w n _ (settle_order w) p1 _ H1 Hsat1)
    as (r & t2 & p' & Hd & H' & Hsat' & Hr & Hcount & Hfin).
  assert (length (queue p1) + length (in_flight p1) = n) as Hu.
  { rewrite Hsum1. subst p0. cbn [queue in_flight length]. rewrite tasks_from_length. lia. }
  rewrite Hu in Hr, Hcount.
  unfold log.info. rewrite !bind_emit. cbv zeta. fold batches. fold n. fold p0.
  rewrite Hit, bind_normal, Hd. cbn [fst snd].
  rewrite !settled_app, Hset1, !app_nil_r in Hcount.
  cbn [settled flat_map app length] in Hcount.
  destruct (n <=? length (settle_order w)) eqn:Hle; subst r.
  - exists p', (([Log Info l1; Log Info l2] ++ t1) ++ t2 ++ [Log Success [Lit "All unfollow operations completed."]]).
    split; [reflexivity |]. rewrite app_assoc.
    split; [apply Inv_app_quiet; [exact H' | reflexivity | reflexivity] |].
    split; [exact Hsat' |].
    split. { rewrite !settled_app, Hset1, !app_nil_r. exact Hcount. }
    intros _. destruct (Hfin eq_refl) as [Hq Hfl].
    split; [exact Hq |]. split; [exact Hfl |]. eexists. reflexivity.
  - exists p', (([Log Info l1; Log Info l2] ++ t1) ++ t2).
    split; [reflexivity |]. split; [exact H' |]. split; [exact Hsat' |].
    split. { rewrite !settled_app, Hset1, !app_nil_r. exact Hcount. }
    intros Hn. apply Nat.leb_gt in Hle. lia.
Qed.

Lemma Inv_sent_prefix cfg w all p tr :
  Inv cfg w all p tr -> saturated p ->
  sent tr = firstn (length (settled tr) + concurrency) (map (request_of cfg) all) /\
  length (sent tr) = Nat.min (length all) (length (settled tr) + concurrency).
Proof.
  intros H Hsat. pose proof (Inv_counts _ _ _ _ _ H) as Hcount.
  pose proof (inv_sent _ _ _ _ _ H) as Hs. pose proof (inv_limit _ _ _ _ _ H) as Hl.
  pose proof (f_equal (@length _) Hs) as Hlen.
  rewrite length_app, !length_map in Hlen.
  destruct (queue p) as [| t q] eqn:Hq.
  - simpl in Hs, Hlen. rewrite app_nil_r in Hs. rewrite <- Hs.
    split; [| lia]. symmetry. apply firstn_all2. lia.
  - assert (activeCount p = concurrency) as Hfull by (apply Hsat; rewrite Hq; discriminate).
    simpl in Hlen. split; [| lia].
    rewrite <- Hs, <- Hfull, <- Hcount.
    rewrite firstn_app, Nat.sub_diag, firstn_all. cbn [firstn]. now rewrite app_nil_r.
Qed.

(** C7. On a non-empty list the actuator never throws; it returns exactly
    when a reply has arrived for every batch, and its last act is then the
    final success line.  Which requests are sent does not depend on what the
    replies say: after [k] replies, the first [k + 5] batches have been
    attempted, in order, so that when the actuator returns every batch was
    attempted once and every request was answered.  Each reply, failure
    included, is followed at once by its own log lines. *)
Theorem every_batch_attempted cfg w fids :
  fids <> [] ->
  let batches := make_batches fids in
  let n := length batches in
  let answered := length (settle_order w) in
  let run := unfollowFids cfg w fids in
  fst run = (if n <=? answered then Normal tt else Pending) /\
  sent (snd run) =
    firstn (Nat.min n answered + concurrency)
           (map (request_of cfg) (tasks_from 0 batches)) /\
  (forall i o, In (i, o) (settled (snd run)) ->
     o = unfollow_reply w i /\
     adjacent (DeleteSettled i o :: outcome_lines i o) (snd run)) /\
  (fst run = Normal tt ->
     sent (snd run) = map (request_of cfg) (tasks_from 0 batches) /\
     Permutation (map fst (settled (snd run))) (seq 0 n) /\
     exists pre,
       snd run = pre ++ [Log Success [Lit "All unfollow operations completed."]]).
Proof.
  intros Hne batches n answered run.
  destruct (unfollowFids_run cfg w fids Hne) as (p & tr & Hrun & H & Hsat & Hcount & Hfin).
  fold batches in Hrun, H, Hcount, Hfin. fold n in Hrun, Hcount, Hfin.
  fold answered in Hrun, Hcount, Hfin.
  subst run. rewrite Hrun. cbn [fst snd].
  destruct (Inv_sent_prefix _ _ _ _ _ H Hsat) as [Hsent _].
  split; [reflexivity |]. split; [now rewrite Hsent, Hcount |].
  split.
  { intros i o Hin. split; [exact (inv_reply _ _ _ _ _ H i o Hin) |
                            exact (inv_logged _ _ _ _ _ H i o Hin)]. }
  intros Hr. assert (n <= answered) as Hle.
  { destruct (n <=? answered) eqn:E; [now apply Nat.leb_le | discriminate]. }
  destruct (Hfin Hle) as (Hq & Hfl & Hlast).
  pose proof (inv_sent _ _ _ _ _ H) as Hs. rewrite Hq in Hs. simpl in Hs.
  rewrite app_nil_r in Hs.
  split; [exact Hs |]. split; [| exact Hlast].
  pose proof (inv_perm _ _ _ _ _ H) as Hp. rewrite Hfl, Hs in Hp. simpl in Hp.
  rewrite map_map in Hp. cbn [request_of fst] in Hp.
  rewrite tasks_from_index in Hp. exact Hp.
Qed.

Lemma every_batch_attempted_witness :
  let run := unfollowFids cfg0 world_partial fids250 in
  fids250 <> [] /\
  fst run = Normal tt /\
  map fst (sent (snd run)) = [0; 1; 2] /\
  adjacent [DeleteSettled 1 (Rejected network_error);
            Log Error [Lit "Failed to process batch "; num 2; Lit "."];
            Log Error [Lit "Network Error"]] (snd run).
Proof.
  intros run.
  assert (fids250 <> []) as Hne by discriminate.
  destruct (every_batch_attempted cfg0 world_partial fids250 Hne) as (Hr & Hs & Hlog & _).
  split; [exact Hne |]. split; [exact Hr |]. split.
  - subst run. rewrite Hs. reflexivity.
  - refine (proj2 (Hlog 1 (Rejected network_error) _)).
    vm_compute. right. right. left. reflexivity.
Defined.

(** C8. After every prefix of the actuator's trace, the requests issued and
    not yet answered are at most 5; and when the actuator stops, every slot
    that a waiting batch could use is in use: the number of requests issued
    is the smaller of the number of batches and the number of replies
    received plus 5. *)
Theorem in_flight_at_most_five cfg w fids :
  let tr := snd (unfollowFids cfg w fids) in
  in_flight_bounded 5 tr /\
  length (sent tr) = Nat.min (length (make_batches fids)) (length (settled tr) + 5).
Proof.
  intros tr. destruct fids as [| fid fids'].
  - subst tr. split; [| reflexivity].
    intros pre suf E. destruct pre as [| e1 [| e2 pre]]; inversion E; simpl; lia.
  - destruct (unfollowFids_run cfg w (fid :: fids') ltac:(discriminate))
      as (p & tr' & Hrun & H & Hsat & _).
    subst tr. rewrite Hrun. cbn [snd].
    split; [exact (inv_bound _ _ _ _ _ H) |].
    destruct (Inv_sent_prefix _ _ _ _ _ H Hsat) as [_ Hlen].
    rewrite tasks_from_length in Hlen. exact Hlen.
Qed.

(** Seven batches: five requests go out at once, the sixth and the seventh
    only after the first and the second reply. *)
Example seven_batches :
  map (fun ev => match ev with
                 | DeleteSent i _ => Some (true, i)
                 | DeleteSettled i _ => Some (false, i)
                 | _ => None
                 end)
      (filter (fun ev => match ev with
                         | DeleteSent _ _ | DeleteSettled _ _ => true
                         | _ => false
                         end)
              (snd (unfollowFids cfg0 world_seven fids700)))
  = [Some (true, 0); Some (true, 1); Some (true, 2); Some (true, 3); Some (true, 4);
     Some (false, 0); Some (true, 5); Some (false, 1); Some (true, 6);
     Some (false, 2); Some (false, 3); Some (false, 4); Some (false, 5);
     Some (false, 6)].
Proof. vm_compute. reflexivity. Qed.

(** ** Events of a computation *)

Section EmitsOnly.
Variable P : event -> Prop.

Lemma emits_only_bind {A B} (m : M A) (f : A -> M B) :
  emits_only P m -> (forall a, emits_only P (f a)) -> emits_only P (bind m f).
Proof.
  unfold emits_only. intros Hm Hf. destruct m as [[a | e |] t]; simpl in *; trivial.
  specialize (Hf a). destruct (f a) as [r t']. simpl in *.
  apply Forall_app. now split.
Qed.

Lemma emits_only_try_catch {A} (m : M A) (h : js_error -> M A) :
  emits_only P m -> (forall e, emits_only P (h e)) -> emits_only P (try_catch m h).
Proof.
  unfold emits_only. intros Hm Hh. destruct m as [[a | e |] t]; simpl in *; trivial.
  specialize (Hh e). destruct (h e) as [r t']. simpl in *.
  apply Forall_app. now split.
Qed.

Lemma emits_only_emit ev : P ev -> emits_only P (emit ev).
Proof. intros H. constructor; [exact H | constructor]. Qed.

Lemma emits_only_ret {A} (a : A) : emits_only P (ret a).
Proof. constructor. Qed.

Lemma emits_only_throw {A} e : emits_only P (@throw A e).
Proof. constructor. Qed.

Lemma emits_only_get v k : emits_only P (get v k).
Proof. destruct v; constructor. Qed.

Lemma emits_only_template m : emits_only P (template m).
Proof. unfold emits_only. rewrite snd_template. constructor. Qed.

Lemma emits_only_await r o : P (Http r o) -> emits_only P (await r o).
Proof. intros H. destruct o; (constructor; [exact H | constructor]). Qed.

Lemma emits_only_report e : (forall l m, P (Log l m)) -> emits_only P (report e).
Proof. intros H. rewrite report_eq. apply emits_only_emit. unfold report_line. destruct (response e); apply H. Qed.

Lemma emits_only_map_m {A B} (f : A -> M B) (l : list A) :
  (forall a, emits_only P (f a)) -> emits_only P (map_m f l).
Proof.
  intros Hf. induction l as [| x xs IH]; simpl.
  - apply emits_only_ret.
  - apply emits_only_bind; [apply Hf |]. intros y.
    apply emits_only_bind; [exact IH |]. intros ys. apply emits_only_ret.
Qed.

Hypothesis P_log : forall l m, P (Log l m).
Hypothesis P_sleep : forall ms, P (Sleep ms).
Hypothesis P_http : forall r o, P (Http r o).

Lemma emits_only_poll cfg executionId replies :
  emits_only P (poll cfg executionId replies).
Proof.
  induction replies as [| reply later IH].
  - rewrite poll_nil.
    destruct (unprintable executionId); (constructor; [apply P_sleep | constructor]).
  - rewrite poll_cons.
    apply emits_only_bind; [apply emits_only_emit, P_sleep |]. intros _.
    apply emits_only_bind; [apply emits_only_template |]. intros _.
    apply emits_only_bind; [apply emits_only_await, P_http |]. intros statusResponse.
    cbv zeta.
    apply emits_only_bind; [apply emits_only_get |]. intros state.
    apply emits_only_bind.
    { destruct (strict_eq_str state "QUERY_STATE_FAILED").
      - apply emits_only_bind; [apply emits_only_get |]. intros err.
        apply emits_only_bind; [apply emits_only_template | intros; apply emits_only_throw].
      - apply emits_only_ret. }
    intros _.
    apply emits_only_bind; [apply emits_only_get |]. intros state'.
    apply emits_only_bind; [apply emits_only_template |]. intros m.
    apply emits_only_bind; [apply emits_only_emit, P_log |]. intros _.
    apply emits_only_bind; [apply emits_only_get |]. intros state''.
    destruct (negb (strict_eq_str state'' "QUERY_STATE_COMPLETED")).
    + exact IH.
    + apply emits_only_ret.
Qed.

Lemma emits_only_fetch cfg w : emits_only P (fetchFidsToUnfollow cfg w).
Proof.
  unfold fetchFidsToUnfollow.
  apply emits_only_bind; [apply emits_only_emit, P_log |]. intros _.
  apply emits_only_try_catch.
  - apply emits_only_bind; [apply emits_only_await, P_http |]. intros executeResponse.
    apply emits_only_bind; [apply emits_only_get |]. intros executionId.
    apply emits_only_bind.
    { destruct (negb (truthy executionId)); [apply emits_only_throw | apply emits_only_ret]. }
    intros _. apply emits_only_bind; [apply emits_only_template |].
    intros m. apply emits_only_bind; [apply emits_only_emit, P_log |].
    intros _. apply emits_only_bind; [apply emits_only_poll |].
    intros _. apply emits_only_bind; [apply emits_only_template |].
    intros _. apply emits_only_bind; [apply emits_only_await, P_http |].
    intros resultsResponse.
    apply emits_only_bind; [apply emits_only_get |]. intros result.
    apply emits_only_bind; [apply emits_only_get |]. intros rows.
    apply emits_only_bind.
    { destruct rows; simpl; try apply emits_only_throw.
      apply emits_only_map_m. intros row. apply emits_only_get. }
    intros fids. apply emits_only_bind; [apply emits_only_emit, P_log |].
    intros _. apply emits_only_ret.
  - intros error. apply emits_only_bind; [apply emits_only_emit, P_log |]. intros _.
    apply emits_only_bind; [apply emits_only_report, P_log |]. intros _.
    apply emits_only_ret.
Qed.

End EmitsOnly.

Lemma not_delete_sent tr : Forall not_delete tr -> sent tr = [] /\ settled tr = [].
Proof.
  induction 1 as [| ev tr Hev _ [IH1 IH2]]; [now split |].
  destruct ev; simpl in *; try contradiction; now split.
Qed.

(** The Query Runner sends no unfollow request. *)
Lemma fetch_quiet cfg w :
  sent (snd (fetchFidsToUnfollow cfg w)) = [] /\
  settled (snd (fetchFidsToUnfollow cfg w)) = [].
Proof.
  apply not_delete_sent. apply emits_only_fetch; intros; exact Logic.I.
Qed.

(** The Query Runner never throws: its [catch] clause handles every error. *)
Lemma no_throw_fetch cfg w : no_throw (fetchFidsToUnfollow cfg w).
Proof.
  unfold fetchFidsToUnfollow. apply no_throw_bind; [intros e; discriminate |].
  intros _ e.
  match goal with |- context [try_catch ?b ?h] => destruct b as [[fids | e' |] t] end;
    cbn [try_catch]; try discriminate.
  rewrite fetch_handler. discriminate.
Qed.

Lemma no_throw_unfollowFids cfg w fids : no_throw (unfollowFids cfg w fids).
Proof.
  destruct fids as [| fid fids']; [intros e; discriminate |].
  destruct (unfollowFids_run cfg w (fid :: fids') ltac:(discriminate)) as (p & tr & Hrun & _).
  rewrite Hrun. intros e. cbn [fst]. destruct (_ <=? _); discriminate.
Qed.

(** ** The workflow *)

Lemma lower_y c : lower c = "y"%char -> c = "y"%char \/ c = "Y"%char.
Proof.
  destruct c as [[] [] [] [] [] [] [] []]; vm_compute; intros H;
    try discriminate; auto.
Qed.

Lemma lower_s c : lower c = "s"%char -> c = "s"%char \/ c = "S"%char.
Proof.
  destruct c as [[] [] [] [] [] [] [] []]; vm_compute; intros H;
    try discriminate; auto.
Qed.

(** ** [trim] *)

Lemma skip_ws_White s : skip_ws s = "" -> White s.
Proof.
  intros H. destruct (skip_ws_spec s) as (w & Hw & Hs).
  rewrite H, append_nil_r in Hs. now subst.
Qed.

(** What [trim] removes is white space, at the two ends. *)
Lemma trim_end_spec t : exists w2, White w2 /\ t = (trim_end t ++ w2)%string.
Proof.
  induction t as [| c r (w2 & Hw2 & IH)]; [exists ""; split; [constructor | reflexivity] |].
  cbn [trim_end]. destruct (String.eqb (skip_ws (String c r)) "") eqn:E.
  - apply String.eqb_eq in E. exists (String c r). split; [now apply skip_ws_White | reflexivity].
  - exists w2. split; [exact Hw2 |]. cbn [append]. now rewrite <- IH.
Qed.

Lemma trim_spec s :
  exists w1 w2, White w1 /\ White w2 /\ s = (w1 ++ trim s ++ w2)%string.
Proof.
  destruct (skip_ws_spec s) as (w1 & Hw1 & Hs).
  destruct (trim_end_spec (skip_ws s)) as (w2 & Hw2 & Ht).
  exists w1, w2. split; [exact Hw1 |]. split; [exact Hw2 |].
  unfold trim. now rewrite <- Ht.
Qed.

Lemma trim_end_solid y w : solid y -> White w -> trim_end (y ++ w) = y.
Proof.
  intros Hy Hw. induction y as [| c r IH].
  - cbn [append]. destruct w as [| c r]; [reflexivity |].
    cbn [trim_end]. now rewrite (skip_ws_white _ Hw).
  - destruct Hy as [Hc Hr]. cbn [append trim_end].
    rewrite (skip_ws_stay _ _ Hc). cbn [String.eqb]. now rewrite (IH Hr).
Qed.

(** A string without white space in it, wrapped in white space, is what
    [trim] gives back. *)
Lemma trim_solid w1 y w2 :
  White w1 -> White w2 -> solid y -> trim (w1 ++ y ++ w2) = y.
Proof.
  intros Hw1 Hw2 Hy. unfold trim. rewrite (skip_ws_app _ _ Hw1).
  destruct y as [| c r].
  - cbn [append]. now rewrite (skip_ws_white _ Hw2).
  - cbn [append]. rewrite (skip_ws_stay _ _ (proj1 Hy)).
    exact (trim_end_solid (String c r) w2 Hy Hw2).
Qed.

(** White space is removed at both ends (a tab and a no-break space among
    it), and kept inside. *)
Example trim_samples :
  map trim [" yes "; "yes"; String "009" (" Yes " ++ String "194" (String "160" ""));
            " y es "; "   "; ""]
  = ["yes"; "yes"; "Yes"; "y es"; ""; ""].
Proof. reflexivity. Qed.

(** The operator types [yes] with blanks around it: the answer is [yes]. *)
Example padded_yes :
  answer (with_answer "  yes " world0) = "yes" /\
  sent (snd (main cfg0 (with_answer "  yes " world0))) =
  [(0, NeynarUnfollow (Some "neynar-key") (Some "signer-uuid") [JNum 11; JNum 12])].
Proof. split; reflexivity. Qed.

(** [answer.toLowerCase() === 'yes'] holds of the eight spellings of "yes"
    and of nothing else. *)
Lemma toLowerCase_yes a :
  String.eqb (toLowerCase a) "yes" = true <-> In a yes_variants.
Proof.
  split.
  - intros H. apply String.eqb_eq in H.
    destruct a as [| c1 [| c2 [| c3 [| c4 r]]]]; try discriminate.
    cbn [toLowerCase] in H. inversion H as [[H1 H2 H3]].
    destruct (lower_y _ H1) as [-> | ->], (lower_e _ H2) as [-> | ->],
      (lower_s _ H3) as [-> | ->]; simpl; auto 10.
  - intros H. simpl in H.
    destruct H as [<- | [<- | [<- | [<- | [<- | [<- | [<- | [<- | []]]]]]]]]; reflexivity.
Qed.

Lemma main_after_fetch cfg w fids tf :
  env_ok cfg = true ->
  fetchFidsToUnfollow cfg w = (Normal fids, tf) ->
  fids <> [] ->
  main cfg w =
  if existsb unprintable fids then
    (Throw TypeError_primitive,
     banner :: tf ++ [ConsoleLog [Lit (String LF "--- FIDs to Unfollow ---")]])
  else if tty w then
    if String.eqb (toLowerCase (answer w)) "yes"
    then (fst (unfollowFids cfg w fids),
          (banner :: tf ++ confirmation fids (answer w)) ++ snd (unfollowFids cfg w fids))
    else (Normal tt,
          (banner :: tf ++ confirmation fids (answer w))
          ++ [Log Info [Lit "Unfollow action cancelled by user."]])
  else (Throw no_terminal, banner :: tf ++ listing fids).
Proof.
  intros Henv Hfetch Hne. unfold main, console.log. rewrite bind_emit.
  unfold env_ok in Henv. apply andb_true_iff in Henv as [Henv H4].
  apply andb_true_iff in Henv as [Henv H3]. apply andb_true_iff in Henv as [H1 H2].
  rewrite H1, H2, H3, H4. cbn [negb orb]. rewrite Hfetch, bind_normal.
  destruct fids as [| fid fids']; [contradiction |].
  cbn [length Nat.ltb Nat.leb]. rewrite bind_emit, template_join.
  destruct (existsb unprintable (fid :: fids')); [reflexivity |].
  rewrite bind_ret_l, !bind_emit.
  unfold readlineSync.question. destruct (tty w).
  - rewrite bind_assoc, bind_emit, bind_ret_l.
    unfold confirmation. cbn [fst snd length].
    destruct (String.eqb (toLowerCase (answer w)) "yes").
    + f_equal. unfold banner. cbn [app]. f_equal. rewrite <- app_assoc. reflexivity.
    + cbn [log.info emit fst snd]. f_equal. unfold banner. cbn [app]. f_equal.
      rewrite <- app_assoc. reflexivity.
  - reflexivity.
Qed.

Lemma unfollowFids_sends cfg w fids :
  fids <> [] ->
  exists rest,
    sent (snd (unfollowFids cfg w fids)) =
    (0, NeynarUnfollow (NEYNAR_API_KEY cfg) (FARCASTER_SIGNER_UUID cfg)
          (firstn batchSize fids)) :: rest.
Proof.
  intros Hne.
  destruct (unfollowFids_run cfg w fids Hne) as (p & tr & Hrun & H & Hsat & _).
  rewrite Hrun. cbn [snd].
  destruct (Inv_sent_prefix _ _ _ _ _ H Hsat) as [Hsent _]. rewrite Hsent.
  pose proof (make_batches_nonempty fids Hne) as Hb.
  rewrite make_batches_closed in *.
  destruct (ceil_div (length fids) batchSize) as [| m]; [now destruct Hb |].
  replace (length (settled tr) + concurrency) with (S (length (settled tr) + 4))
    by (unfold concurrency; lia).
  cbn [seq map tasks_from firstn request_of index batch].
  eexists. apply f_equal2; [| reflexivity].
  unfold request_of, chunk, slice. cbn [index batch].
  replace (0 + 0 * batchSize) with 0 by lia.
  now replace (0 + batchSize - 0) with batchSize by lia.
Qed.

Lemma sent_confirmation fids a : sent (confirmation fids a) = [].
Proof. reflexivity. Qed.

(** C2 (as the code has it). Once the query has produced a non-empty list,
    the operator is asked when the list can be printed and the process has
    a terminal to ask on.  [main] then hands the list to the actuator if the
    answer that [readlineSync.question] returns is "yes" in any mix of upper
    and lower case, and otherwise only logs that the action was cancelled.
    An unfollow request is sent if and only if the operator was asked and
    the answer is one of the eight spellings, that is, the line typed is one
    of them with nothing but white space around it. *)
Theorem confirmation_gate cfg w fids tf :
  env_ok cfg = true ->
  fetchFidsToUnfollow cfg w = (Normal fids, tf) ->
  fids <> [] ->
  let asked := existsb unprintable fids = false /\ tty w = true in
  let shown := banner :: tf ++ confirmation fids (answer w) in
  let actuator := unfollowFids cfg w fids in
  (asked -> In (answer w) yes_variants ->
   main cfg w = (fst actuator, shown ++ snd actuator)) /\
  (asked -> ~ In (answer w) yes_variants ->
   main cfg w =
   (Normal tt, shown ++ [Log Info [Lit "Unfollow action cancelled by user."]])) /\
  (sent (snd (main cfg w)) <> [] <-> asked /\ In (answer w) yes_variants) /\
  (In (answer w) yes_variants <->
   exists w1 y w2,
     White w1 /\ White w2 /\ In y yes_variants /\ typed w = (w1 ++ y ++ w2)%string).
Proof.
  intros Henv Hfetch Hne asked shown actuator.
  assert (In (answer w) yes_variants <->
          exists w1 y w2,
            White w1 /\ White w2 /\ In y yes_variants /\ typed w = (w1 ++ y ++ w2)%string)
    as Htyped.
  { split.
    - intros Hin. destruct (trim_spec (typed w)) as (w1 & w2 & Hw1 & Hw2 & Ht).
      exists w1, (answer w), w2. auto.
    - intros (w1 & y & w2 & Hw1 & Hw2 & Hy & Ht).
      assert (solid y) as Hsolid.
      { simpl in Hy.
        destruct Hy as [<- | [<- | [<- | [<- | [<- | [<- | [<- | [<- | []]]]]]]]];
          repeat split. }
      unfold answer. rewrite Ht, (trim_solid _ _ _ Hw1 Hw2 Hsolid). exact Hy. }
  cut ((asked -> In (answer w) yes_variants ->
        main cfg w = (fst actuator, shown ++ snd actuator)) /\
       (asked -> ~ In (answer w) yes_variants ->
        main cfg w =
        (Normal tt, shown ++ [Log Info [Lit "Unfollow action cancelled by user."]])) /\
       (sent (snd (main cfg w)) <> [] <-> asked /\ In (answer w) yes_variants)).
  { intros (Ha & Hb & Hc). auto. }
  pose proof (main_after_fetch cfg w fids tf Henv Hfetch Hne) as Hmain.
  pose proof (toLowerCase_yes (answer w)) as Hyes.
  pose proof (fetch_quiet cfg w) as [Hq _]. rewrite Hfetch in Hq. cbn [snd] in Hq.
  assert (forall tail, sent tail = [] -> sent (banner :: tf ++ tail) = []) as Hquiet.
  { intros tail Ht. cbn [sent flat_map banner app]. fold (sent (tf ++ tail)).
    now rewrite sent_app, Hq, Ht. }
  assert (sent shown = []) as Hshown by (apply Hquiet, sent_confirmation).
  subst asked.
  destruct (existsb unprintable fids).
  { split; [intros [H _]; discriminate |]. split; [intros [H _]; discriminate |].
    rewrite Hmain. cbn [snd].
    rewrite (Hquiet [ConsoleLog [Lit (String LF "--- FIDs to Unfollow ---")]] eq_refl).
    split; [intros H; now destruct H | intros [[H _] _]; discriminate]. }
  destruct (tty w).
  2:{ split; [intros [_ H]; discriminate |]. split; [intros [_ H]; discriminate |].
      rewrite Hmain. cbn [snd]. rewrite (Hquiet (listing fids) eq_refl).
      split; [intros H; now destruct H | intros [[_ H] _]; discriminate]. }
  fold shown actuator in Hmain.
  destruct (String.eqb (toLowerCase (answer w)) "yes").
  - assert (In (answer w) yes_variants) as Hin by now apply Hyes.
    split; [intros _ _; exact Hmain |]. split; [intros _ Hn; contradiction |].
    split; [intros _; now split |]. intros _.
    rewrite Hmain. cbn [snd]. rewrite sent_app, Hshown. cbn [app].
    destruct (unfollowFids_sends cfg w fids Hne) as [rest Hs].
    subst actuator. rewrite Hs. discriminate.
  - assert (~ In (answer w) yes_variants) as Hn.
    { intros Hin. apply Hyes in Hin. discriminate. }
    split; [intros _ Hin; contradiction |]. split; [intros _ _; exact Hmain |].
    split; [| intros [_ Hin]; contradiction].
    rewrite Hmain. cbn [snd]. rewrite sent_app, Hshown. intros H. now destruct H.
Qed.

Lemma confirmation_gate_witness :
  sent (snd (main cfg0 world_mixed_case)) <> [] <->
  (existsb unprintable [JNum 11; JNum 12] = false /\ tty world_mixed_case = true) /\
  In "yEs" yes_variants.
Proof.
  assert ([JNum 11; JNum 12] <> []) as Hne by discriminate.
  exact (proj1 (proj2 (proj2 (confirmation_gate cfg0 world_mixed_case [JNum 11; JNum 12]
                                (snd (fetchFidsToUnfollow cfg0 world_mixed_case))
                                eq_refl eq_refl Hne)))).
Defined.

(** The operator types [yEs], which is none of ["yes"], ["YES"], ["Yes"],
    and the unfollow requests are sent all the same. *)
Lemma confirmation_three_spellings_counterexample :
  tty world_mixed_case = true /\
  typed world_mixed_case = "yEs" /\
  answer world_mixed_case = "yEs" /\
  ~ In (answer world_mixed_case) ["yes"; "YES"; "Yes"] /\
  sent (snd (main cfg0 world_mixed_case)) =
  [(0, NeynarUnfollow (Some "neynar-key") (Some "signer-uuid") [JNum 11; JNum 12])].
Proof.
  split; [reflexivity |]. split; [reflexivity |]. split; [reflexivity |].
  split; [| reflexivity].
  cbn. intros [H | [H | [H | []]]]; discriminate.
Qed.

Lemma map_m_get k rows :
  Forall (fun row => nullish row = false) rows ->
  map_m (fun row => get row k) rows = (Normal (map (field k) rows), []).
Proof.
  induction 1 as [| row rows Hrow _ IH]; [reflexivity |].
  cbn [map_m map]. rewrite (get_object _ _ Hrow), bind_ret_l, IH. reflexivity.
Qed.



Lemma poll_unprintable cfg executionId replies :
  unprintable executionId = true ->
  poll cfg executionId replies = (Throw TypeError_primitive, [Sleep 3000]).
Proof.
  intros H. destruct replies as [| reply later].
  - now rewrite poll_nil, H.
  - rewrite poll_cons. unfold sleep. now rewrite bind_emit, template_url, H.
Qed.

Lemma poll_normal_printable cfg executionId replies tp :
  poll cfg executionId replies = (Normal tt, tp) -> unprintable executionId = false.
Proof.
  intros H. destruct (unprintable executionId) eqn:E; [| reflexivity].
  rewrite (poll_unprintable _ _ _ E) in H. discriminate.
Qed.




(** The first thing the Query Runner does after its first log line is the
    submission, whatever the reply to it is. *)
Lemma fetch_starts_with_submission cfg w :
  exists rest,
    snd (fetchFidsToUnfollow cfg w) =
    Log Info [Lit "Executing Dune query (ID: "; Sub (JNum DUNE_QUERY_ID);
              Lit ") for target FID: "; Sub (env (TARGET_FID cfg)); Lit "..."]
    :: Http (DuneExecute DUNE_QUERY_ID (Number (TARGET_FID cfg)) (DUNE_API_KEY cfg))
            (execute_reply w)
    :: rest.
Proof.
  unfold fetchFidsToUnfollow. unfold log.info at 1. rewrite bind_emit. cbn [snd].
  destruct (execute_reply w) as [resp | e]; cbn [await].
  - rewrite bind_normal.
    match goal with |- context [fst ?m] => destruct m as [[x | e |] t] end;
      cbn [fst snd try_catch app]; try (eexists; reflexivity).
    match goal with |- context [let (_, _) := ?m in _] => destruct m as [r t'] end.
    eexists. reflexivity.
  - cbn [bind try_catch].
    match goal with |- context [let (_, _) := ?m in _] => destruct m as [r t'] end.
    eexists. reflexivity.
Qed.








(** * Further properties *)

(** ** Batching, continued *)

Lemma chunk_shift {A} (fids : list A) k :
  chunk fids 0 (S k) = chunk (skipn batchSize fids) 0 k.
Proof.
  unfold chunk, slice. rewrite skipn_skipn.
  replace (0 + S k * batchSize) with (0 + k * batchSize + batchSize)
    by (unfold batchSize; lia).
  f_equal. unfold batchSize. lia.
Qed.

Lemma make_batches_unfold {A} (fids : list A) :
  fids <> [] ->
  make_batches fids = firstn batchSize fids :: make_batches (skipn batchSize fids).
Proof.
  intros Hne. rewrite !make_batches_closed, length_skipn.
  assert (0 < length fids) as Hpos by (destruct fids; simpl; [contradiction | lia]).
  rewrite (ceil_div_step _ Hpos). cbn [seq map]. apply f_equal2.
  - unfold chunk, slice.
    replace (0 + 0 * batchSize + batchSize - (0 + 0 * batchSize)) with batchSize by lia.
    now replace (0 + 0 * batchSize) with 0 by lia.
  - rewrite <- seq_shift, map_map. apply map_ext. intros k. apply chunk_shift.
Qed.

(** X1. [make_batches] chops the list from the front: the first batch is the
    first hundred identifiers and the other batches are the batches of the
    rest; a list of at most a hundred identifiers is one batch, and the
    empty list gives no batch. *)
Theorem make_batches_front {A} (fids : list A) :
  make_batches (@nil A) = [] /\
  (fids <> [] ->
   make_batches fids = firstn batchSize fids :: make_batches (skipn batchSize fids)) /\
  (fids <> [] -> length fids <= batchSize -> make_batches fids = [fids]).
Proof.
  split; [reflexivity |]. split; [apply make_batches_unfold |].
  intros Hne Hlen. rewrite (make_batches_unfold fids Hne).
  rewrite firstn_all2 by exact Hlen. rewrite skipn_all2 by exact Hlen. reflexivity.
Qed.

Lemma make_batches_front_witness :
  make_batches [7; 8; 9] = [[7; 8; 9]].
Proof.
  assert ([7; 8; 9] <> []) as Hne by discriminate.
  assert (length [7; 8; 9] <= batchSize) as Hlen by (unfold batchSize; simpl; lia).
  exact (proj2 (proj2 (make_batches_front [7; 8; 9])) Hne Hlen).
Defined.

(** X2. No batch is empty: the actuator never builds a request without
    targets. *)
Theorem make_batches_no_empty_batch {A} (fids : list A) :
  Forall (fun b => b <> []) (make_batches fids).
Proof.
  rewrite make_batches_closed. apply Forall_forall. intros b Hb.
  apply in_map_iff in Hb as (k & <- & Hk). apply in_seq in Hk.
  destruct (ceil_div_least (length fids) batchSize) as [_ Hleast];
    [unfold batchSize; lia |].
  assert (~ length fids <= k * batchSize) as Hn.
  { intros Hq. apply Hleast in Hq. lia. }
  intros E. apply (f_equal (@length A)) in E.
  unfold chunk in E. rewrite slice_length in E. unfold batchSize in *.
  cbn [length] in E. lia.
Qed.

(** X3. Batching composes: when the first list fills whole batches (its
    length is a multiple of 100), the batches of a concatenation are the
    batches of the first list followed by the batches of the second. *)
Theorem make_batches_app {A} (l1 l2 : list A) k :
  length l1 = k * batchSize ->
  make_batches (l1 ++ l2) = make_batches l1 ++ make_batches l2.
Proof.
  revert l1. induction k as [| k IH]; intros l1 Hlen.
  - destruct l1; [reflexivity | discriminate].
  - assert (l1 <> []) as Hne1 by (destruct l1; [discriminate | discriminate]).
    assert (l1 ++ l2 <> []) as Hne by (destruct l1; [contradiction | discriminate]).
    rewrite (make_batches_unfold _ Hne), (make_batches_unfold _ Hne1).
    assert (batchSize <= length l1) as Hge by (unfold batchSize in *; lia).
    rewrite firstn_app, skipn_app.
    replace (batchSize - length l1) with 0 by lia. cbn [firstn skipn].
    rewrite app_nil_r. cbn [app]. f_equal. apply IH.
    rewrite length_skipn. unfold batchSize in *. lia.
Qed.

Lemma make_batches_app_witness :
  make_batches (seq 0 200 ++ [1; 2; 3]) = make_batches (seq 0 200) ++ [[1; 2; 3]].
Proof.
  assert (length (seq 0 200) = 2 * batchSize) as Hlen by reflexivity.
  exact (make_batches_app (seq 0 200) [1; 2; 3] 2 Hlen).
Defined.

(** X4. Positions are kept: the [j]-th identifier of the [k]-th batch is the
    identifier at position [100 * k + j] of the list. *)
Theorem make_batches_position {A} (fids : list A) k j d :
  k < length (make_batches fids) ->
  j < length (nth k (make_batches fids) []) ->
  nth j (nth k (make_batches fids) []) d = nth (k * batchSize + j) fids d.
Proof.
  rewrite make_batches_closed. rewrite length_map, length_seq. intros Hk.
  rewrite (nth_indep _ [] (chunk fids 0 0)) by (rewrite length_map, length_seq; lia).
  rewrite (map_nth (chunk fids 0)), seq_nth by lia.
  unfold chunk. rewrite slice_length. intros Hj. unfold slice.
  rewrite nth_firstn.
  replace (j <? 0 + (0 + k) * batchSize + batchSize - (0 + (0 + k) * batchSize)) with true
    by (symmetry; apply Nat.ltb_lt; lia).
  rewrite nth_skipn. f_equal; lia.
Qed.

Lemma make_batches_position_witness :
  nth 7 (nth 2 (make_batches (seq 1 250)) []) 0 = nth 207 (seq 1 250) 0.
Proof.
  apply (make_batches_position (seq 1 250) 2 7 0).
  - vm_compute. lia.
  - vm_compute. lia.
Defined.

(** ** The Query Runner, continued *)

(** One turn of the polling loop, by cases on the reply. *)
Lemma poll_step cfg executionId reply later :
  unprintable executionId = false ->
  poll cfg executionId (reply :: later) =
  match reply with
  | Rejected e =>
    (Throw e, [Sleep 3000; Http (DuneStatus executionId (DUNE_API_KEY cfg)) reply])
  | Resolved r =>
    if nullish (data r) then
      (Throw (Error_ [Lit "Cannot read properties of "; Sub (data r);
                      Lit " (reading '"; Lit "state"; Lit "')"]),
       [Sleep 3000; Http (DuneStatus executionId (DUNE_API_KEY cfg)) reply])
    else if failed reply then
      (Throw (if unprintable (field "error" (data r))
              then TypeError_primitive
              else Error_ [Lit "Dune query failed: "; Sub (field "error" (data r))]),
       [Sleep 3000; Http (DuneStatus executionId (DUNE_API_KEY cfg)) reply])
    else if unprintable (state_of reply) then
      (Throw TypeError_primitive,
       [Sleep 3000; Http (DuneStatus executionId (DUNE_API_KEY cfg)) reply])
    else if completed reply then
      (Normal tt, poll_lines cfg executionId reply)
    else
      (fst (poll cfg executionId later),
       poll_lines cfg executionId reply ++ snd (poll cfg executionId later))
  end.
Proof.
  intros Hp. rewrite poll_cons. unfold sleep. rewrite bind_emit, template_url, Hp, bind_ret_l.
  destruct reply as [r | e]; cbn [await]; [| reflexivity].
  rewrite bind_normal. cbn beta zeta.
  destruct (nullish (data r)) eqn:Hnull.
  { destruct (data r); try discriminate; reflexivity. }
  rewrite !(get_object _ _ Hnull), !bind_ret_l.
  unfold failed, completed, state_of.
  destruct (strict_eq_str (field "state" (data r)) "QUERY_STATE_FAILED").
  { rewrite template_sub_end.
    destruct (unprintable (field "error" (data r))); reflexivity. }
  rewrite bind_ret_l, template_sub.
  destruct (unprintable (field "state" (data r))); [reflexivity |].
  rewrite bind_ret_l. unfold log.info. rewrite bind_emit.
  destruct (strict_eq_str (field "state" (data r)) "QUERY_STATE_COMPLETED");
    cbn [negb]; reflexivity.
Qed.

Lemma running_step cfg executionId reply later :
  unprintable executionId = false ->
  running reply = true ->
  poll cfg executionId (reply :: later) =
  (fst (poll cfg executionId later),
   poll_lines cfg executionId reply ++ snd (poll cfg executionId later)).
Proof.
  intros Hp H. rewrite (poll_step _ _ _ _ Hp). destruct reply as [r | e]; [| discriminate].
  unfold running in H. unfold failed, completed, state_of.
  apply andb_true_iff in H as [H H4]. apply andb_true_iff in H as [H H3].
  apply andb_true_iff in H as [H1 H2].
  apply negb_true_iff in H1, H2, H3, H4. now rewrite H1, H2, H3, H4.
Qed.

(** The loop goes through any number of replies that report the query as
    still running. *)
Lemma poll_running_app cfg executionId pre rest :
  unprintable executionId = false ->
  Forall (fun o => running o = true) pre ->
  poll cfg executionId (pre ++ rest) =
  (fst (poll cfg executionId rest),
   flat_map (poll_lines cfg executionId) pre ++ snd (poll cfg executionId rest)).
Proof.
  intros Hp. induction 1 as [| reply pre Hr _ IH].
  - simpl. now destruct (poll cfg executionId rest).
  - cbn [app flat_map]. rewrite (running_step _ _ _ _ Hp Hr), IH. cbn [fst snd].
    now rewrite <- app_assoc.
Qed.

Lemma completed_object o : completed o = true -> exists r, o = Resolved r /\ nullish (data r) = false.
Proof.
  unfold completed, state_of. destruct o as [r | e]; [| discriminate].
  intros H. exists r. split; [reflexivity |]. exact (strict_eq_field_object _ _ _ H).
Qed.

Lemma failed_object o : failed o = true -> exists r, o = Resolved r /\ nullish (data r) = false.
Proof.
  unfold failed, state_of. destruct o as [r | e]; [| discriminate].
  intros H. exists r. split; [reflexivity |]. exact (strict_eq_field_object _ _ _ H).
Qed.

Lemma completed_not_failed o : completed o = true -> failed o = false.
Proof.
  unfold completed, failed. destruct (state_of o); simpl; try discriminate.
  intros H. apply String.eqb_eq in H. now subst.
Qed.

Lemma extract_quiet body : snd (extract body) = [].
Proof.
  unfold extract. destruct body; try reflexivity. cbn [get]. rewrite bind_ret_l.
  destruct (lookup "result" props); try reflexivity. cbn [get]. rewrite bind_ret_l.
  destruct (lookup "rows" props0); try reflexivity. cbn [project_rows].
  induction elems as [| row rows IH]; [reflexivity |].
  cbn [map_m]. destruct row; try reflexivity; cbn [get]; rewrite bind_ret_l;
    destruct (map_m _ rows) as [[l | e |] t]; simpl in *; now subst.
Qed.

Lemma bind_ext {A B} (m : M A) (f g : A -> M B) :
  (forall a, f a = g a) -> bind m f = bind m g.
Proof. intros H. destruct m as [[a | e |] t]; simpl; [now rewrite H | |]; reflexivity. Qed.

Lemma extract_bind {B} body (k : list jsval -> M B) :
  (result <- get body "result" ;; rows <- get result "rows" ;;
   fids <- project_rows rows ;; k fids)
  = bind (extract body) k.
Proof.
  unfold extract. rewrite bind_assoc. apply bind_ext. intros result.
  now rewrite bind_assoc.
Qed.

(** The Query Runner when the submission fails. *)
Lemma fetch_submission_rejected cfg w e :
  execute_reply w = Rejected e ->
  fetchFidsToUnfollow cfg w =
  (Normal [],
   [Log Info [Lit "Executing Dune query (ID: "; Sub (JNum DUNE_QUERY_ID);
              Lit ") for target FID: "; Sub (env (TARGET_FID cfg)); Lit "..."];
    Http (DuneExecute DUNE_QUERY_ID (Number (TARGET_FID cfg)) (DUNE_API_KEY cfg))
         (Rejected e);
    fetch_failed; report_line e]).
Proof.
  intros H. unfold fetchFidsToUnfollow. rewrite H. unfold log.info at 1.
  rewrite bind_emit. cbn [await bind try_catch]. rewrite fetch_handler. reflexivity.
Qed.

Ltac fetch_done :=
  unfold log.success, submitted, fetch_failed;
  cbn [bind emit ret fst snd try_catch app];
  rewrite ?fetch_handler;
  cbn [bind emit ret fst snd try_catch app];
  rewrite <- ?app_assoc;
  reflexivity.

(** The Query Runner when the execution id cannot be printed: the log line
    that announces the polling throws, and no status request is made. *)
Lemma fetch_unprintable_handle cfg w resp :
  execute_reply w = Resolved resp ->
  truthy (field "execution_id" (data resp)) = true ->
  unprintable (field "execution_id" (data resp)) = true ->
  fetchFidsToUnfollow cfg w =
  (Normal [],
   [Log Info [Lit "Executing Dune query (ID: "; Sub (JNum DUNE_QUERY_ID);
              Lit ") for target FID: "; Sub (env (TARGET_FID cfg)); Lit "..."];
    Http (DuneExecute DUNE_QUERY_ID (Number (TARGET_FID cfg)) (DUNE_API_KEY cfg))
         (Resolved resp);
    fetch_failed;
    Log Error [Lit "Cannot convert object to primitive value"]]).
Proof.
  intros Hreply Hid Hp.
  pose proof (truthy_field_object _ _ Hid) as Hobj.
  unfold fetchFidsToUnfollow. rewrite Hreply. unfold log.info at 1.
  rewrite bind_emit. cbn [await]. rewrite bind_normal. cbn beta.
  rewrite (get_object _ _ Hobj), bind_ret_l. rewrite Hid. cbn [negb].
  rewrite bind_ret_l, template_sub, Hp. reflexivity.
Qed.

(** The Query Runner once the submission has returned an execution id, by
    cases on how the polling ends and on the reply to the results request. *)
Lemma fetch_after_submission cfg w resp :
  execute_reply w = Resolved resp ->
  truthy (field "execution_id" (data resp)) = true ->
  unprintable (field "execution_id" (data resp)) = false ->
  let executionId := field "execution_id" (data resp) in
  fetchFidsToUnfollow cfg w =
  match poll cfg executionId (status_replies w) with
  | (Pending, tp) => (Pending, submitted cfg resp ++ tp)
  | (Throw e, tp) =>
    (Normal [], submitted cfg resp ++ tp ++ [fetch_failed; report_line e])
  | (Normal _, tp) =>
    let fetched := Http (DuneResults executionId (DUNE_API_KEY cfg)) (results_reply w) in
    match results_reply w with
    | Rejected e =>
      (Normal [], submitted cfg resp ++ tp ++ [fetched; fetch_failed; report_line e])
    | Resolved rresp =>
      match fst (extract (data rresp)) with
      | Normal fids =>
        (Normal fids,
         submitted cfg resp ++ tp ++
         [fetched;
          Log Success [Lit "Found "; num (length fids); Lit " FIDs to unfollow."]])
      | Throw e =>
        (Normal [], submitted cfg resp ++ tp ++ [fetched; fetch_failed; report_line e])
      | Pending => (Pending, submitted cfg resp ++ tp ++ [fetched])
      end
    end
  end.
Proof.
  intros Hreply Hid Hp executionId. subst executionId.
  pose proof (truthy_field_object _ _ Hid) as Hobj.
  unfold fetchFidsToUnfollow. rewrite Hreply. unfold log.info at 1.
  rewrite bind_emit. cbn [await]. rewrite bind_normal. cbn beta.
  rewrite (get_object _ _ Hobj), bind_ret_l. rewrite Hid. cbn [negb].
  rewrite bind_ret_l, template_sub, template_url, Hp, bind_ret_l.
  unfold log.info. rewrite bind_emit.
  destruct (poll cfg (field "execution_id" (data resp)) (status_replies w))
    as [[[] | e |] tp].
  - rewrite bind_normal, bind_ret_l.
    destruct (results_reply w) as [rresp | e]; cbn [await].
    + rewrite bind_normal. cbn beta.
      pose proof (extract_quiet (data rresp)) as Hq.
      rewrite !extract_bind.
      destruct (extract (data rresp)) as [[fids | e |] t]; cbn [snd] in Hq; subst t;
        cbn [fst].
      * fetch_done.
      * fetch_done.
      * fetch_done.
    + fetch_done.
  - fetch_done.
  - fetch_done.
Qed.

Lemma map_m_get_throws k rows :
  forallb (fun row => negb (nullish row)) rows = false ->
  exists e, map_m (fun row => get row k) rows = (Throw e, []) /\ response e = None.
Proof.
  induction rows as [| row rows IH]; [discriminate |].
  cbn [forallb map_m]. destruct (nullish row) eqn:Hnull; cbn [negb andb].
  - intros _. destruct row; try discriminate; eexists; split; reflexivity.
  - intros H. destruct (IH H) as (e & He & Hresp).
    rewrite (get_object _ _ Hnull), bind_ret_l, He. exists e. split; [reflexivity | exact Hresp].
Qed.

Lemma forallb_Forall_not_null rows :
  forallb (fun row => negb (nullish row)) rows = true ->
  Forall (fun row => nullish row = false) rows.
Proof.
  intros H. apply Forall_forall. intros row Hin.
  rewrite forallb_forall in H. specialize (H row Hin). now apply negb_true_iff in H.
Qed.

(** What the Query Runner makes of the body of the results reply. *)
Lemma extract_cases body :
  if rows_ok body
  then extract body = (Normal (map (field "profile_id") (rows_of body)), [])
  else exists e, extract body = (Throw e, []) /\ response e = None.
Proof.
  unfold rows_ok, rows_of, extract.
  destruct (nullish body) eqn:Hb.
  { destruct body; try discriminate; cbn; eexists; split; reflexivity. }
  rewrite (get_object _ _ Hb), bind_ret_l.
  destruct (nullish (field "result" body)) eqn:Hr.
  { destruct (field "result" body); try discriminate; cbn; eexists; split; reflexivity. }
  rewrite (get_object _ _ Hr), bind_ret_l.
  destruct (field "rows" (field "result" body)) as [| | | | | rows |];
    try (cbn; eexists; split; reflexivity).
  cbn [project_rows].
  destruct (forallb (fun row => negb (nullish row)) rows) eqn:Hrows.
  - apply map_m_get. now apply forallb_Forall_not_null.
  - now apply map_m_get_throws.
Qed.

Lemma status_requests_of_polls cfg executionId replies :
  length (filter is_status_request (flat_map (poll_lines cfg executionId) replies))
  = length replies.
Proof. induction replies as [| o l IH]; simpl; [| rewrite IH]; reflexivity. Qed.

Lemma results_requests_of_polls cfg executionId replies :
  filter is_results_request (flat_map (poll_lines cfg executionId) replies) = [].
Proof. induction replies as [| o l IH]; simpl; [| rewrite IH]; reflexivity. Qed.

Lemma completed_printable o : completed o = true -> unprintable (state_of o) = false.
Proof. unfold completed. now destruct (state_of o). Qed.

Lemma poll_completed cfg executionId c later :
  unprintable executionId = false ->
  completed c = true ->
  poll cfg executionId (c :: later) = (Normal tt, poll_lines cfg executionId c).
Proof.
  intros Hp H. rewrite (poll_step _ _ _ _ Hp).
  pose proof (completed_printable _ H) as Hs.
  destruct (completed_object _ H) as (r & -> & Hnull).
  now rewrite Hnull, (completed_not_failed _ H), Hs, H.
Qed.

Lemma poll_failed cfg executionId f later :
  unprintable executionId = false ->
  failed f = true ->
  poll cfg executionId (f :: later) =
  (Throw (if unprintable (field "error" (body_of f))
          then TypeError_primitive
          else Error_ [Lit "Dune query failed: "; Sub (field "error" (body_of f))]),
   [Sleep 3000; Http (DuneStatus executionId (DUNE_API_KEY cfg)) f]).
Proof.
  intros Hp H. rewrite (poll_step _ _ _ _ Hp). destruct (failed_object _ H) as (r & -> & Hnull).
  now rewrite Hnull, H.
Qed.

(** X5. The loop polls until the query is completed: after any number of
    replies that report another state, the first reply with
    [QUERY_STATE_COMPLETED] ends it, later replies are never asked for, the
    results are fetched once, and the identifiers of the rows are returned.
    The trace holds one sleep, one status request and one log line per reply
    consumed.  (The execution id and the states reported are values that can
    be printed in the log lines: the loop is entered, and a reply counts as
    running, only then.) *)
Theorem polls_until_completed cfg w resp pre c later rresp :
  execute_reply w = Resolved resp ->
  truthy (field "execution_id" (data resp)) = true ->
  unprintable (field "execution_id" (data resp)) = false ->
  status_replies w = pre ++ c :: later ->
  Forall (fun o => running o = true) pre ->
  completed c = true ->
  results_reply w = Resolved rresp ->
  rows_ok (data rresp) = true ->
  let executionId := field "execution_id" (data resp) in
  let fids := map (field "profile_id") (rows_of (data rresp)) in
  let tr :=
    submitted cfg resp
    ++ flat_map (poll_lines cfg executionId) (pre ++ [c])
    ++ [Http (DuneResults executionId (DUNE_API_KEY cfg)) (Resolved rresp);
        Log Success [Lit "Found "; num (length fids); Lit " FIDs to unfollow."]] in
  fetchFidsToUnfollow cfg w = (Normal fids, tr) /\
  length (filter is_status_request tr) = S (length pre).
Proof.
  intros Hreply Hid Hp Hpolls Hpre Hc Hresults Hrows executionId fids tr.
  split.
  - rewrite (fetch_after_submission cfg w resp Hreply Hid Hp). cbv zeta.
    rewrite Hpolls, (poll_running_app _ _ _ _ Hp Hpre), (poll_completed _ _ _ _ Hp Hc).
    cbn [fst snd]. rewrite Hresults.
    pose proof (extract_cases (data rresp)) as He. rewrite Hrows in He.
    rewrite He. cbn [fst]. subst tr fids executionId.
    rewrite flat_map_app. cbn [flat_map]. rewrite app_nil_r. reflexivity.
  - subst tr. rewrite !filter_app, !length_app, status_requests_of_polls.
    rewrite length_app. simpl. lia.
Qed.

Lemma polls_until_completed_witness :
  fetchFidsToUnfollow cfg0
    (with_status [state_reply "QUERY_STATE_PENDING"; state_reply "QUERY_STATE_EXECUTING";
                  state_reply "QUERY_STATE_COMPLETED"; failed_reply] world0)
  = (Normal [JNum 11; JNum 12],
     submitted cfg0 {| status := 200;
                       data := JObj [("execution_id", JStr "01HXYZ");
                                     ("state", JStr "QUERY_STATE_PENDING")] |}
     ++ flat_map (poll_lines cfg0 (JStr "01HXYZ"))
          [state_reply "QUERY_STATE_PENDING"; state_reply "QUERY_STATE_EXECUTING";
           state_reply "QUERY_STATE_COMPLETED"]
     ++ [Http (DuneResults (JStr "01HXYZ") (Some "dune-key")) (rows_reply [row 11; row 12]);
         Log Success [Lit "Found "; num 2; Lit " FIDs to unfollow."]]).
Proof.
  assert (Forall (fun o => running o = true)
            [state_reply "QUERY_STATE_PENDING"; state_reply "QUERY_STATE_EXECUTING"]) as Hpre.
  { repeat constructor. }
  exact (proj1 (polls_until_completed cfg0
                  (with_status [state_reply "QUERY_STATE_PENDING";
                                state_reply "QUERY_STATE_EXECUTING";
                                state_reply "QUERY_STATE_COMPLETED"; failed_reply] world0)
                  {| status := 200;
                     data := JObj [("execution_id", JStr "01HXYZ");
                                   ("state", JStr "QUERY_STATE_PENDING")] |}
                  [state_reply "QUERY_STATE_PENDING"; state_reply "QUERY_STATE_EXECUTING"]
                  (state_reply "QUERY_STATE_COMPLETED") [failed_reply]
                  {| status := 200;
                     data := JObj [("result", JObj [("rows", JArr [row 11; row 12])])] |}
                  eq_refl eq_refl eq_refl eq_refl Hpre eq_refl eq_refl eq_refl)).
Defined.

(** X6. A reply with [QUERY_STATE_FAILED] ends the loop at whatever turn it
    comes: the replies before it were each polled once, no further status
    request and no results request is made, the failure is logged with the
    error the reply carries (with the engine's TypeError instead, when that
    error is a value that cannot be printed), and the empty list is
    returned. *)
Theorem failed_at_any_poll cfg w resp pre f later :
  execute_reply w = Resolved resp ->
  truthy (field "execution_id" (data resp)) = true ->
  unprintable (field "execution_id" (data resp)) = false ->
  status_replies w = pre ++ f :: later ->
  Forall (fun o => running o = true) pre ->
  failed f = true ->
  let executionId := field "execution_id" (data resp) in
  let err := field "error" (body_of f) in
  let tr :=
    submitted cfg resp
    ++ flat_map (poll_lines cfg executionId) pre
    ++ [Sleep 3000;
        Http (DuneStatus executionId (DUNE_API_KEY cfg)) f;
        fetch_failed;
        Log Error (if unprintable err
                   then [Lit "Cannot convert object to primitive value"]
                   else [Lit "Dune query failed: "; Sub err])] in
  fetchFidsToUnfollow cfg w = (Normal [], tr) /\
  length (filter is_status_request tr) = S (length pre) /\
  filter is_results_request tr = [].
Proof.
  intros Hreply Hid Hp Hpolls Hpre Hf executionId err tr.
  split; [| split].
  - rewrite (fetch_after_submission cfg w resp Hreply Hid Hp). cbv zeta.
    rewrite Hpolls, (poll_running_app _ _ _ _ Hp Hpre), (poll_failed _ _ _ _ Hp Hf).
    cbn [fst snd]. subst tr err executionId. rewrite <- !app_assoc.
    destruct (unprintable (field "error" (body_of f))); reflexivity.
  - subst tr. rewrite !filter_app, !length_app, status_requests_of_polls. simpl. lia.
  - subst tr. rewrite !filter_app, results_requests_of_polls. reflexivity.
Qed.

Lemma failed_at_any_poll_witness :
  fst (fetchFidsToUnfollow cfg0
         (with_status [state_reply "QUERY_STATE_EXECUTING"; failed_reply;
                       state_reply "QUERY_STATE_COMPLETED"] world0))
  = Normal [].
Proof.
  assert (Forall (fun o => running o = true) [state_reply "QUERY_STATE_EXECUTING"]) as Hpre.
  { repeat constructor. }
  rewrite (proj1 (failed_at_any_poll cfg0
                    (with_status [state_reply "QUERY_STATE_EXECUTING"; failed_reply;
                                  state_reply "QUERY_STATE_COMPLETED"] world0)
                    {| status := 200;
                       data := JObj [("execution_id", JStr "01HXYZ");
                                     ("state", JStr "QUERY_STATE_PENDING")] |}
                    [state_reply "QUERY_STATE_EXECUTING"] failed_reply
                    [state_reply "QUERY_STATE_COMPLETED"]
                    eq_refl eq_refl eq_refl eq_refl Hpre eq_refl)).
  reflexivity.
Defined.

Lemma fetch_no_handle cfg w resp :
  execute_reply w = Resolved resp ->
  truthy (field "execution_id" (data resp)) = false ->
  fst (fetchFidsToUnfollow cfg w) = Normal [].
Proof.
  intros Hreply Hid. unfold fetchFidsToUnfollow. rewrite Hreply.
  unfold log.info at 1. rewrite bind_emit. cbn [await]. rewrite bind_normal. cbn beta.
  destruct (nullish (data resp)) eqn:Hnull.
  - destruct (data resp); try discriminate; reflexivity.
  - rewrite (get_object _ _ Hnull), bind_ret_l, Hid. reflexivity.
Qed.


(** X8. When the body of the results reply has no array [result.rows], or the
    array holds a [null] row, nothing of it is returned: the TypeError is
    caught, logged after the line that says the fetch failed, and the result
    is the empty list. *)
Theorem malformed_results_discarded cfg w resp tp rresp :
  execute_reply w = Resolved resp ->
  truthy (field "execution_id" (data resp)) = true ->
  poll cfg (field "execution_id" (data resp)) (status_replies w) = (Normal tt, tp) ->
  results_reply w = Resolved rresp ->
  rows_ok (data rresp) = false ->
  exists m,
    fetchFidsToUnfollow cfg w =
    (Normal [],
     submitted cfg resp ++ tp
     ++ [Http (DuneResults (field "execution_id" (data resp)) (DUNE_API_KEY cfg))
              (Resolved rresp);
         fetch_failed; Log Error m]).
Proof.
  intros Hreply Hid Hpoll Hresults Hrows.
  pose proof (poll_normal_printable _ _ _ _ Hpoll) as Hp.
  rewrite (fetch_after_submission cfg w resp Hreply Hid Hp). cbv zeta.
  rewrite Hpoll, Hresults.
  pose proof (extract_cases (data rresp)) as He. rewrite Hrows in He.
  destruct He as (e & He & Hresp). rewrite He. cbn [fst].
  exists (message e). unfold report_line. rewrite Hresp. reflexivity.
Qed.

Lemma malformed_results_discarded_witness :
  exists m,
    fetchFidsToUnfollow cfg0 (with_results (rows_reply [row 11; JNull; row 13]) world0) =
    (Normal [],
     submitted cfg0 {| status := 200;
                       data := JObj [("execution_id", JStr "01HXYZ");
                                     ("state", JStr "QUERY_STATE_PENDING")] |}
     ++ snd (poll cfg0 (JStr "01HXYZ") (status_replies world0))
     ++ [Http (DuneResults (JStr "01HXYZ") (Some "dune-key"))
              (rows_reply [row 11; JNull; row 13]);
         fetch_failed; Log Error m]).
Proof.
  exact (malformed_results_discarded cfg0
           (with_results (rows_reply [row 11; JNull; row 13]) world0)
           {| status := 200;
              data := JObj [("execution_id", JStr "01HXYZ");
                            ("state", JStr "QUERY_STATE_PENDING")] |}
           (snd (poll cfg0 (JStr "01HXYZ") (status_replies world0)))
           {| status := 200;
              data := JObj [("result", JObj [("rows", JArr [row 11; JNull; row 13])])] |}
           eq_refl eq_refl eq_refl eq_refl eq_refl).
Defined.


Lemma poll_normal cfg executionId replies :
  fst (poll cfg executionId replies) = Normal tt ->
  Exists (fun o => completed o = true) replies.
Proof.
  destruct (unprintable executionId) eqn:Hp.
  { rewrite (poll_unprintable _ _ _ Hp). discriminate. }
  induction replies as [| reply later IH]; [rewrite poll_nil, Hp; discriminate |].
  rewrite (poll_step _ _ _ _ Hp). destruct reply as [r | e]; [| discriminate].
  destruct (nullish (data r)) eqn:Hnull; [discriminate |].
  destruct (failed (Resolved r)) eqn:Hf; [discriminate |].
  destruct (unprintable (state_of (Resolved r))); [discriminate |].
  destruct (completed (Resolved r)) eqn:Hc.
  - intros _. now left.
  - cbn [fst]. intros H. right. now apply IH.
Qed.

(** X9. Identifiers only ever come from a completed query: whenever the Query
    Runner returns a non-empty list, the submission had returned an execution
    id, some status reply said [QUERY_STATE_COMPLETED], the results request
    was answered, and the list is the [profile_id] of each row of that
    answer, in order. *)
Theorem nonempty_result_is_from_completed_query cfg w fids :
  fst (fetchFidsToUnfollow cfg w) = Normal fids ->
  fids <> [] ->
  exists resp rresp,
    execute_reply w = Resolved resp /\
    truthy (field "execution_id" (data resp)) = true /\
    Exists (fun o => completed o = true) (status_replies w) /\
    results_reply w = Resolved rresp /\
    rows_ok (data rresp) = true /\
    fids = map (field "profile_id") (rows_of (data rresp)).
Proof.
  intros Hf Hne. destruct (execute_reply w) as [resp | e] eqn:Hreply.
  2:{ rewrite (fetch_submission_rejected cfg w e Hreply) in Hf. inversion Hf. now subst. }
  destruct (truthy (field "execution_id" (data resp))) eqn:Hid.
  2:{ rewrite (fetch_no_handle cfg w resp Hreply Hid) in Hf. inversion Hf. now subst. }
  destruct (unprintable (field "execution_id" (data resp))) eqn:Hp.
  { rewrite (fetch_unprintable_handle cfg w resp Hreply Hid Hp) in Hf.
    inversion Hf. now subst. }
  rewrite (fetch_after_submission cfg w resp Hreply Hid Hp) in Hf. cbv zeta in Hf.
  destruct (poll cfg (field "execution_id" (data resp)) (status_replies w))
    as [[[] | e |] tp] eqn:Hpoll.
  - destruct (results_reply w) as [rresp | e] eqn:Hresults.
    2:{ inversion Hf. now subst. }
    exists resp, rresp. split; [reflexivity |]. split; [exact Hid |].
    split. { apply (poll_normal cfg (field "execution_id" (data resp))). now rewrite Hpoll. }
    split; [reflexivity |].
    pose proof (extract_cases (data rresp)) as He.
    destruct (rows_ok (data rresp)).
    + rewrite He in Hf. cbn [fst] in Hf. inversion Hf. now split.
    + destruct He as (e & He & _). rewrite He in Hf. cbn [fst] in Hf.
      inversion Hf. now subst.
  - inversion Hf. now subst.
  - discriminate.
Qed.

Lemma nonempty_result_is_from_completed_query_witness :
  exists resp rresp,
    execute_reply world0 = Resolved resp /\
    truthy (field "execution_id" (data resp)) = true /\
    Exists (fun o => completed o = true) (status_replies world0) /\
    results_reply world0 = Resolved rresp /\
    rows_ok (data rresp) = true /\
    [JNum 11; JNum 12] = map (field "profile_id") (rows_of (data rresp)).
Proof.
  assert ([JNum 11; JNum 12] <> []) as Hne by discriminate.
  exact (nonempty_result_is_from_completed_query cfg0 world0 [JNum 11; JNum 12]
           eq_refl Hne).
Defined.

(** X10. The Query Runner never throws, whatever the replies are -- rejected
    calls, bodies without the expected properties, [null] rows -- and all it
    does is log, sleep and call Dune: it sends no unfollow request and asks
    no question. *)
Theorem query_runner_never_throws cfg w :
  no_throw (fetchFidsToUnfollow cfg w) /\
  emits_only query_event (fetchFidsToUnfollow cfg w).
Proof.
  split; [apply no_throw_fetch |].
  apply emits_only_fetch; intros; exact Logic.I.
Qed.

Lemma paced_app t1 t2 : paced t1 -> paced t2 -> paced (t1 ++ t2).
Proof.
  intros H1 H2 pre ev post E Hev.
  apply app_eq_app in E as [l [[E1 E2] | [E1 E2]]].
  - destruct l as [| x l'].
    + rewrite app_nil_r in E1. subst pre. simpl in E2. symmetry in E2.
      destruct (H2 [] ev post E2 Hev) as [pre' Hpre]. now destruct pre'.
    + simpl in E2. injection E2 as Ex Ep. subst x post.
      exact (H1 pre ev l' E1 Hev).
  - destruct (H2 l ev post E2 Hev) as [pre' ->]. subst pre.
    exists (t1 ++ pre'). now rewrite app_assoc.
Qed.

Lemma paced_no_status tr :
  Forall (fun ev => is_status_request ev = false) tr -> paced tr.
Proof.
  intros H pre ev post E Hev. subst tr. apply Forall_app in H as [_ H].
  inversion H; subst. congruence.
Qed.

Lemma paced_poll cfg executionId replies : paced (snd (poll cfg executionId replies)).
Proof.
  assert (forall o, paced [Sleep 3000; Http (DuneStatus executionId (DUNE_API_KEY cfg)) o])
    as Hpair.
  { intros o pre ev post E Hev.
    destruct pre as [| e1 [| e2 [| e3 pre]]]; inversion E; subst; try discriminate.
    now exists []. }
  assert (forall o, paced (poll_lines cfg executionId o)) as Hlines.
  { intros o. change (poll_lines cfg executionId o)
      with ([Sleep 3000; Http (DuneStatus executionId (DUNE_API_KEY cfg)) o]
            ++ [Log Info [Lit "Query state: "; Sub (state_of o); Lit "..."]]).
    apply paced_app; [apply Hpair |]. apply paced_no_status. now repeat constructor. }
  destruct (unprintable executionId) eqn:Hp.
  { rewrite (poll_unprintable _ _ _ Hp). apply paced_no_status. now repeat constructor. }
  induction replies as [| reply later IH].
  - rewrite poll_nil, Hp. apply paced_no_status. now repeat constructor.
  - rewrite (poll_step _ _ _ _ Hp). destruct reply as [r | e]; [| apply Hpair].
    destruct (nullish (data r)); [apply Hpair |].
    destruct (failed (Resolved r)); [apply Hpair |].
    destruct (unprintable (state_of (Resolved r))); [apply Hpair |].
    destruct (completed (Resolved r)); [apply Hlines |].
    cbn [snd]. apply paced_app; [apply Hlines | exact IH].
Qed.

Lemma report_line_not_status e : is_status_request (report_line e) = false.
Proof. unfold report_line. now destruct (response e). Qed.

Lemma fetch_no_handle_trace cfg w resp :
  execute_reply w = Resolved resp ->
  truthy (field "execution_id" (data resp)) = false ->
  exists m,
    fetchFidsToUnfollow cfg w =
    (Normal [],
     [Log Info [Lit "Executing Dune query (ID: "; Sub (JNum DUNE_QUERY_ID);
                Lit ") for target FID: "; Sub (env (TARGET_FID cfg)); Lit "..."];
      Http (DuneExecute DUNE_QUERY_ID (Number (TARGET_FID cfg)) (DUNE_API_KEY cfg))
           (Resolved resp);
      fetch_failed; Log Error m]).
Proof.
  intros Hreply Hid. unfold fetchFidsToUnfollow. rewrite Hreply.
  unfold log.info at 1. rewrite bind_emit. cbn [await]. rewrite bind_normal. cbn beta.
  destruct (nullish (data resp)) eqn:Hnull.
  - destruct (data resp); try discriminate; eexists; reflexivity.
  - rewrite (get_object _ _ Hnull), bind_ret_l, Hid. eexists. reflexivity.
Qed.

Lemma report_line_is_log e : is_log (report_line e) = true.
Proof. unfold report_line. now destruct (response e). Qed.

(** The shape of the trace of the Query Runner: the first log line and the
    submission, log lines, the trace of the polling loop if the submission
    returned an execution id, and then log lines, possibly after the results
    request. *)
Lemma fetch_trace_shape cfg w :
  exists lines tp tail,
    snd (fetchFidsToUnfollow cfg w) =
    Log Info [Lit "Executing Dune query (ID: "; Sub (JNum DUNE_QUERY_ID);
              Lit ") for target FID: "; Sub (env (TARGET_FID cfg)); Lit "..."]
    :: Http (DuneExecute DUNE_QUERY_ID (Number (TARGET_FID cfg)) (DUNE_API_KEY cfg))
            (execute_reply w)
    :: lines ++ tp ++ tail /\
    Forall (fun ev => is_log ev = true) lines /\
    (tp = [] \/
     exists resp,
       execute_reply w = Resolved resp /\
       truthy (field "execution_id" (data resp)) = true /\
       tp = snd (poll cfg (field "execution_id" (data resp)) (status_replies w))) /\
    (Forall (fun ev => is_log ev = true) tail \/
     exists resp rest,
       execute_reply w = Resolved resp /\
       truthy (field "execution_id" (data resp)) = true /\
       tail = Http (DuneResults (field "execution_id" (data resp)) (DUNE_API_KEY cfg))
                   (results_reply w) :: rest /\
       Forall (fun ev => is_log ev = true) rest).
Proof.
  destruct (execute_reply w) as [resp | e] eqn:Hreply.
  2:{ exists [fetch_failed; report_line e], [], [].
      rewrite (fetch_submission_rejected cfg w e Hreply).
      split; [reflexivity |]. split; [| split; [now left | left; constructor]].
      repeat constructor. apply report_line_is_log. }
  destruct (truthy (field "execution_id" (data resp))) eqn:Hid.
  2:{ destruct (fetch_no_handle_trace cfg w resp Hreply Hid) as [m ->].
      exists [fetch_failed; Log Error m], [], [].
      split; [reflexivity |]. split; [| split; [now left | left; constructor]].
      repeat constructor. }
  destruct (unprintable (field "execution_id" (data resp))) eqn:Hp.
  { rewrite (fetch_unprintable_handle cfg w resp Hreply Hid Hp).
    exists [fetch_failed; Log Error [Lit "Cannot convert object to primitive value"]], [], [].
    split; [reflexivity |]. split; [| split; [now left | left; constructor]].
    repeat constructor. }
  rewrite (fetch_after_submission cfg w resp Hreply Hid Hp). cbv zeta.
  set (executionId := field "execution_id" (data resp)).
  set (started_line := Log Info [Lit "Dune execution started with ID: "; Sub executionId;
                                 Lit ". Waiting for results..."]).
  assert (forall tail,
            (Forall (fun ev => is_log ev = true) tail \/
             exists rest,
               tail = Http (DuneResults executionId (DUNE_API_KEY cfg)) (results_reply w)
                      :: rest /\
               Forall (fun ev => is_log ev = true) rest) ->
            exists lines tp tail',
              submitted cfg resp ++ snd (poll cfg executionId (status_replies w)) ++ tail =
              Log Info [Lit "Executing Dune query (ID: "; Sub (JNum DUNE_QUERY_ID);
                        Lit ") for target FID: "; Sub (env (TARGET_FID cfg)); Lit "..."]
              :: Http (DuneExecute DUNE_QUERY_ID (Number (TARGET_FID cfg)) (DUNE_API_KEY cfg))
                      (Resolved resp)
              :: lines ++ tp ++ tail' /\
              Forall (fun ev => is_log ev = true) lines /\
              (tp = [] \/
               exists resp0,
                 Resolved resp = Resolved resp0 /\
                 truthy (field "execution_id" (data resp0)) = true /\
                 tp = snd (poll cfg (field "execution_id" (data resp0)) (status_replies w))) /\
              (Forall (fun ev => is_log ev = true) tail' \/
               exists resp0 rest,
                 Resolved resp = Resolved resp0 /\
                 truthy (field "execution_id" (data resp0)) = true /\
                 tail' = Http (DuneResults (field "execution_id" (data resp0))
                                 (DUNE_API_KEY cfg)) (results_reply w) :: rest /\
                 Forall (fun ev => is_log ev = true) rest)) as Hshape.
  { intros tail Htail.
    exists [started_line], (snd (poll cfg executionId (status_replies w))), tail.
    split; [reflexivity |]. split; [repeat constructor |].
    split; [right; exists resp; repeat split; exact Hid |].
    destruct Htail as [Hl | (rest & -> & Hrest)]; [now left |].
    right. exists resp, rest. repeat split; trivial. }
  destruct (poll cfg executionId (status_replies w)) as [[[] | e |] tp]; cbn [snd] in *.
  - destruct (results_reply w) as [rresp | e] eqn:Hresults.
    + destruct (fst (extract (data rresp))) as [fids | e |]; cbn [snd];
        apply Hshape; right; eexists; (split; [reflexivity |]).
      * repeat constructor.
      * repeat constructor. apply report_line_is_log.
      * constructor.
    + cbn [snd]. apply Hshape. right. eexists. split; [reflexivity |].
      repeat constructor. apply report_line_is_log.
  - apply Hshape. left. repeat constructor. apply report_line_is_log.
  - replace (submitted cfg resp ++ tp) with (submitted cfg resp ++ tp ++ [])
      by now rewrite app_nil_r.
    apply Hshape. left. constructor.
Qed.

Lemma poll_events cfg executionId replies :
  Forall (poll_event cfg executionId) (snd (poll cfg executionId replies)).
Proof.
  assert (forall o, Forall (poll_event cfg executionId)
                      [Sleep 3000; Http (DuneStatus executionId (DUNE_API_KEY cfg)) o])
    as Hpair.
  { intros o. apply Forall_cons; [right; now left |].
    apply Forall_cons; [right; right; now exists o | constructor]. }
  assert (forall o, Forall (poll_event cfg executionId) (poll_lines cfg executionId o))
    as Hlines.
  { intros o. apply Forall_cons; [right; now left |].
    apply Forall_cons; [right; right; now exists o |].
    apply Forall_cons; [now left | constructor]. }
  destruct (unprintable executionId) eqn:Hp.
  { rewrite (poll_unprintable _ _ _ Hp). apply Forall_cons; [right; now left | constructor]. }
  induction replies as [| reply later IH].
  - rewrite poll_nil, Hp. apply Forall_cons; [right; now left | constructor].
  - rewrite (poll_step _ _ _ _ Hp). destruct reply as [r | e]; [| apply Hpair].
    destruct (nullish (data r)); [apply Hpair |].
    destruct (failed (Resolved r)); [apply Hpair |].
    destruct (unprintable (state_of (Resolved r))); [apply Hpair |].
    destruct (completed (Resolved r)); [apply Hlines |].
    cbn [snd]. apply Forall_app. split; [apply Hlines | exact IH].
Qed.

Lemma filter_none (f : event -> bool) tr :
  Forall (fun ev => f ev = false) tr -> filter f tr = [].
Proof.
  induction 1 as [| ev tr Hev _ IH]; [reflexivity |]. simpl. now rewrite Hev.
Qed.

Lemma logs_only (f : event -> bool) tr :
  (forall l m, f (Log l m) = false) ->
  Forall (fun ev => is_log ev = true) tr -> Forall (fun ev => f ev = false) tr.
Proof.
  intros Hf H. eapply Forall_impl; [| exact H].
  intros ev Hev. destruct ev; try discriminate. apply Hf.
Qed.

(** X11. The loop waits three seconds before every status request: in the
    trace of the Query Runner each status request comes right after a sleep
    of 3000 ms, the first one included. *)
Theorem status_requests_are_paced cfg w :
  paced (snd (fetchFidsToUnfollow cfg w)).
Proof.
  destruct (fetch_trace_shape cfg w) as (lines & tp & tail & -> & Hlines & Htp & Htail).
  assert (forall tr, Forall (fun ev => is_log ev = true) tr -> paced tr) as Hlog.
  { intros tr H. apply paced_no_status. now apply logs_only. }
  match goal with |- paced (?a :: ?b :: ?t) => change (paced ([a; b] ++ t)) end.
  apply paced_app; [apply paced_no_status; now repeat constructor |].
  apply paced_app; [now apply Hlog |]. apply paced_app.
  - destruct Htp as [-> | (resp & _ & _ & ->)].
    + apply paced_no_status. constructor.
    + apply paced_poll.
  - destruct Htail as [H | (resp & rest & _ & _ & -> & Hrest)]; [now apply Hlog |].
    apply paced_no_status. constructor; [reflexivity | now apply logs_only].
Qed.

(** X12. The Query Runner talks to Dune only about the job it submitted: it
    submits the query exactly once, for the configured target, and every
    status or results request it makes is for the execution id that the
    submission returned; all carry the Dune key, and there is at most one
    results request. *)
Theorem dune_requests_well_formed cfg w :
  let tr := snd (fetchFidsToUnfollow cfg w) in
  (forall r o, In (Http r o) tr -> dune_request cfg w r) /\
  length (filter is_execute_request tr) = 1 /\
  length (filter is_results_request tr) <= 1.
Proof.
  intros tr. subst tr.
  destruct (fetch_trace_shape cfg w) as (lines & tp & tail & -> & Hlines & Htp & Htail).
  assert (forall tr r o, Forall (fun ev => is_log ev = true) tr -> ~ In (Http r o) tr)
    as Hnolog.
  { intros tr r o H Hin. rewrite Forall_forall in H. specialize (H _ Hin). discriminate. }
  assert (forall executionId,
             Forall (fun ev => is_execute_request ev = false)
                    (snd (poll cfg executionId (status_replies w))) /\
             Forall (fun ev => is_results_request ev = false)
                    (snd (poll cfg executionId (status_replies w)))) as Hpoll.
  { intros executionId.
    split; (eapply Forall_impl; [| apply poll_events]); intros ev [H | [-> | [o ->]]];
      try reflexivity; destruct ev; try discriminate; reflexivity. }
  split; [| split].
  - intros r o [H | [H | H]]; [discriminate | inversion H; now left |].
    apply in_app_iff in H as [H | H]; [now destruct (Hnolog _ _ _ Hlines H) |].
    apply in_app_iff in H as [H | H].
    + destruct Htp as [-> | (resp & Hreply & Hid & ->)]; [destruct H |].
      pose proof (poll_events cfg (field "execution_id" (data resp)) (status_replies w)) as Hev.
      rewrite Forall_forall in Hev. destruct (Hev _ H) as [Hl | [Hs | [o' Ho]]];
        try discriminate.
      inversion Ho; subst. right. exists resp. auto.
    + destruct Htail as [Hl | (resp & rest & Hreply & Hid & -> & Hrest)];
        [now destruct (Hnolog _ _ _ Hl H) |].
      destruct H as [H | H]; [| now destruct (Hnolog _ _ _ Hrest H)].
      inversion H; subst. right. exists resp. auto.
  - cbn [filter is_execute_request length]. rewrite !filter_app, !length_app.
    rewrite (filter_none is_execute_request lines) by now apply logs_only.
    assert (filter is_execute_request tp = []) as ->.
    { destruct Htp as [-> | (resp & _ & _ & ->)]; [reflexivity |].
      apply filter_none, Hpoll. }
    assert (filter is_execute_request tail = []) as ->.
    { destruct Htail as [Hl | (resp & rest & _ & _ & -> & Hrest)].
      - apply filter_none. now apply logs_only.
      - cbn [filter is_execute_request]. apply filter_none. now apply logs_only. }
    reflexivity.
  - cbn [filter is_results_request]. rewrite !filter_app, !length_app.
    rewrite (filter_none is_results_request lines) by now apply logs_only.
    assert (filter is_results_request tp = []) as ->.
    { destruct Htp as [-> | (resp & _ & _ & ->)]; [reflexivity |].
      apply filter_none, Hpoll. }
    destruct Htail as [Hl | (resp & rest & _ & _ & -> & Hrest)].
    + rewrite (filter_none is_results_request tail) by now apply logs_only. simpl. lia.
    + cbn [filter is_results_request length].
      rewrite (filter_none is_results_request rest) by now apply logs_only. simpl. lia.
Qed.

Lemma dune_requests_well_formed_witness :
  dune_request cfg0 world0 (DuneStatus (JStr "01HXYZ") (Some "dune-key")).
Proof.
  apply (proj1 (dune_requests_well_formed cfg0 world0)
           (DuneStatus (JStr "01HXYZ") (Some "dune-key"))
           (state_reply "QUERY_STATE_EXECUTING")).
  simpl. right. right. right. right. left. reflexivity.
Defined.

(** ** The Batch Actuator, continued *)

Lemma firstn_seq k start len : firstn k (seq start len) = seq start (Nat.min k len).
Proof.
  revert start len. induction k as [| k IH]; intros start [| len]; simpl; trivial.
  now rewrite IH.
Qed.

Lemma In_firstn {A} (x : A) k l : In x (firstn k l) -> In x l.
Proof.
  intros H. rewrite <- (firstn_skipn k l). apply in_or_app. now left.
Qed.

(** The requests the actuator has sent are the requests of the first
    batches, in order; all of them when it returns. *)
Lemma unfollowFids_sent cfg w fids :
  exists k,
    sent (snd (unfollowFids cfg w fids)) =
    firstn k (map (request_of cfg) (tasks_from 0 (make_batches fids))) /\
    (fst (unfollowFids cfg w fids) = Normal tt -> length (make_batches fids) <= k).
Proof.
  destruct fids as [| fid fids'].
  { exists 0. split; [reflexivity |]. intros _. apply Nat.eq_le_incl. reflexivity. }
  destruct (unfollowFids_run cfg w (fid :: fids') ltac:(discriminate))
    as (p & tr & Hrun & H & Hsat & Hcount & Hfin).
  rewrite Hrun. cbn [fst snd].
  destruct (Inv_sent_prefix _ _ _ _ _ H Hsat) as [Hsent Hlen].
  exists (length (settled tr) + concurrency). split; [exact Hsent |].
  intros Hr.
  assert (length (make_batches (fid :: fids')) <= length (settle_order w)) as Hle.
  { destruct (_ <=? _) eqn:E; [now apply Nat.leb_le | discriminate]. }
  destruct (Hfin Hle) as (Hq & _).
  pose proof (inv_sent _ _ _ _ _ H) as Hs. rewrite Hq in Hs. cbn [map] in Hs.
  rewrite app_nil_r in Hs. apply (f_equal (@length _)) in Hs.
  rewrite length_map, tasks_from_length in Hs. rewrite tasks_from_length in Hlen. lia.
Qed.

Lemma sent_fids_of_tasks cfg tasks :
  flat_map (fun ir => target_fids_of (snd ir)) (map (request_of cfg) tasks)
  = concat (map batch tasks).
Proof.
  induction tasks as [| t tasks IH]; [reflexivity |].
  cbn [map flat_map concat request_of snd target_fids_of]. now rewrite IH.
Qed.

Lemma sent_fids_prefix cfg w fids :
  sent_fids (snd (unfollowFids cfg w fids))
  = firstn (length (sent (snd (unfollowFids cfg w fids))) * batchSize) fids.
Proof.
  destruct (unfollowFids_sent cfg w fids) as (k & Hsent & _).
  unfold sent_fids. rewrite Hsent.
  rewrite firstn_map, sent_fids_of_tasks, <- firstn_map, tasks_from_batch.
  rewrite length_map, length_firstn, tasks_from_length.
  rewrite make_batches_closed, firstn_map, firstn_seq, concat_chunks.
  unfold slice. cbn [skipn]. rewrite length_map, length_seq. f_equal. lia.
Qed.

Lemma sent_all_on_return cfg w fids :
  fst (unfollowFids cfg w fids) = Normal tt ->
  length fids <= length (sent (snd (unfollowFids cfg w fids))) * batchSize.
Proof.
  intros Hr. destruct (unfollowFids_sent cfg w fids) as (k & Hsent & Hall).
  specialize (Hall Hr). rewrite Hsent, length_firstn, length_map, tasks_from_length.
  rewrite Nat.min_r by exact Hall.
  rewrite make_batches_closed, length_map, length_seq.
  destruct (ceil_div_least (length fids) batchSize) as [Hup _];
    [unfold batchSize; lia | exact Hup].
Qed.

(** X13. Every identifier is submitted at most once, in the order of the
    list: at any end of the run the identifiers sent so far are an initial
    segment of the list, a hundred per request, and when the actuator returns
    they are the whole list. *)
Theorem identifiers_sent_once cfg w fids :
  let run := unfollowFids cfg w fids in
  sent_fids (snd run) = firstn (length (sent (snd run)) * batchSize) fids /\
  (fst run = Normal tt -> sent_fids (snd run) = fids).
Proof.
  intros run. subst run. split; [apply sent_fids_prefix |].
  intros Hr. rewrite sent_fids_prefix.
  apply firstn_all2. now apply sent_all_on_return.
Qed.

Lemma identifiers_sent_once_witness :
  sent_fids (snd (unfollowFids cfg0 world_partial fids250)) = fids250.
Proof.
  exact (proj2 (identifiers_sent_once cfg0 world_partial fids250) eq_refl).
Defined.

Lemma batch_sizes {A} (fids : list A) b :
  In b (make_batches fids) -> 0 < length b <= batchSize.
Proof.
  rewrite make_batches_closed. intros Hin.
  apply in_map_iff in Hin as (k & <- & Hk). apply in_seq in Hk.
  destruct (ceil_div_least (length fids) batchSize) as [_ Hleast];
    [unfold batchSize; lia |].
  assert (~ length fids <= k * batchSize) as Hn.
  { intros Hq. apply Hleast in Hq. lia. }
  unfold chunk. rewrite slice_length. unfold batchSize in *. lia.
Qed.

(** X14. Requests go out in the order of the batches and none is repeated,
    whatever the replies are: the batch numbers of the requests sent are
    [0, 1, 2, ...], and each request carries the Neynar key, the signer and
    between 1 and 100 identifiers. *)
Theorem requests_in_order_without_retry cfg w fids :
  let tr := snd (unfollowFids cfg w fids) in
  map fst (sent tr) = seq 0 (length (sent tr)) /\
  Forall (fun ir => exists targets,
            snd ir = NeynarUnfollow (NEYNAR_API_KEY cfg) (FARCASTER_SIGNER_UUID cfg) targets /\
            0 < length targets <= batchSize)
         (sent tr).
Proof.
  intros tr. subst tr. destruct (unfollowFids_sent cfg w fids) as (k & -> & _).
  split.
  - rewrite <- firstn_map, map_map. cbn [request_of fst].
    rewrite tasks_from_index, firstn_seq, length_firstn, length_map, tasks_from_length.
    reflexivity.
  - apply Forall_forall. intros ir Hin. apply In_firstn in Hin.
    apply in_map_iff in Hin as (t & <- & Ht). exists (batch t).
    split; [reflexivity |]. apply (batch_sizes fids).
    rewrite <- (tasks_from_batch 0 (make_batches fids)). now apply in_map.
Qed.

(** X15. Replies are handled once each and only for requests that were sent:
    the batch numbers of the replies handled are distinct and are among
    those of the requests sent; and the actuator handles as many replies as
    arrive, up to one per batch. *)
Theorem replies_handled_once cfg w fids :
  let tr := snd (unfollowFids cfg w fids) in
  NoDup (map fst (settled tr)) /\
  incl (map fst (settled tr)) (map fst (sent tr)) /\
  length (settled tr) = Nat.min (length (make_batches fids)) (length (settle_order w)).
Proof.
  intros tr. subst tr. destruct fids as [| fid fids'].
  { split; [constructor |]. split; [intros i [] | reflexivity]. }
  destruct (unfollowFids_run cfg w (fid :: fids') ltac:(discriminate))
    as (p & tr & Hrun & H & _ & Hcount & _).
  rewrite Hrun. cbn [snd].
  pose proof (inv_perm _ _ _ _ _ H) as Hperm.
  pose proof (inv_sent _ _ _ _ _ H) as Hsent.
  assert (NoDup (map fst (sent tr))) as Hnd.
  { apply (f_equal (map fst)) in Hsent. rewrite map_app, !map_map in Hsent.
    cbn [request_of fst] in Hsent. rewrite tasks_from_index in Hsent.
    pose proof (seq_NoDup (length (make_batches (fid :: fids'))) 0) as Hseq.
    rewrite <- Hsent in Hseq. exact (NoDup_app_remove_r _ _ Hseq). }
  split; [| split; [| exact Hcount]].
  - apply (NoDup_app_remove_l (map index (in_flight p))).
    exact (Permutation_NoDup (Permutation_sym Hperm) Hnd).
  - intros i Hin. apply (Permutation_in i Hperm). apply in_or_app. now right.
Qed.

(** The first phase of the actuator: the requests that go out before any
    reply is handled. *)
Lemma unfollowFids_start cfg w fids :
  fids <> [] ->
  exists pre post,
    snd (unfollowFids cfg w fids) = pre ++ post /\
    settled pre = [] /\
    length (sent pre) = Nat.min (length (make_batches fids)) concurrency.
Proof.
  intros Hne. unfold unfollowFids.
  destruct fids as [| fid fids']; [contradiction |].
  cbn [length Nat.eqb].
  set (batches := make_batches (fid :: fids')). set (n := length batches).
  set (l1 := [Lit "Preparing to unfollow "; num (S (length fids')); Lit " users."]).
  set (l2 := [Lit "Splitting into "; num n; Lit " batch(es)."]).
  set (p0 := {| activeCount := 0; queue := tasks_from 0 batches; in_flight := [] |}).
  assert (Inv cfg w (tasks_from 0 batches) p0 [Log Info l1; Log Info l2]) as H0.
  { constructor; subst p0; cbn [activeCount queue in_flight sent settled flat_map app length map].
    - reflexivity.
    - unfold concurrency. lia.
    - reflexivity.
    - reflexivity.
    - intros i o [].
    - intros pre suf E. destruct pre as [| e1 [| e2 [| e3 pre]]]; inversion E; simpl; lia.
    - intros i o []. }
  destruct (iterate_try_start_spec cfg w n _ n p0 _ H0)
    as (p1 & t1 & Hit & H1 & Hset1 & Hsum1 & Hend).
  assert (saturated p1) as Hsat1.
  { intros Hq. destruct Hend as [He | [He | He]]; [exact He | | contradiction].
    subst p0. cbn [queue] in He. rewrite tasks_from_length in He. fold n in He.
    destruct (queue p1); [contradiction | simpl in He; lia]. }
  unfold log.info. rewrite !bind_emit. cbv zeta. fold batches. fold n. fold p0.
  rewrite Hit, bind_normal. cbn [fst snd].
  match goal with |- context [snd ?m] => set (rest := snd m) end.
  exists ([Log Info l1; Log Info l2] ++ t1), rest.
  split; [reflexivity |].
  assert (settled ([Log Info l1; Log Info l2] ++ t1) = []) as Hs.
  { rewrite settled_app, Hset1. reflexivity. }
  split; [exact Hs |].
  destruct (Inv_sent_prefix _ _ _ _ _ H1 Hsat1) as [_ Hlen].
  rewrite Hs, tasks_from_length in Hlen. exact Hlen.
Qed.

(** X16. The limit is used in full: before it handles any reply, the
    actuator has sent the requests of the first five batches (of all of them
    when there are fewer), so that they are in flight together. *)
Theorem first_requests_go_out_together cfg w fids :
  exists pre post,
    snd (unfollowFids cfg w fids) = pre ++ post /\
    settled pre = [] /\
    length (sent pre) = Nat.min (length (make_batches fids)) 5.
Proof.
  destruct fids as [| fid fids'].
  - exists [], (snd (unfollowFids cfg w [])). repeat split.
  - apply unfollowFids_start. discriminate.
Qed.

(** ** The workflow, continued *)

Lemma env_ok_check cfg :
  negb (truthy (env (DUNE_API_KEY cfg)))
  || negb (truthy (env (NEYNAR_API_KEY cfg)))
  || negb (truthy (env (FARCASTER_SIGNER_UUID cfg)))
  || negb (truthy (env (TARGET_FID cfg)))
  = negb (env_ok cfg).
Proof.
  unfold env_ok.
  destruct (truthy (env (DUNE_API_KEY cfg))), (truthy (env (NEYNAR_API_KEY cfg))),
    (truthy (env (FARCASTER_SIGNER_UUID cfg))), (truthy (env (TARGET_FID cfg)));
    reflexivity.
Qed.

(** [main], by cases on the configuration and on what the query gave. *)
Lemma main_cases cfg w :
  main cfg w =
  if env_ok cfg then
    match fetchFidsToUnfollow cfg w with
    | (Normal fids, tf) =>
      if 0 <? length fids then
        if existsb unprintable fids then
          (Throw TypeError_primitive,
           banner :: tf ++ [ConsoleLog [Lit (String LF "--- FIDs to Unfollow ---")]])
        else if tty w then
          if String.eqb (toLowerCase (answer w)) "yes"
          then (fst (unfollowFids cfg w fids),
                (banner :: tf ++ confirmation fids (answer w))
                ++ snd (unfollowFids cfg w fids))
          else (Normal tt,
                (banner :: tf ++ confirmation fids (answer w))
                ++ [Log Info [Lit "Unfollow action cancelled by user."]])
        else (Throw no_terminal, banner :: tf ++ listing fids)
      else
        (Normal tt,
         banner :: tf
         ++ [Log Info [Lit "No FIDs flagged for unfollowing based on the Dune query."]])
    | (Throw e, tf) => (Throw e, banner :: tf)
    | (Pending, tf) => (Pending, banner :: tf)
    end
  else
    (Normal tt,
     [banner;
      Log Error [Lit "One or more required environment variables are missing."];
      Log Error [Lit "Please check your .env file."]]).
Proof.
  destruct (env_ok cfg) eqn:Henv.
  - destruct (fetchFidsToUnfollow cfg w) as [[fids | e |] tf] eqn:Hfetch.
    + destruct fids as [| fid fids'].
      * unfold main, console.log. rewrite bind_emit, env_ok_check, Henv. cbn [negb].
        rewrite Hfetch. reflexivity.
      * rewrite (main_after_fetch cfg w (fid :: fids') tf Henv Hfetch ltac:(discriminate)).
        reflexivity.
    + unfold main, console.log. rewrite bind_emit, env_ok_check, Henv. cbn [negb].
      rewrite Hfetch. reflexivity.
    + unfold main, console.log. rewrite bind_emit, env_ok_check, Henv. cbn [negb].
      rewrite Hfetch. reflexivity.
  - unfold main, console.log. rewrite bind_emit, env_ok_check, Henv. reflexivity.
Qed.

Lemma fetch_no_question cfg w :
  filter is_question (snd (fetchFidsToUnfollow cfg w)) = [].
Proof.
  apply filter_none.
  eapply Forall_impl; [| apply (emits_only_fetch query_event); intros; exact Logic.I].
  intros ev Hev. destruct ev; try reflexivity. destruct Hev.
Qed.

Lemma outcome_lines_logs i o : Forall actuator_event (outcome_lines i o).
Proof.
  destruct o as [r | e]; simpl.
  - destruct (nullish (data r)); [repeat constructor |].
    destruct (truthy (field "success" (data r))); repeat constructor.
  - unfold report_line. destruct (response e); repeat constructor.
Qed.

Lemma emits_only_dequeue cfg total p :
  emits_only actuator_event (dequeue cfg total p).
Proof. unfold dequeue. destruct (queue p); repeat constructor. Qed.

Lemma emits_only_try_start cfg total p :
  emits_only actuator_event (try_start cfg total p).
Proof.
  unfold try_start. destruct (_ && _); [apply emits_only_dequeue | constructor].
Qed.

Lemma emits_only_iterate cfg total n :
  forall p, emits_only actuator_event (iterate n (try_start cfg total) p).
Proof.
  induction n as [| n IH]; intros p; [constructor |].
  cbn [iterate]. apply emits_only_bind; [apply emits_only_try_start | exact IH].
Qed.

Lemma emits_only_settle cfg w total p k :
  emits_only actuator_event (settle cfg w total p k).
Proof.
  unfold settle. destruct (nth_error _ _) as [t |]; [| constructor].
  apply emits_only_bind.
  - rewrite resume_eq. unfold emits_only. cbn [snd].
    constructor; [exact Logic.I | apply outcome_lines_logs].
  - intros _. apply emits_only_dequeue.
Qed.

Lemma emits_only_drain cfg w total order :
  forall p, emits_only actuator_event (drain cfg w total order p).
Proof.
  induction order as [| k later IH]; intros p; cbn [drain].
  - destruct (in_flight p), (queue p); constructor.
  - assert (emits_only actuator_event
              (p' <- settle cfg w total p k ;; drain cfg w total later p')) as H.
    { apply emits_only_bind; [apply emits_only_settle | exact IH]. }
    destruct (in_flight p), (queue p); first [exact H | constructor].
Qed.

(** The actuator only logs, sends unfollow requests and handles their
    replies. *)
Lemma emits_only_unfollowFids cfg w fids :
  emits_only actuator_event (unfollowFids cfg w fids).
Proof.
  unfold unfollowFids. destruct (length fids =? 0); [repeat constructor |].
  apply emits_only_bind; [repeat constructor |]. intros _. cbv zeta.
  apply emits_only_bind; [repeat constructor |]. intros _.
  apply emits_only_bind; [apply emits_only_iterate |]. intros p.
  apply emits_only_bind; [apply emits_only_drain |]. intros _. repeat constructor.
Qed.

Lemma unfollowFids_no_question cfg w fids :
  filter is_question (snd (unfollowFids cfg w fids)) = [].
Proof.
  apply filter_none. eapply Forall_impl; [| apply emits_only_unfollowFids].
  intros ev Hev. destruct ev; try reflexivity. destruct Hev.
Qed.

Lemma filter_nil_In (f : event -> bool) tr ev :
  filter f tr = [] -> In ev tr -> f ev = false.
Proof.
  intros Hf Hin. destruct (f ev) eqn:E; [| reflexivity].
  assert (In ev (filter f tr)) as H by (apply filter_In; now split).
  rewrite Hf in H. destruct H.
Qed.

(** X17. Nothing goes over the network unless the configuration is
    complete: [main] makes an HTTP call if and only if the four variables are
    all set and not empty, and otherwise it prints two error lines and
    returns. *)
Theorem network_only_with_full_configuration cfg w :
  ((exists r o, In (Http r o) (snd (main cfg w))) <-> env_ok cfg = true) /\
  (env_ok cfg = false ->
   main cfg w =
   (Normal tt,
    [banner;
     Log Error [Lit "One or more required environment variables are missing."];
     Log Error [Lit "Please check your .env file."]])).
Proof.
  pose proof (main_cases cfg w) as Hmain.
  destruct (env_ok cfg) eqn:Henv.
  - split; [| discriminate]. split; [reflexivity |]. intros _.
    destruct (fetch_starts_with_submission cfg w) as [rest Hrest].
    exists (DuneExecute DUNE_QUERY_ID (Number (TARGET_FID cfg)) (DUNE_API_KEY cfg)),
      (execute_reply w).
    rewrite Hmain.
    destruct (fetchFidsToUnfollow cfg w) as [[fids | e |] tf]; cbn [snd] in Hrest; subst tf.
    + destruct (0 <? length fids);
        [destruct (existsb unprintable fids);
         [| destruct (tty w); [destruct (String.eqb _ _) |]] |];
        cbn [snd app]; right; right; now left.
    + right. right. now left.
    + right. right. now left.
  - split; [| intros _; exact Hmain]. rewrite Hmain. cbn [snd]. split; [| discriminate].
    intros (r & o & [H | [H | [H | []]]]); discriminate.
Qed.

Lemma network_only_with_full_configuration_witness :
  main cfg_no_signer world0 =
  (Normal tt,
   [banner;
    Log Error [Lit "One or more required environment variables are missing."];
    Log Error [Lit "Please check your .env file."]]).
Proof.
  exact (proj2 (network_only_with_full_configuration cfg_no_signer world0) eq_refl).
Defined.

Lemma fetch_then cfg w fids tf (tail : trace) :
  fetchFidsToUnfollow cfg w = (Normal fids, tf) ->
  sent tail = [] -> filter is_question tail = [] ->
  sent (banner :: tf ++ tail) = [] /\ filter is_question (banner :: tf ++ tail) = [].
Proof.
  intros Hfetch Hs Hq.
  pose proof (fetch_quiet cfg w) as [Hquiet _].
  pose proof (fetch_no_question cfg w) as Hnq.
  rewrite Hfetch in Hquiet, Hnq. cbn [snd] in Hquiet, Hnq.
  split.
  - cbn [sent flat_map banner app]. fold (sent (tf ++ tail)).
    now rewrite sent_app, Hquiet, Hs.
  - cbn [filter is_question banner]. now rewrite filter_app, Hnq, Hq.
Qed.

(** X18. The operator is asked exactly when there is something to show and
    somewhere to ask: the question appears in the trace of [main] if and
    only if the configuration is complete, the query returned a non-empty
    list, the list can be printed and the process has a terminal; it is then
    asked once. *)
Theorem asked_iff_list_shown cfg w :
  ((exists prompt a, In (Question prompt a) (snd (main cfg w))) <->
   (env_ok cfg = true /\ tty w = true /\
    exists fids,
      fst (fetchFidsToUnfollow cfg w) = Normal fids /\ fids <> [] /\
      existsb unprintable fids = false)) /\
  length (filter is_question (snd (main cfg w))) <= 1.
Proof.
  pose proof (main_cases cfg w) as Hmain.
  pose proof (fetch_no_question cfg w) as Hq.
  pose proof (unfollowFids_no_question cfg w) as Hact.
  assert (forall tr, filter is_question tr = [] ->
            ~ exists prompt a, In (Question prompt a) tr) as Hnone.
  { intros tr Hf (prompt & a & Hin). pose proof (filter_nil_In _ _ _ Hf Hin). discriminate. }
  destruct (env_ok cfg) eqn:Henv.
  2:{ rewrite Hmain. cbn [snd]. split; [| simpl; lia]. split.
      - intros (prompt & a & [H | [H | [H | []]]]); discriminate.
      - intros [H _]. discriminate. }
  destruct (fetchFidsToUnfollow cfg w) as [[fids | e |] tf] eqn:Hfetch; cbn [fst snd] in *.
  - destruct fids as [| fid fids']; cbn [length Nat.ltb Nat.leb] in Hmain.
    + rewrite Hmain. cbn [snd].
      destruct (fetch_then cfg w _ tf
                  [Log Info [Lit "No FIDs flagged for unfollowing based on the Dune query."]]
                  Hfetch eq_refl eq_refl) as [_ Hf].
      rewrite Hf. split; [| simpl; lia]. split.
      * intros H. now destruct (Hnone _ Hf H).
      * intros (_ & _ & fids & Hfids & Hne & _). inversion Hfids. now subst.
    + destruct (existsb unprintable (fid :: fids')) eqn:Hprint.
      { rewrite Hmain. cbn [snd].
        destruct (fetch_then cfg w _ tf
                    [ConsoleLog [Lit (String LF "--- FIDs to Unfollow ---")]]
                    Hfetch eq_refl eq_refl) as [_ Hf].
        rewrite Hf. split; [| simpl; lia]. split.
        - intros H. now destruct (Hnone _ Hf H).
        - intros (_ & _ & fids & Hfids & _ & Hp). inversion Hfids; subst.
          rewrite Hprint in Hp. discriminate. }
      destruct (tty w) eqn:Htty.
      2:{ rewrite Hmain. cbn [snd].
          destruct (fetch_then cfg w _ tf (listing (fid :: fids')) Hfetch eq_refl eq_refl)
            as [_ Hf].
          rewrite Hf. split; [| simpl; lia]. split.
          - intros H. now destruct (Hnone _ Hf H).
          - intros (_ & H & _). discriminate. }
      split.
      * split.
        { intros _. split; [reflexivity |]. split; [reflexivity |].
          exists (fid :: fids'). split; [reflexivity |]. split; [discriminate | exact Hprint]. }
        intros _. eexists _, (answer w). rewrite Hmain.
        destruct (String.eqb _ _); cbn [snd]; apply in_or_app; left;
          right; apply in_or_app; right; unfold confirmation;
          right; right; right; left; reflexivity.
      * rewrite Hmain.
        destruct (String.eqb _ _); cbn [snd]; cbn [filter is_question banner app];
          rewrite !filter_app, Hq, ?Hact; simpl; lia.
  - rewrite Hmain. cbn [snd]. split.
    + split.
      * intros (prompt & a & [H | H]); [discriminate |].
        pose proof (filter_nil_In _ _ _ Hq H). discriminate.
      * intros (_ & _ & fids & Hf & _). discriminate.
    + cbn [filter is_question banner]. rewrite Hq. simpl. lia.
  - rewrite Hmain. cbn [snd]. split.
    + split.
      * intros (prompt & a & [H | H]); [discriminate |].
        pose proof (filter_nil_In _ _ _ Hq H). discriminate.
      * intros (_ & _ & fids & Hf & _). discriminate.
    + cbn [filter is_question banner]. rewrite Hq. simpl. lia.
Qed.

Lemma asked_iff_list_shown_witness :
  exists prompt a, In (Question prompt a) (snd (main cfg0 world0)).
Proof.
  apply (proj2 (proj1 (asked_iff_list_shown cfg0 world0))).
  split; [reflexivity |]. split; [reflexivity |].
  exists [JNum 11; JNum 12]. split; [reflexivity |]. split; [discriminate | reflexivity].
Defined.

Lemma sent_shown cfg w fids tf a :
  fetchFidsToUnfollow cfg w = (Normal fids, tf) ->
  sent (banner :: tf ++ confirmation fids a) = [].
Proof.
  intros Hfetch. cbn [sent flat_map banner app].
  fold (sent (tf ++ confirmation fids a)).
  rewrite sent_app, sent_confirmation, app_nil_r.
  pose proof (fetch_quiet cfg w) as [Hq _]. now rewrite Hfetch in Hq.
Qed.

(** X19. No unfollow request without a yes: whenever the trace of [main]
    holds an unfollow request, the operator was asked, answered "yes" in some
    mix of cases, and no request was sent before the question. *)
Theorem no_unfollow_without_confirmation cfg w :
  sent (snd (main cfg w)) <> [] ->
  In (answer w) yes_variants /\
  exists pre prompt post,
    snd (main cfg w) = pre ++ Question prompt (answer w) :: post /\
    sent pre = [].
Proof.
  rewrite (main_cases cfg w).
  destruct (env_ok cfg); [| intros H; now destruct H].
  pose proof (fetch_quiet cfg w) as [Hq _].
  destruct (fetchFidsToUnfollow cfg w) as [[fids | e |] tf] eqn:Hfetch; cbn [snd] in Hq.
  - destruct (0 <? length fids).
    + destruct (existsb unprintable fids).
      { cbn [snd].
        destruct (fetch_then cfg w fids tf
                    [ConsoleLog [Lit (String LF "--- FIDs to Unfollow ---")]]
                    Hfetch eq_refl eq_refl) as [-> _].
        intros H. now destruct H. }
      destruct (tty w).
      2:{ cbn [snd].
          destruct (fetch_then cfg w fids tf (listing fids) Hfetch eq_refl eq_refl) as [-> _].
          intros H. now destruct H. }
      pose proof (sent_shown cfg w fids tf (answer w) Hfetch) as Hshown.
      pose proof (toLowerCase_yes (answer w)) as Hyes.
      destruct (String.eqb (toLowerCase (answer w)) "yes"); cbn [snd].
      * intros _. split; [now apply Hyes |].
        exists (banner :: tf ++ listing fids).
        eexists _, (snd (unfollowFids cfg w fids)). split.
        -- unfold confirmation, listing. cbn [app]. rewrite <- !app_assoc. reflexivity.
        -- cbn [sent flat_map banner app].
           match goal with |- flat_map _ ?l = [] => fold (sent l) end.
           now rewrite sent_app, Hq.
      * rewrite sent_app, Hshown. intros H. now destruct H.
    + cbn [snd]. cbn [sent flat_map banner app].
      match goal with |- flat_map _ ?l <> [] -> _ => fold (sent l) end.
      rewrite sent_app, Hq. intros H. now destruct H.
  - cbn [snd]. cbn [sent flat_map banner app]. fold (sent tf). rewrite Hq.
    intros H. now destruct H.
  - cbn [snd]. cbn [sent flat_map banner app]. fold (sent tf). rewrite Hq.
    intros H. now destruct H.
Qed.

Lemma no_unfollow_without_confirmation_witness :
  In (answer world_mixed_case) yes_variants /\
  exists pre prompt post,
    snd (main cfg0 world_mixed_case) = pre ++ Question prompt (answer world_mixed_case) :: post /\
    sent pre = [].
Proof.
  apply (no_unfollow_without_confirmation cfg0 world_mixed_case). discriminate.
Defined.

(** X20. The handler at the last line of the script catches what [main]
    lets through.  [main] rejects in two cases only, both after a query
    that returned a non-empty list: the list cannot be printed ([join]
    raises a TypeError), or there is no terminal to ask on.  The handler then
    logs its line and the error, after what [main] had printed, and no
    unfollow request was sent and no question asked; the script itself
    never fails.  In every other run the handler does nothing. *)
Theorem top_level_handler_catches describe cfg w :
  no_throw (script describe cfg w) /\
  (forall e,
     fst (main cfg w) = Throw e <->
     env_ok cfg = true /\
     exists fids,
       fst (fetchFidsToUnfollow cfg w) = Normal fids /\ fids <> [] /\
       ((existsb unprintable fids = true /\ e = TypeError_primitive) \/
        (existsb unprintable fids = false /\ tty w = false /\ e = no_terminal))) /\
  (forall e,
     fst (main cfg w) = Throw e ->
     script describe cfg w =
     (Normal tt,
      snd (main cfg w)
      ++ [Log Error [Lit "An unexpected error occurred:"]; Log Error (describe e)]) /\
     sent (snd (main cfg w)) = [] /\
     filter is_question (snd (main cfg w)) = []) /\
  ((forall e, fst (main cfg w) <> Throw e) -> script describe cfg w = main cfg w).
Proof.
  assert (forall e, fst (main cfg w) = Throw e ->
            sent (snd (main cfg w)) = [] /\ filter is_question (snd (main cfg w)) = [] /\
            env_ok cfg = true /\
            exists fids,
              fst (fetchFidsToUnfollow cfg w) = Normal fids /\ fids <> [] /\
              ((existsb unprintable fids = true /\ e = TypeError_primitive) \/
               (existsb unprintable fids = false /\ tty w = false /\ e = no_terminal)))
    as Hthrown.
  { intros e. rewrite (main_cases cfg w).
    destruct (env_ok cfg); [| discriminate].
    pose proof (no_throw_fetch cfg w) as Hnt.
    destruct (fetchFidsToUnfollow cfg w) as [[fids | e' |] tf] eqn:Hfetch;
      [| now destruct (Hnt e') | discriminate].
    destruct fids as [| fid fids']; [discriminate |]. cbn [length Nat.ltb Nat.leb].
    destruct (existsb unprintable (fid :: fids')) eqn:Hprint.
    { cbn [fst snd]. intros H. inversion H; subst.
      destruct (fetch_then cfg w _ tf
                  [ConsoleLog [Lit (String LF "--- FIDs to Unfollow ---")]]
                  Hfetch eq_refl eq_refl) as [Hs Hq].
      split; [exact Hs |]. split; [exact Hq |]. split; [reflexivity |].
      exists (fid :: fids'). split; [reflexivity |]. split; [discriminate |]. now left. }
    destruct (tty w).
    - pose proof (no_throw_unfollowFids cfg w (fid :: fids')) as Hact.
      destruct (String.eqb _ _); cbn [fst]; [| discriminate].
      intros H. now destruct (Hact e).
    - cbn [fst snd]. intros H. inversion H; subst.
      destruct (fetch_then cfg w _ tf (listing (fid :: fids')) Hfetch eq_refl eq_refl)
        as [Hs Hq].
      split; [exact Hs |]. split; [exact Hq |]. split; [reflexivity |].
      exists (fid :: fids'). split; [reflexivity |]. split; [discriminate |]. right. auto. }
  split; [| split; [| split]].
  - intros e. unfold script. destruct (main cfg w) as [[[] | e' |] t]; discriminate.
  - intros e. split.
    + intros H. destruct (Hthrown e H) as (_ & _ & Henv & Hrest). now split.
    + intros (Henv & fids & Hfids & Hne & Hcase).
      destruct (fetchFidsToUnfollow cfg w) as [r tf] eqn:Hfetch. cbn [fst] in Hfids. subst r.
      rewrite (main_after_fetch cfg w fids tf Henv Hfetch Hne).
      destruct Hcase as [[-> ->] | (-> & -> & ->)]; reflexivity.
  - intros e H. destruct (Hthrown e H) as (Hs & Hq & _).
    split; [| split; [exact Hs | exact Hq]].
    unfold script. destruct (main cfg w) as [r t]. cbn [fst snd] in *. subst r. reflexivity.
  - intros H. unfold script. destruct (main cfg w) as [[[] | e |] t]; try reflexivity.
    now destruct (H e).
Qed.

Lemma top_level_handler_catches_witness :
  script (fun e => message e) cfg0 world_no_tty =
  (Normal tt,
   snd (main cfg0 world_no_tty)
   ++ [Log Error [Lit "An unexpected error occurred:"];
       Log Error [Lit "The current environment doesn't support interactive reading from TTY."]]).
Proof.
  exact (proj1 (proj1 (proj2 (proj2 (top_level_handler_catches (fun e => message e)
                                       cfg0 world_no_tty)))
                  no_terminal eq_refl)).
Defined.

(** X21. From the query to the last request: when the configuration is
    complete, the query returned a non-empty list that can be printed, the
    operator was asked on a terminal and said yes, and every request is
    answered, [main] returns normally, the identifiers it submitted to
    Neynar are exactly the list the query returned, each once and in order,
    and its last line says that all operations are completed. *)
Theorem confirmed_run_unfollows_all cfg w fids tf :
  env_ok cfg = true ->
  fetchFidsToUnfollow cfg w = (Normal fids, tf) ->
  fids <> [] ->
  existsb unprintable fids = false ->
  tty w = true ->
  In (answer w) yes_variants ->
  length (make_batches fids) <= length (settle_order w) ->
  fst (main cfg w) = Normal tt /\
  sent_fids (snd (main cfg w)) = fids /\
  exists pre,
    snd (main cfg w) = pre ++ [Log Success [Lit "All unfollow operations completed."]].
Proof.
  intros Henv Hfetch Hne Hprint Htty Hyes Hall.
  rewrite (main_after_fetch cfg w fids tf Henv Hfetch Hne), Hprint, Htty.
  apply toLowerCase_yes in Hyes. rewrite Hyes. cbn [fst snd].
  destruct (unfollowFids_run cfg w fids Hne) as (p & tr & Hrun & _ & _ & _ & Hfin).
  destruct (Hfin Hall) as (_ & _ & pre & Hpre).
  pose proof (sent_fids_prefix cfg w fids) as Hsent.
  pose proof (sent_all_on_return cfg w fids) as Hlen.
  apply Nat.leb_le in Hall. rewrite Hall in Hrun.
  rewrite Hrun in Hsent, Hlen |- *. cbn [fst snd] in *.
  split; [reflexivity |]. split.
  - unfold sent_fids in *. rewrite sent_app, (sent_shown cfg w fids tf _ Hfetch).
    cbn [app]. rewrite Hsent. apply firstn_all2. now apply Hlen.
  - exists ((banner :: tf ++ confirmation fids (answer w)) ++ pre).
    rewrite Hpre. now rewrite <- app_assoc.
Qed.

Lemma confirmed_run_unfollows_all_witness :
  fst (main cfg0 world0) = Normal tt /\
  sent_fids (snd (main cfg0 world0)) = [JNum 11; JNum 12].
Proof.
  assert ([JNum 11; JNum 12] <> []) as Hne by discriminate.
  assert (In (answer world0) yes_variants) as Hyes by (simpl; auto).
  assert (length (make_batches [JNum 11; JNum 12]) <= length (settle_order world0)) as Hall.
  { vm_compute. lia. }
  destruct (confirmed_run_unfollows_all cfg0 world0 [JNum 11; JNum 12]
              (snd (fetchFidsToUnfollow cfg0 world0)) eq_refl eq_refl Hne eq_refl eq_refl
              Hyes Hall)
    as (Hr & Hs & _).
  split; [exact Hr | exact Hs].
Defined.
